(** * ldsc/parse.py: validation and transforms of summary-statistics tables

    A shallow embedding of [ldsc/parse.py].  The module reads whitespace
    delimited tables with pandas, range-checks their columns and applies two
    numeric transforms.  The embedding keeps the shape of the code:

    - a float64 is a [spec_float] of the Standard Library (binary64: precision
      53, maximal exponent 1024), with IEEE comparison, subtraction, division,
      multiplication and square root; NaN and the infinities are values;
    - a pandas Series is a typed [column], a DataFrame an association list of
      column labels and columns, in column order (labels may repeat, as after
      a rename);
    - a raised exception is the [Raise] branch of [result];
    - DataFrames are mutable objects: [IDContainer.loj] runs in a monad over a
      store of DataFrames;
    - [scipy.special.chdtri], [pandas.concat] and Python's [float(str)] are
      library functions the module calls; they are parameters of the sections
      that use them. *)

From Stdlib Require Import ZArith Lia Ascii Sorted.
From Stdlib Require Import Floats.SpecFloat.
From stdpp Require Import base strings list gmap pretty.

Local Open Scope Z_scope.

(** ** float64 *)

Module F.

Definition float := spec_float.

Definition prec : Z := 53.
Definition emax : Z := 1024.

(** Conversion of an integer (int64 to float64, round to nearest even). *)
Definition of_Z (z : Z) : float := binary_normalize prec emax z 0 false.

(** The dyadic number [m * 2^e], rounded. *)
Definition dyadic (m e : Z) : float := binary_normalize prec emax m e false.

Definition zero : float := S754_zero false.
Definition one : float := Eval cbv in of_Z 1.
Definition inf : float := S754_infinity false.
Definition neg_inf : float := S754_infinity true.
Definition nan : float := S754_nan.

Definition is_nan (x : float) : bool :=
  match x with S754_nan => true | _ => false end.

Definition is_finite (x : float) : bool :=
  match x with S754_zero _ | S754_finite _ _ _ => true | _ => false end.

Definition ltb (x y : float) : bool := SFltb x y.
Definition leb (x y : float) : bool := SFleb x y.
Definition eqb (x y : float) : bool := SFeqb x y.
Definition gtb (x y : float) : bool := SFltb y x.
Definition geb (x y : float) : bool := SFleb y x.

Definition sub (x y : float) : float := SFsub prec emax x y.
Definition mul (x y : float) : float := SFmul prec emax x y.
Definition div (x y : float) : float := SFdiv prec emax x y.
Definition sqrt (x : float) : float := SFsqrt prec emax x.

End F.

Abbreviation float := F.float.

(** ** Exceptions *)

Inductive exn : Type :=
  | ValueError (msg : string)
  | KeyError (key : string)
  | TypeError (msg : string)
  | IndexError (msg : string)
  | IOError (fname : string).

Inductive result (A : Type) : Type :=
  | Ok (a : A)
  | Raise (e : exn).

Arguments Ok {A} a.
Arguments Raise {A} e.

Global Instance result_ret : MRet result := λ A a, Ok a.
Global Instance result_bind : MBind result :=
  λ A B f m, match m with Ok a => f a | Raise e => Raise e end.

Definition raises {A} (m : result A) : Prop := ∃ e, m = Raise e.

Definition raises_ValueError {A} (m : result A) : Prop :=
  ∃ msg, m = Raise (ValueError msg).

(** ** Series and DataFrames *)

(** A value of an object Series; NaN is [VFloat F.nan]. *)
Inductive cell : Type :=
  | VStr (s : string)
  | VInt (z : Z)
  | VFloat (f : float)
  | VBool (b : bool).

Inductive column : Type :=
  | CStr (l : list string)
  | CInt (l : list Z)
  | CFloat (l : list float)
  | CBool (l : list bool)
  | CObj (l : list cell).

Definition cells (c : column) : list cell :=
  match c with
  | CStr l => VStr <$> l
  | CInt l => VInt <$> l
  | CFloat l => VFloat <$> l
  | CBool l => VBool <$> l
  | CObj l => l
  end.

Definition col_length (c : column) : nat := length (cells c).

(** Rows of a Series selected by a boolean mask ([s[mask]]). *)
Fixpoint mask_list {A} (mask : list bool) (l : list A) : list A :=
  match mask, l with
  | b :: mask, a :: l => if b then a :: mask_list mask l else mask_list mask l
  | _, _ => []
  end.

Definition mask_col (mask : list bool) (c : column) : column :=
  match c with
  | CStr l => CStr (mask_list mask l)
  | CInt l => CInt (mask_list mask l)
  | CFloat l => CFloat (mask_list mask l)
  | CBool l => CBool (mask_list mask l)
  | CObj l => CObj (mask_list mask l)
  end.

(** A DataFrame: the column labels with their columns, in column order. *)
Abbreviation frame := (list (string * column)).

Definition columns (x : frame) : list string := x.*1.

(** Number of rows ([len(x)]). *)
Definition nrows (x : frame) : nat :=
  match x with
  | [] => 0%nat
  | (_, c) :: _ => col_length c
  end.

(** Every column of the frame has [n] rows. *)
Definition rectangular (n : nat) (x : frame) : Prop :=
  Forall (λ nc, col_length nc.2 = n) x.

(** [x[name]]: the column with that label, [KeyError] when there is none. *)
Fixpoint getitem (x : frame) (name : string) : result column :=
  match x with
  | [] => Raise (KeyError name)
  | (n, c) :: x => if decide (n = name) then Ok c else getitem x name
  end.

Definition get_str (x : frame) (name : string) : result (list string) :=
  c ← getitem x name;
  match c with
  | CStr l => Ok l
  | _ => Raise (TypeError "invalid type comparison")
  end.

Definition get_int (x : frame) (name : string) : result (list Z) :=
  c ← getitem x name;
  match c with
  | CInt l => Ok l
  | _ => Raise (TypeError "not an integer column")
  end.

Definition get_float (x : frame) (name : string) : result (list float) :=
  c ← getitem x name;
  match c with
  | CFloat l => Ok l
  | _ => Raise (TypeError "not a float column")
  end.

(** [x[name] = c]: overwrites the column in place, or appends a new one. *)
Definition setitem (x : frame) (name : string) (c : column) : frame :=
  if decide (name ∈ columns x)
  then (λ nc, if decide (nc.1 = name) then (name, c) else nc) <$> x
  else x ++ [(name, c)].

(** [x.rename(columns={old: new}, inplace=True)]. *)
Definition rename (old new : string) (x : frame) : frame :=
  (λ nc, if decide (nc.1 = old) then (new, nc.2) else nc) <$> x.

(** [del x[name]]. *)
Definition delitem (x : frame) (name : string) : result frame :=
  if decide (name ∈ columns x)
  then Ok (filter (λ nc, nc.1 ≠ name) x)
  else Raise (KeyError name).

(** [x.drop(labels, axis=1)]: every label has to be a column. *)
Definition df_drop (labels : list string) (x : frame) : result frame :=
  match filter (λ l, l ∉ columns x) labels with
  | [] => Ok (filter (λ nc, nc.1 ∉ labels) x)
  | l :: _ => Raise (ValueError ("labels not contained in axis: " +:+ l))
  end.

(** [x[mask]]: the rows where the mask is true. *)
Definition mask_rows (mask : list bool) (x : frame) : frame :=
  (λ nc, (nc.1, mask_col mask nc.2)) <$> x.

(** ** numpy and pandas reductions *)

(** The loops of [numpy.maximum], [numpy.minimum] and [numpy.fmin] on
    float64. *)
Definition np_maximum (a b : float) : float :=
  if F.geb a b || F.is_nan a then a else b.

Definition np_minimum (a b : float) : float :=
  if F.leb a b || F.is_nan a then a else b.

Definition np_fmin (a b : float) : float :=
  if F.leb a b || F.is_nan b then a else b.

(** [np.max] and [np.min] of a float Series go to [Series.max()] and
    [Series.min()], which skip NaN: the NaNs are replaced by the neutral
    infinity before the reduction, and a Series with no value left (all NaN,
    or empty) gives NaN. *)
Definition series_max (l : list float) : float :=
  if forallb F.is_nan l then F.nan
  else match (λ v, if F.is_nan v then F.neg_inf else v) <$> l with
       | [] => F.nan
       | a :: l' => foldl np_maximum a l'
       end.

Definition series_min (l : list float) : float :=
  if forallb F.is_nan l then F.nan
  else match (λ v, if F.is_nan v then F.inf else v) <$> l with
       | [] => F.nan
       | a :: l' => foldl np_minimum a l'
       end.

(** [np.min] of an int64 Series; [None] is the NaN of an empty Series. *)
Definition series_min_int (l : list Z) : option Z :=
  match l with
  | [] => None
  | a :: l' => Some (foldl Z.min a l')
  end.

(** ** Input checking functions *)

Definition check_dir (dir : list Z) : result unit :=
  let c1 := (λ d, negb (d =? 1)) <$> dir in
  let c2 := (λ d, negb (d =? -1)) <$> dir in
  if existsb id (zip_with andb c1 c2)
  then Raise (ValueError "DIR entry not equal to +/- 1.")
  else Ok tt.

(** [rsids.duplicated(...)]: true at an entry that occurs again later. *)
Fixpoint duplicated (l : list string) : list bool :=
  match l with
  | [] => []
  | s :: l => bool_decide (s ∈ l) :: duplicated l
  end.

Definition check_rsid (rsids : list string) : result unit :=
  if existsb id ((λ s, bool_decide (s = ".")) <$> rsids)
  then Raise (ValueError "Some SNP identifiers are set to . (a dot).")
  else if existsb id (duplicated rsids)
  then Raise (ValueError "Duplicated SNP identifiers.")
  else Ok tt.

Definition check_pvalue (P : list float) : result unit :=
  if existsb id (F.is_nan <$> P)
  then Raise (ValueError "Missing P-values")
  else if F.gtb (series_max P) F.one
  then Raise (ValueError "P-values cannot be > 1.")
  else if F.leb (series_min P) F.zero
  then Raise (ValueError "P values cannot be <= 0")
  else Ok tt.

Definition check_chisq (chisq : list float) : result unit :=
  if existsb id (F.is_nan <$> chisq)
  then Raise (ValueError "Missing chi-square statistics.")
  else if F.eqb (series_max chisq) F.inf
  then Raise (ValueError "Infinite chi-square statistics.")
  else if F.ltb (series_min chisq) F.zero
  then Raise (ValueError "Negative chi-square statistics")
  else Ok tt.

Definition check_maf (maf : list float) : result unit :=
  if existsb id (F.is_nan <$> maf)
  then Raise (ValueError "Missing values in MAF.")
  else if F.geb (series_max maf) F.one
  then Raise (ValueError "MAF >= 1.")
  else if F.leb (series_min maf) F.zero
  then Raise (ValueError "MAF <= 0.")
  else Ok tt.

Definition check_N (N : list Z) : result unit :=
  match series_min_int N with
  | Some m => if m <? 0 then Raise (ValueError "Negative N.") else Ok tt
  | None => Ok tt
  end.

(** ** Reading a table *)

Inductive dtype : Type := DStr | DInt | DFloat.

(** A whitespace-delimited file with a header line: the header names and the
    column of values below each.  A column is given at the type its text
    reads at. *)
Abbreviation file := frame.

Abbreviation filesystem := (string → option file).

Definition open (fs : filesystem) (fname : string) : result file :=
  match fs fname with
  | Some f => Ok f
  | None => Raise (IOError fname)
  end.

(** pandas renames the k-th repetition of a header name [X] to [X.k]. *)
Fixpoint mangle_dupe_cols (seen : list string) (f : file) : frame :=
  match f with
  | [] => []
  | (n, c) :: f =>
      let k := length (filter (λ m, m = n) seen) in
      (match k with O => n | _ => n +:+ "." +:+ pretty k end, c)
        :: mangle_dupe_cols (n :: seen) f
  end.

(** Conversion of a column to the dtype asked for; text that does not read
    at that dtype makes [read_csv] raise. *)
Definition coerce (d : dtype) (c : column) : result column :=
  match d, c with
  | DStr, CStr _ => Ok c
  | DInt, CInt _ => Ok c
  | DFloat, CFloat _ => Ok c
  | DFloat, CInt l => Ok (CFloat (F.of_Z <$> l))
  | _, _ => Raise (ValueError "could not convert column to the requested dtype")
  end.

(** [pd.read_csv(fh, header=0, delim_whitespace=True, usecols=..., dtype=...)]:
    the selected columns, in file order. *)
Definition read_csv (f : file) (usecols : option (list string))
    (dtype_dict : gmap string dtype) : result frame :=
  let x := mangle_dupe_cols [] f in
  let x := match usecols with
           | Some u => filter (λ nc, nc.1 ∈ u) x
           | None => x
           end in
  mapM (λ nc, match dtype_dict !! nc.1 with
              | Some d => c ← coerce d nc.2; Ok (nc.1, c)
              | None => Ok nc
              end) x.

(** A [for] loop over a list whose body may raise. *)
Fixpoint for_each {A S} (l : list A) (body : S → A → result S) (s : S)
    : result S :=
  match l with
  | [] => Ok s
  | a :: l => s' ← body s a; for_each l body s'
  end.

(** ** Parsers *)

Section Parsers.

(** [scipy.special.chdtri(v, p)]: the chi-square value whose upper tail
    probability, at [v] degrees of freedom, is [p]. *)
Variable chdtri : float → float → float.

Definition chisq_dtype_dict : gmap string dtype :=
  list_to_map
    [("CHR", DStr); ("SNP", DStr); ("CM", DFloat); ("BP", DInt);
     ("P", DFloat); ("CHISQ", DFloat); ("N", DInt); ("MAF", DFloat);
     ("INFO", DFloat)].

Definition chisq (fs : filesystem) (fh : string) : result frame :=
  f ← open fs fh;
  let colnames := columns f in
  let usecols := ["SNP"; "P"; "CHISQ"; "N"; "MAF"; "INFO"] in
  let usecols := filter (λ c, c ∈ colnames) usecols in
  x ← read_csv f (Some usecols) chisq_dtype_dict;
  n ← get_int x "N";
  check_N n;;
  let x := setitem x "N" (CFloat (F.of_Z <$> n)) in
  snp ← get_str x "SNP";
  check_rsid snp;;
  x ← (if decide ("MAF" ∈ columns x) then
         maf ← get_float x "MAF";
         check_maf maf;;
         Ok (setitem x "MAF"
               (CFloat (zip_with np_fmin maf (F.sub F.one <$> maf))))
       else Ok x);
  if decide ("P" ∈ columns x) then
    p ← get_float x "P";
    check_pvalue p;;
    let x := setitem x "P" (CFloat (chdtri F.one <$> p)) in
    Ok (rename "P" "CHISQ" x)
  else if decide ("CHISQ" ∈ columns x) then
    c ← get_float x "CHISQ";
    check_chisq c;;
    Ok x
  else
    Raise (ValueError
             ".chisq file must have a column labeled either P or CHISQ.").

Definition betaprod_dtype_dict : gmap string dtype :=
  list_to_map
    [("CHR", DStr); ("SNP", DStr); ("CM", DFloat); ("BP", DInt);
     ("P1", DFloat); ("CHISQ1", DFloat); ("DIR1", DInt); ("N1", DInt);
     ("P2", DFloat); ("CHISQ2", DFloat); ("DIR2", DInt); ("N2", DInt);
     ("INFO1", DFloat); ("INFO2", DFloat); ("MAF1", DFloat);
     ("MAF2", DFloat)].

(** [np.sqrt(chisq / n) * dir], elementwise. *)
Definition betahat (chisq n : list float) (dir : list Z) : list float :=
  zip_with F.mul (F.sqrt <$> zip_with F.div chisq n) (F.of_Z <$> dir).

(** The body of the loop [for i in ['1','2']] of [betaprod].  The last
    statement is [x[MAF] = np.min(x[MAF], 1-x[MAF])]: [np.min] takes an
    array and an axis, so the second Series is passed as the axis; the
    Series reduction ignores it and returns the scalar minimum of the first,
    which the assignment then writes to every row. *)
Definition betaprod_body (x : frame) (i : string) : result frame :=
  let N := "N" +:+ i in
  let P := "P" +:+ i in
  let CHISQ := "CHISQ" +:+ i in
  let DIR := "DIR" +:+ i in
  let MAF := "MAF" +:+ i in
  let BETAHAT := "BETAHAT" +:+ i in
  n ← get_int x N;
  check_N n;;
  let x := setitem x N (CFloat (F.of_Z <$> n)) in
  dir ← get_int x DIR;
  check_dir dir;;
  x ← (if decide (CHISQ ∈ columns x) then
         c ← get_float x CHISQ;
         check_chisq c;;
         n ← get_float x N;
         dir ← get_int x DIR;
         let x := setitem x CHISQ (CFloat (betahat c n dir)) in
         Ok (rename CHISQ BETAHAT x)
       else if decide (P ∈ columns x) then
         p ← get_float x P;
         check_pvalue p;;
         n ← get_float x N;
         dir ← get_int x DIR;
         let x := setitem x P (CFloat (betahat (chdtri F.one <$> p) n dir)) in
         Ok (rename P BETAHAT x)
       else
         Raise (ValueError ("No column named P" +:+ i +:+ " or CHISQ"
                              +:+ i +:+ " in betaprod.")));
  x ← delitem x DIR;
  if decide (MAF ∈ columns x) then
    maf ← get_float x MAF;
    check_maf maf;;
    Ok (setitem x MAF (CFloat (replicate (nrows x) (series_min maf))))
  else Ok x.

Definition betaprod_usecols : list string :=
  (i ← ["1"; "2"];
   x ← ["DIR"; "P"; "CHISQ"; "N"; "MAF"; "INFO"];
   [x +:+ i]) ++ ["SNP"].

Definition betaprod (fs : filesystem) (fh : string) : result frame :=
  f ← open fs fh;
  let colnames := columns f in
  let usecols := filter (λ c, c ∈ colnames) betaprod_usecols in
  x ← read_csv f (Some usecols) betaprod_dtype_dict;
  snp ← get_str x "SNP";
  check_rsid snp;;
  for_each ["1"; "2"] betaprod_body x.

End Parsers.

(** ** LD Score files *)

Section LDScore.

(** [pd.concat(frames)]: the frames stacked by rows. *)
Variable pd_concat : list frame → result frame.

(** Python's [float(s)] on a string; [None] when it raises. *)
Variable float_of_string : string → option float.

Definition cell_astype_float (v : cell) : option float :=
  match v with
  | VStr s => float_of_string s
  | VInt z => Some (F.of_Z z)
  | VFloat f => Some f
  | VBool b => Some (if b then F.one else F.zero)
  end.

(** [c.astype(float)]. *)
Definition astype_float (c : column) : result column :=
  match mapM cell_astype_float (cells c) with
  | Some l => Ok (CFloat l)
  | None => Raise (ValueError "could not convert string to float")
  end.

Definition parsefunc (fs : filesystem) (y : string) : result frame :=
  f ← open fs y;
  x ← read_csv f None ∅;
  df_drop ["CHR"; "BP"; "CM"; "MAF"] x.

Definition ldscore (fs : filesystem) (fh : string) (num : option Z)
    : result frame :=
  x ← match num with
      | Some num =>
          chr_ld ← mapM (λ i, parsefunc fs (fh +:+ pretty i +:+ ".l2.ldscore"))
                        (seqZ 1 num);
          pd_concat chr_ld
      | None => parsefunc fs (fh +:+ ".l2.ldscore")
      end;
  snp ← get_str x "SNP";
  let ii := (λ s, negb (bool_decide (s = "."))) <$> snp in
  let x := mask_rows ii x in
  snp ← get_str x "SNP";
  check_rsid snp;;
  rest ← mapM (λ nc, c ← astype_float nc.2; Ok (nc.1, c)) (drop 1 x);
  Ok (take 1 x ++ rest).

End LDScore.

(** ** Identifier lists *)

(** DataFrames are objects: a store maps object identities to their current
    contents. *)
Abbreviation loc := positive.

Definition st (A : Type) : Type := gmap loc frame → result A * gmap loc frame.

Global Instance st_ret : MRet st := λ A a σ, (Ok a, σ).
Global Instance st_bind : MBind st :=
  λ A B f m σ, match m σ with
               | (Ok a, σ') => f a σ'
               | (Raise e, σ') => (Raise e, σ')
               end.

Definition lift {A} (r : result A) : st A := λ σ, (r, σ).

Definition df_read (ℓ : loc) : st frame :=
  λ σ, match σ !! ℓ with
       | Some x => (Ok x, σ)
       | None => (Raise (ValueError "no such object"), σ)
       end.

Definition df_new (x : frame) : st loc :=
  λ σ, let ℓ := fresh (dom σ) in (Ok ℓ, <[ℓ := x]> σ).

Definition df_write (ℓ : loc) (x : frame) : st unit :=
  λ σ, (Ok tt, <[ℓ := x]> σ).

(** Python indexing of a sequence of length [n], negative indices counting
    from the end. *)
Definition py_index (n : nat) (i : Z) : option nat :=
  if decide (0 ≤ i < Z.of_nat n) then Some (Z.to_nat i)
  else if decide (- Z.of_nat n ≤ i < 0) then Some (Z.to_nat (Z.of_nat n + i))
  else None.

(** [df.iloc[:, [i]]]: a new DataFrame holding a copy of one column. *)
Definition df_iloc_col (ℓ : loc) (i : Z) : st loc :=
  x ← df_read ℓ;
  match py_index (length x) i ≫= (x !!.) with
  | Some nc => df_new [nc]
  | None => lift (Raise (IndexError "positional indexers are out-of-bounds"))
  end.

(** [df[name] = True]: the scalar is written to every row. *)
Definition df_setitem_true (ℓ : loc) (name : string) : st unit :=
  x ← df_read ℓ;
  df_write ℓ (setitem x name (CBool (replicate (nrows x) true))).

(** Equality of join keys. *)
Definition key_match (a b : cell) : bool :=
  match a, b with
  | VStr s, VStr t => bool_decide (s = t)
  | VInt x, VInt y => x =? y
  | VBool x, VBool y => bool_decide (x = y)
  | VFloat x, VFloat y => F.eqb x y || (F.is_nan x && F.is_nan y)
  | VInt x, VFloat y | VFloat y, VInt x => F.eqb (F.of_Z x) y
  | VBool x, VInt y | VInt y, VBool x => y =? (if x then 1 else 0)
  | VBool x, VFloat y | VFloat y, VBool x =>
      F.eqb y (if x then F.one else F.zero)
  | _, _ => false
  end.

(** Positions of the true entries ([np.nonzero(ii)[0]]). *)
Fixpoint nonzero_from (i : nat) (ii : list bool) : list nat :=
  match ii with
  | [] => []
  | b :: ii => if b then i :: nonzero_from (S i) ii else nonzero_from (S i) ii
  end.

Definition nonzero (ii : list bool) : list nat := nonzero_from 0 ii.

(** The row pairs of a left join: every left row in order, once per
    matching right row, or once with no partner. *)
Definition left_join_rows (lk rk : list cell) : list (nat * option nat) :=
  mjoin (imap (λ i a,
    match nonzero (key_match a <$> rk) with
    | [] => [(i, None)]
    | js => (λ j, (i, Some j)) <$> js
    end) lk).

Definition take_list {A} (idx : list nat) (l : list A) : list A :=
  omap (l !!.) idx.

Definition take_col (idx : list nat) (c : column) : column :=
  match c with
  | CStr l => CStr (take_list idx l)
  | CInt l => CInt (take_list idx l)
  | CFloat l => CFloat (take_list idx l)
  | CBool l => CBool (take_list idx l)
  | CObj l => CObj (take_list idx l)
  end.

(** Rows of the right side; a missing partner gives NaN. *)
Definition take_col_na (idx : list (option nat)) (c : column) : column :=
  CObj ((λ o, default (VFloat F.nan) (o ≫= (cells c !!.))) <$> idx).

(** [pd.merge(left, right, how='left', left_on=l, right_on=r, sort=False)]:
    a key of the same name on both sides is kept once; other labels present
    on both sides get the suffixes [_x] and [_y]. *)
Definition pd_merge_left (left right : frame) (l r : string) : result frame :=
  lk ← getitem left l;
  rk ← getitem right r;
  let rows := left_join_rows (cells lk) (cells rk) in
  let right := if decide (l = r) then filter (λ nc, nc.1 ≠ r) right else right in
  let suffix (sfx : string) (other : frame) (nc : string * column) :=
    if decide (nc.1 ∈ columns other) then nc.1 +:+ sfx else nc.1 in
  Ok (((λ nc, (suffix "_x" right nc, take_col rows.*1 nc.2)) <$> left)
      ++ ((λ nc, (suffix "_y" left nc, take_col_na rows.*2 nc.2)) <$> right)).

Definition df_merge_left (left right : loc) (l r : string) : st loc :=
  x ← df_read left;
  y ← df_read right;
  z ← lift (pd_merge_left x y l r);
  df_new z.

(** [s == True] on a value. *)
Definition cell_eq_True (v : cell) : bool := key_match v (VBool true).

Inductive header_arg : Type := HeaderNone | HeaderFirstLine.

Definition ends_with (s sfx : string) : bool :=
  bool_decide (String.length sfx ≤ String.length s)%nat
  && bool_decide (String.substring (String.length s - String.length sfx)
                                   (String.length sfx) s = sfx).

(** Python truthiness of the optional arguments of the factory. *)
Definition truthy_str (s : option string) : option string :=
  match s with Some "" | None => None | Some s => Some s end.

Definition truthy_list {A} (l : option (list A)) : option (list A) :=
  match l with Some [] | None => None | Some l => Some l end.

Module IDContainer.

(** The arguments of [__ID_List_Factory__]. *)
Record factory : Type := Factory {
  colnames : option (list string);
  keepcol : Z;
  fname_end : option string;
  header : header_arg;
  usecols : option (list nat)
}.

(** An instance: the identities of its DataFrames [df] and [IDList], and
    [n]. *)
Record t : Type := Make {
  cls : factory;
  df : loc;
  IDList : loc;
  n : nat
}.

(** [pd.read_csv(fname, header=..., usecols=..., delim_whitespace=True)]
    with positional [usecols]; without a header line the columns are
    labelled by their position. *)
Definition read_csv_pos (f : file) (hd : header_arg)
    (usecols : option (list nat)) : result frame :=
  let x := match hd with
           | HeaderFirstLine => mangle_dupe_cols [] f
           | HeaderNone => imap (λ i nc, (pretty i, nc.2)) f
           end in
  match usecols with
  | None => Ok x
  | Some u =>
      if decide (Forall (λ i, i < length x)%nat u)
      then Ok ((filter (λ inc, inc.1 ∈ u) (imap (λ i nc, (i, nc)) x)).*2)
      else Raise (ValueError "usecols out of bounds")
  end.

(** [df.columns = names]. *)
Definition set_columns (x : frame) (names : list string) : result frame :=
  if decide (length names = length x)
  then Ok (zip_with (λ nm nc, (nm, nc.2)) names x)
  else Raise (ValueError "Length mismatch").

Definition __read__ (c : factory) (fs : filesystem) (fname : string)
    : st (loc * loc) :=
  (match truthy_str (fname_end c) with
   | Some e =>
       if ends_with fname e then mret tt
       else lift (Raise (ValueError (e +:+ " filename must end in " +:+ e)))
   | None => mret tt
   end);;
  f ← lift (open fs fname);
  x ← lift (read_csv_pos f (header c) (usecols c));
  x ← lift (match truthy_list (colnames c) with
            | Some names => set_columns x names
            | None => Ok x
            end);
  df ← df_new x;
  IDList ← df_iloc_col df (keepcol c);
  mret (df, IDList).

Definition __init__ (c : factory) (fs : filesystem) (fname : string)
    : st t :=
  '(df, IDList) ← __read__ c fs fname;
  (match colnames c with
   | None =>
       lift (Raise (TypeError "argument of type 'NoneType' is not iterable"))
   | Some names =>
       if decide ("SNP" ∈ names) then
         x ← df_read df;
         lift (snp ← get_str x "SNP"; check_rsid snp)
       else mret tt
   end);;
  ids ← df_read IDList;
  mret (Make c df IDList (nrows ids)).

(** [loj]: indices of the elements of [self.IDList] that appear in
    [externalDf]. *)
Definition loj (self : t) (externalDf : loc) : st (list nat) :=
  ext ← df_read externalDf;
  r ← lift (match columns ext !! 0%nat with
            | Some r => Ok r
            | None => Raise (IndexError "index out of bounds")
            end);
  ids ← df_read (IDList self);
  l ← lift (match columns ids !! 0%nat with
            | Some l => Ok l
            | None => Raise (IndexError "index out of bounds")
            end);
  merge_df ← df_iloc_col externalDf 0;
  df_setitem_true merge_df "keep";;
  z ← df_merge_left (IDList self) merge_df l r;
  zf ← df_read z;
  keep ← lift (getitem zf "keep");
  let ii := cell_eq_True <$> cells keep in
  mret (nonzero ii).

End IDContainer.

Definition PlinkBIMFile : IDContainer.factory :=
  IDContainer.Factory (Some ["CHR"; "SNP"; "CM"; "BP"]) 1 (Some ".bim")
    HeaderNone (Some [0; 1; 2; 3]%nat).
Definition VcfSNPFile : IDContainer.factory :=
  IDContainer.Factory (Some ["CHR"; "BP"; "SNP"; "CM"]) 2 (Some ".snp")
    HeaderNone (Some [0; 1; 2; 3]%nat).
Definition PlinkFAMFile : IDContainer.factory :=
  IDContainer.Factory (Some ["IID"]) 0 (Some ".fam") HeaderNone (Some [1%nat]).
Definition VcfINDFile : IDContainer.factory :=
  IDContainer.Factory (Some ["IID"]) 0 (Some ".ind") HeaderNone (Some [0%nat]).
Definition FilterFile : IDContainer.factory :=
  IDContainer.Factory (Some ["ID"]) 0 None HeaderNone (Some [0%nat]).
Definition AnnotFile : IDContainer.factory :=
  IDContainer.Factory None 2 (Some ".annot") HeaderFirstLine None.

(** ** Filtering rows *)

(** What [df[name]] gives: a Series when one column has the label, the
    DataFrame of the columns with that label when several have it. *)
Inductive selection : Type :=
  | Series (c : column)
  | DataFrame (x : frame).

Definition getitem_label (df : frame) (name : string) : result selection :=
  match filter (λ nc, nc.1 = name) df with
  | [] => Raise (KeyError name)
  | [nc] => Ok (Series nc.2)
  | sub => Ok (DataFrame sub)
  end.

(** What a predicate returns, used as the key of [df[key]]: a boolean mask
    with an entry for each row, or a boolean DataFrame. *)
Inductive index_key : Type :=
  | Mask (mask : list bool)
  | FrameKey (b : frame).

Section FilterDF.

(** [df[b]] for a boolean DataFrame [b], which is pandas' own. *)
Variable getitem_frame_key : frame → frame → result frame.

(** [df[key]]: a mask selects the rows where it is true, and needs one
    entry for each row. *)
Definition getitem_key (df : frame) (k : index_key) : result frame :=
  match k with
  | Mask mask =>
      if decide (length mask = nrows df) then Ok (mask_rows mask df)
      else Raise (ValueError "Item wrong length")
  | FrameKey b => getitem_frame_key df b
  end.

(** [filter_df(df, colname, pred)]: [pred] is applied to [df[colname]], and
    [df] is indexed by what it returns. *)
Definition filter_df (df : frame) (colname : string)
    (pred : selection → result index_key) : result frame :=
  if decide (colname ∈ columns df) then
    s ← getitem_label df colname;
    k ← pred s;
    getitem_key df k
  else
    Raise (ValueError ("Cannot find a column named " +:+ colname +:+ ".")).

End FilterDF.

(** ** Counts of SNPs *)

(** The whitespace-separated words of the first line of each text file. *)
Abbreviation first_lines := (string → option (list string)).

Section MFile.

(** Python's [float(s)] on a string; [None] when it raises. *)
Variable float_of_string : string → option float.

(** [np.sum(rows, axis=0)], with its own type of results. *)
Variable ndarray : Type.
Variable np_sum_axis0 : list (list float) → result ndarray.

(** The [parsefunc] of [M]: the numbers of the first line of a file. *)
Definition M_parsefunc (fs : first_lines) (y : string) : result (list float) :=
  match fs y with
  | None => Raise (IOError y)
  | Some words =>
      match mapM float_of_string words with
      | Some x => Ok x
      | None => Raise (ValueError "could not convert string to float")
      end
  end.

(** [M(fh, num)]: a Python list of floats for a single file, the sum over
    the chromosomes of the rows otherwise. *)
Definition M (fs : first_lines) (fh : string) (num : option Z)
    : result (list float + ndarray) :=
  match num with
  | Some num =>
      rows ← mapM (λ i, M_parsefunc fs (fh +:+ pretty i +:+ ".l2.M"))
                  (seqZ 1 num);
      x ← np_sum_axis0 rows;
      Ok (inr x)
  | None =>
      x ← M_parsefunc fs (fh +:+ ".l2.M");
      Ok (inl x)
  end.

End MFile.

(** * Vocabulary of the statements *)

(** A Series without NaN. *)
Definition no_nan (l : list float) : Prop :=
  Forall (λ v, F.is_nan v = false) l.

(** A valid p-value lies in the half-open interval (0, 1]. *)
Definition in_unit_interval (p : float) : Prop :=
  F.ltb F.zero p = true ∧ F.leb p F.one = true.

(** What [check_pvalue] rejects. *)
Definition bad_pvalue (p : float) : Prop :=
  F.is_nan p = true ∨ F.gtb p F.one = true ∨ F.leb p F.zero = true.

(** [check_maf]: a valid frequency lies in the open interval (0, 1). *)
Definition in_open_unit_interval (m : float) : Prop :=
  F.ltb F.zero m = true ∧ F.ltb m F.one = true.

(** A direction of effect. *)
Definition valid_dir (d : Z) : Prop := d = 1 ∨ d = -1.

(** Whether a label contains a dot, as the labels made by
    [mangle_dupe_cols] do. *)
Fixpoint has_dot (s : string) : bool :=
  match s with
  | EmptyString => false
  | String a s => bool_decide (a = "."%char) || has_dot s
  end.

(** What [read_csv] does to the column labelled [m]. *)
Definition coerce_by (d : gmap string dtype) (m : string) (c : column)
    : result column :=
  match d !! m with
  | Some dt => coerce dt c
  | None => Ok c
  end.

(** The column [m] of a file, read at a given dtype. *)
Definition file_float (f : file) (m : string) : result (list float) :=
  c ← getitem f m ≫= coerce DFloat;
  match c with
  | CFloat l => Ok l
  | _ => Raise (TypeError "not a float column")
  end.

Definition file_int (f : file) (m : string) : result (list Z) :=
  c ← getitem f m ≫= coerce DInt;
  match c with
  | CInt l => Ok l
  | _ => Raise (TypeError "not an integer column")
  end.

Definition file_str (f : file) (m : string) : result (list string) :=
  c ← getitem f m ≫= coerce DStr;
  match c with
  | CStr l => Ok l
  | _ => Raise (TypeError "invalid type comparison")
  end.



Section ChisqSteps.

Variable chdtri : float → float → float.

(** The statements of [chisq] after the file is read: the fold of MAF, the
    choice between P and CHISQ, and the whole. *)
Definition chisq_fold_maf (x : frame) : result frame :=
  if decide ("MAF" ∈ columns x) then
    maf ← get_float x "MAF";
    check_maf maf;;
    Ok (setitem x "MAF" (CFloat (zip_with np_fmin maf (F.sub F.one <$> maf))))
  else Ok x.

Definition chisq_statistic (x : frame) : result frame :=
  if decide ("P" ∈ columns x) then
    p ← get_float x "P";
    check_pvalue p;;
    let x := setitem x "P" (CFloat (chdtri F.one <$> p)) in
    Ok (rename "P" "CHISQ" x)
  else if decide ("CHISQ" ∈ columns x) then
    c ← get_float x "CHISQ";
    check_chisq c;;
    Ok x
  else
    Raise (ValueError
             ".chisq file must have a column labeled either P or CHISQ.").

Definition chisq_frame (x : frame) : result frame :=
  n ← get_int x "N";
  check_N n;;
  let x := setitem x "N" (CFloat (F.of_Z <$> n)) in
  snp ← get_str x "SNP";
  check_rsid snp;;
  x ← chisq_fold_maf x;
  chisq_statistic x.

End ChisqSteps.

Definition chisq_usecols : list string :=
  ["SNP"; "P"; "CHISQ"; "N"; "MAF"; "INFO"].

(** The table [ldscore] reads: one file, or the files of the chromosomes
    1, ..., num, concatenated. *)
Definition ldscore_read (pd_concat : list frame → result frame)
    (fs : filesystem) (fh : string) (num : option Z) : result frame :=
  match num with
  | Some num =>
      chr_ld ← mapM (λ i, parsefunc fs (fh +:+ pretty i +:+ ".l2.ldscore"))
                    (seqZ 1 num);
      pd_concat chr_ld
  | None => parsefunc fs (fh +:+ ".l2.ldscore")
  end.

(** The mask [x['SNP'] != '.']. *)
Definition not_dot_mask (snp : list string) : list bool :=
  (λ s, negb (bool_decide (s = "."))) <$> snp.

(** The computation [m] leaves the objects of the store [σ0] as they are,
    whether it returns or raises, and a value it returns satisfies [Q]. *)
Definition keeps (σ0 : gmap loc frame) {A} (m : st A) (Q : A → Prop)
    : Prop :=
  ∀ σ, σ0 ⊆ σ → σ0 ⊆ (m σ).2 ∧ ∀ a, (m σ).1 = Ok a → Q a.

(** Whether a row of the merged frame has [keep == True]. *)
Definition kept (n : nat) (o : option nat) : bool :=
  cell_eq_True
    (default (VFloat F.nan) (o ≫= (cells (CBool (replicate n true)) !!.))).

(** A valid chi-square statistic is a number in [0, inf). *)
Definition finite_nonneg (v : float) : Prop :=
  F.leb F.zero v = true ∧ F.ltb v F.inf = true.

(** What [check_chisq] rejects. *)
Definition bad_chisq (v : float) : Prop :=
  F.is_nan v = true ∨ F.eqb v F.inf = true ∨ F.ltb v F.zero = true.

(** A predicate that tests each value by itself, as the comparison with a
    scalar does: of a Series it gives the mask of its values, of a DataFrame
    the boolean DataFrame with the same labels. *)
Definition elementwise (p : cell → bool) (s : selection) : result index_key :=
  match s with
  | Series c => Ok (Mask (p <$> cells c))
  | DataFrame x =>
      Ok (FrameKey ((λ nc, (nc.1, CBool (p <$> cells nc.2))) <$> x))
  end.

(** The number of true entries of a mask. *)
Definition count_true (mask : list bool) : nat :=
  length (filter (λ b, b = true) mask).

(** * Examples *)

Module Ex.

(** An instance of [chdtri] for the examples: the chi-square value with
    upper tail probability 1 is 0; other arguments are not tabulated. *)
Definition chdtri (v p : float) : float :=
  if F.eqb p F.one then F.zero else F.nan.

Definition eighth : float := Eval cbv in F.dyadic 1 (-3).
Definition quarter : float := Eval cbv in F.dyadic 1 (-2).
Definition three_quarters : float := Eval cbv in F.dyadic 3 (-2).
Definition four : float := Eval cbv in F.of_Z 4.

(** A [.chisq] file with a P column. *)
Definition chisq_file : file :=
  [("SNP", CStr ["rs1"; "rs2"]);
   ("N", CInt [100; 250]);
   ("P", CFloat [F.one; F.one])].

Definition chisq_fs : filesystem :=
  λ name, if decide (name = "trait.chisq") then Some chisq_file else None.




(** A [.betaprod] file: the first phenotype has CHISQ1 and a P1 column of
    invalid p-values, and a sample size 0 in its second row; the second
    phenotype has P2 only. *)
Definition betaprod_file : file :=
  [("SNP", CStr ["rs1"; "rs2"]);
   ("N1", CInt [100; 0]);
   ("DIR1", CInt [1; -1]);
   ("CHISQ1", CFloat [four; four]);
   ("P1", CFloat [F.nan; F.zero]);
   ("N2", CInt [100; 250]);
   ("DIR2", CInt [-1; 1]);
   ("P2", CFloat [F.one; F.one])].

Definition betaprod_fs : filesystem :=
  λ name, if decide (name = "pair.betaprod") then Some betaprod_file else None.

Definition betaprod_table : frame :=
  Eval vm_compute in
    match betaprod chdtri betaprod_fs "pair.betaprod" with
    | Ok t => t
    | Raise _ => []
    end.

(** An instance of [pd.concat] for the examples: frames with the same
    labels in the same order, stacked. *)
Definition append_col (a b : column) : column :=
  match a, b with
  | CStr l, CStr l' => CStr (l ++ l')
  | CInt l, CInt l' => CInt (l ++ l')
  | CFloat l, CFloat l' => CFloat (l ++ l')
  | CBool l, CBool l' => CBool (l ++ l')
  | _, _ => CObj (cells a ++ cells b)
  end.

Definition pd_concat (frames : list frame) : result frame :=
  match frames with
  | [] => Raise (ValueError "No objects to concatenate")
  | x :: rest =>
      Ok (foldl (zip_with (λ a b, (a.1, append_col a.2 b.2))) x rest)
  end.

(** An instance of [float(s)] for the examples, whose strings are
    identifiers: none reads as a number. *)
Definition float_of_string (s : string) : option float := None.

(** An [.l2.ldscore] file with a row whose identifier is a dot. *)
Definition ld_file : file :=
  [("CHR", CInt [1; 1; 1]);
   ("SNP", CStr ["rs1"; "."; "rs2"]);
   ("BP", CInt [1000; 2000; 3000]);
   ("CM", CFloat [F.zero; F.zero; F.zero]);
   ("MAF", CFloat [quarter; quarter; eighth]);
   ("L2", CFloat [F.one; four; four])].

Definition ld_fs : filesystem :=
  λ name, if decide (name = "ref.l2.ldscore") then Some ld_file else None.

(** The same table as the file of chromosome 1 of a split reference; there
    is no file for chromosome 2. *)
Definition ld_chunk_fs : filesystem :=
  λ name, if decide (name = "ref1.l2.ldscore") then Some ld_file else None.

(** An instance of [float(s)] that reads the numbers of the examples. *)
Definition float_of_digits (s : string) : option float :=
  if decide (s = "1") then Some F.one
  else if decide (s = "4") then Some four
  else None.

(** An instance of [np.sum(rows, axis=0)] for rows of the same length. *)
Definition np_sum_axis0 (rows : list (list float)) : result (list float) :=
  match rows with
  | [] => Ok []
  | r :: rest => Ok (foldl (zip_with (SFadd F.prec F.emax)) r rest)
  end.

(** The first line of the [.l2.M] file of chromosome 1; there is no file
    for chromosome 2. *)
Definition m_lines : first_lines :=
  λ name, if decide (name = "ref1.l2.M") then Some ["1"; "4"] else None.

(** An instance of [df[b]] for a boolean DataFrame [b] with a repeated
    label. *)
Definition getitem_frame_key (df b : frame) : result frame :=
  Raise (ValueError "cannot reindex from a duplicate axis").

(** A [.bim] file (no header line) and the container read from it. *)
Definition bim_file : file :=
  [("0", CInt [1; 1]);
   ("1", CStr ["rs1"; "rs2"]);
   ("2", CFloat [F.zero; F.zero]);
   ("3", CInt [1000; 2000])].

Definition bim_fs : filesystem :=
  λ name, if decide (name = "ref.bim") then Some bim_file else None.

Definition bim_init : result IDContainer.t * gmap loc frame :=
  IDContainer.__init__ PlinkBIMFile bim_fs "ref.bim" ∅.

Definition bim : IDContainer.t := IDContainer.Make PlinkBIMFile 1 2 2.

(** [loj] of that container with a new DataFrame [ext]. *)
Definition bim_loj (ext : frame) : result (list nat) :=
  ((ℓ ← df_new ext; IDContainer.loj bim ℓ) bim_init.2).1.

(** A [.chisq] file whose INFO column holds a NaN and a negative value. *)
Definition info_chisq_file : file :=
  [("CHR", CInt [1; 1]);
   ("SNP", CStr ["rs1"; "rs2"]);
   ("N", CInt [100; 250]);
   ("INFO", CFloat [F.nan; F.of_Z (-1)]);
   ("CHISQ", CFloat [four; four])].

Definition info_chisq_fs : filesystem :=
  λ name, if decide (name = "info.chisq") then Some info_chisq_file else None.

Definition info_chisq_table : frame :=
  Eval vm_compute in
    match chisq chdtri info_chisq_fs "info.chisq" with
    | Ok t => t
    | Raise _ => []
    end.

(** Files with a MAF column holding 1/8 and 3/4. *)
Definition maf_chisq_file : file :=
  [("SNP", CStr ["rs1"; "rs2"]);
   ("N", CInt [100; 250]);
   ("MAF", CFloat [eighth; three_quarters]);
   ("CHISQ", CFloat [four; four])].

Definition maf_chisq_fs : filesystem :=
  λ name, if decide (name = "maf.chisq") then Some maf_chisq_file else None.

Definition maf_betaprod_file : file :=
  [("SNP", CStr ["rs1"; "rs2"]);
   ("N1", CInt [100; 250]);
   ("DIR1", CInt [1; -1]);
   ("CHISQ1", CFloat [four; four]);
   ("MAF1", CFloat [eighth; three_quarters]);
   ("N2", CInt [100; 250]);
   ("DIR2", CInt [-1; 1]);
   ("CHISQ2", CFloat [four; four])].

Definition maf_betaprod_fs : filesystem :=
  λ name, if decide (name = "maf.betaprod") then Some maf_betaprod_file
          else None.

Definition maf_betaprod_table : frame :=
  Eval vm_compute in
    match betaprod chdtri maf_betaprod_fs "maf.betaprod" with
    | Ok t => t
    | Raise _ => []
    end.

End Ex.

(** * Properties *)

(** ** The order of float64 *)

Ltac cmp_cases :=
  repeat match goal with
  | H : context [Pos.compare_cont Eq ?a ?b] |- _ =>
      change (Pos.compare_cont Eq a b) with (Pos.compare a b) in H
  | |- context [Pos.compare_cont Eq ?a ?b] =>
      change (Pos.compare_cont Eq a b) with (Pos.compare a b)
  end;
  repeat match goal with
  | H : context [Z.compare ?a ?b] |- _ =>
      destruct (Z.compare_spec a b); simpl in H
  | |- context [Z.compare ?a ?b] => destruct (Z.compare_spec a b); simpl
  | H : context [Pos.compare ?a ?b] |- _ =>
      destruct (Pos.compare_spec a b); simpl in H
  | |- context [Pos.compare ?a ?b] => destruct (Pos.compare_spec a b); simpl
  end; try discriminate; try reflexivity; try lia.

Ltac float_cases a := destruct a as [[]|[]| |[] ? ?].

Section FloatOrder.

Implicit Types a b c : float.

Lemma ltb_leb_trans a b c :
  F.ltb a b = true → F.leb b c = true → F.ltb a c = true.
Proof.
  unfold F.ltb, F.leb, SFltb, SFleb.
  float_cases a; float_cases b; float_cases c; simpl;
    intros H1 H2; try discriminate; try reflexivity; cmp_cases.
Qed.

Lemma leb_ltb_trans a b c :
  F.leb a b = true → F.ltb b c = true → F.ltb a c = true.
Proof.
  unfold F.ltb, F.leb, SFltb, SFleb.
  float_cases a; float_cases b; float_cases c; simpl;
    intros H1 H2; try discriminate; try reflexivity; cmp_cases.
Qed.

Lemma leb_trans a b c :
  F.leb a b = true → F.leb b c = true → F.leb a c = true.
Proof.
  unfold F.leb, SFleb.
  float_cases a; float_cases b; float_cases c; simpl;
    intros H1 H2; try discriminate; try reflexivity; cmp_cases.
Qed.

Lemma ltb_leb a b : F.ltb a b = true → F.leb a b = true.
Proof.
  unfold F.ltb, F.leb, SFltb, SFleb.
  destruct (SFcompare a b) as [[]|]; intros; try discriminate; reflexivity.
Qed.

(** On numbers the order is total. *)
Lemma leb_negb_ltb a b :
  F.is_nan a = false → F.is_nan b = false →
  F.leb a b = negb (F.ltb b a).
Proof.
  unfold F.ltb, F.leb, SFltb, SFleb.
  float_cases a; float_cases b; simpl; intros H1 H2;
    try discriminate; try reflexivity; cmp_cases.
Qed.

Lemma ltb_nan_l b : F.ltb F.nan b = false.
Proof. reflexivity. Qed.

Lemma ltb_nan_r a : F.ltb a F.nan = false.
Proof. by destruct a. Qed.

Lemma leb_nan_r a : F.leb a F.nan = false.
Proof. by destruct a. Qed.

Lemma np_maximum_not_nan a b :
  F.is_nan a = false → F.is_nan b = false →
  F.is_nan (np_maximum a b) = false.
Proof. unfold np_maximum. by destruct (_ || _). Qed.

Lemma np_minimum_not_nan a b :
  F.is_nan a = false → F.is_nan b = false →
  F.is_nan (np_minimum a b) = false.
Proof. unfold np_minimum. by destruct (_ || _). Qed.

(** The maximum exceeds [c] exactly when one of the two does. *)
Lemma gtb_np_maximum a b c :
  F.is_nan a = false → F.is_nan b = false →
  F.gtb (np_maximum a b) c = F.gtb a c || F.gtb b c.
Proof.
  intros Ha Hb. unfold np_maximum, F.gtb, F.geb. rewrite Ha, orb_false_r.
  fold (F.ltb c a) (F.ltb c b) (F.leb b a).
  destruct (F.leb b a) eqn:Hba; fold (F.ltb c a) (F.ltb c b).
  - destruct (F.ltb c b) eqn:Hcb; [|by rewrite orb_false_r].
    by rewrite (ltb_leb_trans c b a Hcb Hba).
  - rewrite (leb_negb_ltb b a Hb Ha) in Hba.
    apply negb_false_iff in Hba.
    destruct (F.ltb c a) eqn:Hca; [|done].
    by rewrite (ltb_leb_trans c a b Hca (ltb_leb _ _ Hba)).
Qed.

(** The minimum is at most [c] exactly when one of the two is. *)
Lemma leb_np_minimum a b c :
  F.is_nan a = false → F.is_nan b = false →
  F.leb (np_minimum a b) c = F.leb a c || F.leb b c.
Proof.
  intros Ha Hb. unfold np_minimum. rewrite Ha, orb_false_r.
  destruct (F.leb a b) eqn:Hab.
  - destruct (F.leb b c) eqn:Hbc; [|by rewrite orb_false_r].
    by rewrite (leb_trans a b c Hab Hbc).
  - rewrite (leb_negb_ltb a b Ha Hb) in Hab.
    apply negb_false_iff in Hab.
    destruct (F.leb a c) eqn:Hac; [|done].
    by rewrite (leb_trans b a c (ltb_leb _ _ Hab) Hac).
Qed.

(** The maximum is at least [c] exactly when one of the two is. *)
Lemma geb_np_maximum a b c :
  F.is_nan a = false → F.is_nan b = false →
  F.geb (np_maximum a b) c = F.geb a c || F.geb b c.
Proof.
  intros Ha Hb. unfold np_maximum, F.geb. rewrite Ha, orb_false_r.
  fold (F.leb c a) (F.leb c b) (F.leb b a).
  destruct (F.leb b a) eqn:Hba; fold (F.leb c a) (F.leb c b).
  - destruct (F.leb c b) eqn:Hcb; [|by rewrite orb_false_r].
    by rewrite (leb_trans c b a Hcb Hba).
  - rewrite (leb_negb_ltb b a Hb Ha) in Hba.
    apply negb_false_iff in Hba.
    destruct (F.leb c a) eqn:Hca; [|done].
    by rewrite (leb_trans c a b Hca (ltb_leb _ _ Hba)).
Qed.

End FloatOrder.

(** ** Reductions of a Series without NaN *)

Section Reductions.

Implicit Types l : list float.

Lemma existsb_is_nan_false l :
  existsb id (F.is_nan <$> l) = false ↔ no_nan l.
Proof.
  unfold no_nan. induction l as [|a l IH]; simpl.
  - split; [constructor|done].
  - unfold id at 1. rewrite orb_false_iff, Forall_cons. tauto.
Qed.

Lemma forallb_is_nan_no_nan a l :
  no_nan (a :: l) → forallb F.is_nan (a :: l) = false.
Proof. intros H. apply Forall_cons in H as [H _]. simpl. by rewrite H. Qed.

Lemma fill_no_nan (d : float) l :
  no_nan l → (λ v, if F.is_nan v then d else v) <$> l = l.
Proof.
  induction 1 as [|a l Ha _ IH]; [done|].
  rewrite fmap_cons, Ha. by f_equal.
Qed.

Lemma foldl_np_maximum_not_nan l a :
  F.is_nan a = false → no_nan l → F.is_nan (foldl np_maximum a l) = false.
Proof.
  intros Ha Hl. revert a Ha.
  induction Hl as [|b l Hb _ IH]; intros a Ha; [done|].
  simpl. apply IH. by apply np_maximum_not_nan.
Qed.

Lemma gtb_foldl_np_maximum l a c :
  F.is_nan a = false → no_nan l →
  F.gtb (foldl np_maximum a l) c = F.gtb a c || existsb (λ v, F.gtb v c) l.
Proof.
  intros Ha Hl. revert a Ha.
  induction Hl as [|b l Hb _ IH]; intros a Ha; simpl.
  - by rewrite orb_false_r.
  - rewrite IH by by apply np_maximum_not_nan.
    by rewrite gtb_np_maximum, orb_assoc.
Qed.

Lemma leb_foldl_np_minimum l a c :
  F.is_nan a = false → no_nan l →
  F.leb (foldl np_minimum a l) c = F.leb a c || existsb (λ v, F.leb v c) l.
Proof.
  intros Ha Hl. revert a Ha.
  induction Hl as [|b l Hb _ IH]; intros a Ha; simpl.
  - by rewrite orb_false_r.
  - rewrite IH by by apply np_minimum_not_nan.
    by rewrite leb_np_minimum, orb_assoc.
Qed.

(** [np.max(s) > c] holds exactly when some entry exceeds [c]. *)
Lemma gtb_series_max l c :
  no_nan l → F.gtb (series_max l) c = existsb (λ v, F.gtb v c) l.
Proof.
  intros Hl. unfold series_max. destruct l as [|a l].
  - simpl. by destruct c.
  - rewrite forallb_is_nan_no_nan, fill_no_nan by done.
    apply Forall_cons in Hl as [Ha Hl].
    by rewrite gtb_foldl_np_maximum.
Qed.

Lemma geb_foldl_np_maximum l a c :
  F.is_nan a = false → no_nan l →
  F.geb (foldl np_maximum a l) c = F.geb a c || existsb (λ v, F.geb v c) l.
Proof.
  intros Ha Hl. revert a Ha.
  induction Hl as [|b l Hb _ IH]; intros a Ha; simpl.
  - by rewrite orb_false_r.
  - rewrite IH by by apply np_maximum_not_nan.
    by rewrite geb_np_maximum, orb_assoc.
Qed.

(** [np.max(s) >= c] holds exactly when some entry is at least [c]. *)
Lemma geb_series_max l c :
  no_nan l → F.geb (series_max l) c = existsb (λ v, F.geb v c) l.
Proof.
  intros Hl. unfold series_max. destruct l as [|a l].
  - simpl. by destruct c.
  - rewrite forallb_is_nan_no_nan, fill_no_nan by done.
    apply Forall_cons in Hl as [Ha Hl].
    by rewrite geb_foldl_np_maximum.
Qed.

(** [np.min(s) <= c] holds exactly when some entry is at most [c]. *)
Lemma leb_series_min l c :
  no_nan l → F.leb (series_min l) c = existsb (λ v, F.leb v c) l.
Proof.
  intros Hl. unfold series_min. destruct l as [|a l].
  - done.
  - rewrite forallb_is_nan_no_nan, fill_no_nan by done.
    apply Forall_cons in Hl as [Ha Hl].
    by rewrite leb_foldl_np_minimum.
Qed.

End Reductions.

(** ** The checking functions *)

Lemma existsb_Exists {A} (f : A → bool) (l : list A) :
  existsb f l = true ↔ Exists (λ x, f x = true) l.
Proof.
  induction l as [|a l IH]; simpl.
  - split; [done|by inversion 1].
  - rewrite orb_true_iff, Exists_cons. tauto.
Qed.

Lemma existsb_Forall {A} (f : A → bool) (l : list A) :
  existsb f l = false ↔ Forall (λ x, f x = false) l.
Proof.
  induction l as [|a l IH]; simpl.
  - split; [constructor|done].
  - rewrite orb_false_iff, Forall_cons. tauto.
Qed.

Lemma existsb_id_fmap {A} (f : A → bool) (l : list A) :
  existsb id (f <$> l) = existsb f l.
Proof.
  induction l as [|a l IH]; [done|].
  rewrite fmap_cons. cbn [existsb]. by rewrite IH.
Qed.

Lemma result_ok_not_raises {A} (m : result A) a :
  m = Ok a → ¬ raises_ValueError m.
Proof. intros -> [msg ?]. discriminate. Qed.

Lemma in_unit_interval_not_bad p : in_unit_interval p → ¬ bad_pvalue p.
Proof.
  intros [H0 H1] [Hn|[Hg|Hl]].
  - destruct p; discriminate.
  - assert (Hp : F.is_nan p = false) by (by destruct p).
    rewrite (leb_negb_ltb p F.one Hp eq_refl) in H1.
    unfold F.gtb in Hg. fold (F.ltb F.one p) in Hg. by rewrite Hg in H1.
  - assert (Hp : F.is_nan p = false) by (by destruct p).
    rewrite (leb_negb_ltb p F.zero Hp eq_refl) in Hl. by rewrite H0 in Hl.
Qed.

Lemma not_bad_in_unit_interval p :
  F.is_nan p = false → F.gtb p F.one = false → F.leb p F.zero = false →
  in_unit_interval p.
Proof.
  intros Hp Hg Hl. split.
  - rewrite (leb_negb_ltb p F.zero Hp eq_refl) in Hl.
    by apply negb_false_iff in Hl.
  - rewrite (leb_negb_ltb p F.one Hp eq_refl).
    unfold F.gtb in Hg. fold (F.ltb F.one p) in Hg. by rewrite Hg.
Qed.

Lemma check_pvalue_cases (P : list float) :
  (check_pvalue P = Ok tt ∧ Forall in_unit_interval P)
  ∨ (raises_ValueError (check_pvalue P) ∧ Exists bad_pvalue P).
Proof.
  unfold check_pvalue.
  destruct (existsb id (F.is_nan <$> P)) eqn:Hnan.
  { right. split; [by eexists|].
    rewrite existsb_id_fmap in Hnan. apply existsb_Exists in Hnan.
    eapply Exists_impl; [done|]. intros p Hp. by left. }
  pose proof (proj1 (existsb_is_nan_false P) Hnan) as Hnn.
  rewrite gtb_series_max by done.
  destruct (existsb (λ v, F.gtb v F.one) P) eqn:Hgt.
  { right. split; [by eexists|]. apply existsb_Exists in Hgt.
    eapply Exists_impl; [done|]. intros p Hp. right. by left. }
  rewrite leb_series_min by done.
  destruct (existsb (λ v, F.leb v F.zero) P) eqn:Hle.
  { right. split; [by eexists|]. apply existsb_Exists in Hle.
    eapply Exists_impl; [done|]. intros p Hp. right. by right. }
  left. split; [done|].
  apply existsb_Forall in Hgt, Hle. unfold no_nan in Hnn.
  rewrite Forall_forall in Hnn, Hgt, Hle. apply Forall_forall.
  intros p Hp. apply not_bad_in_unit_interval; auto.
Qed.

Lemma check_pvalue_Ok (P : list float) :
  check_pvalue P = Ok tt ↔ Forall in_unit_interval P.
Proof.
  destruct (check_pvalue_cases P) as [[H1 H2]|[[msg H1] H2]].
  - tauto.
  - split; [rewrite H1; discriminate|].
    intros HF. exfalso. apply Exists_exists in H2 as (p & Hp & Hbad).
    rewrite Forall_forall in HF. by eapply in_unit_interval_not_bad; eauto.
Qed.

Lemma check_pvalue_raises (P : list float) :
  raises_ValueError (check_pvalue P) ↔ Exists bad_pvalue P.
Proof.
  destruct (check_pvalue_cases P) as [[H1 H2]|[H1 H2]].
  - split; [intros [msg H]; rewrite H1 in H; discriminate|].
    intros HE. exfalso. apply Exists_exists in HE as (p & Hp & Hbad).
    rewrite Forall_forall in H2. by eapply in_unit_interval_not_bad; eauto.
  - tauto.
Qed.

Lemma check_maf_Ok (maf : list float) :
  check_maf maf = Ok tt ↔ Forall in_open_unit_interval maf.
Proof.
  unfold check_maf.
  destruct (existsb id (F.is_nan <$> maf)) eqn:Hnan.
  { split; [done|]. intros HF. exfalso.
    rewrite existsb_id_fmap in Hnan.
    apply existsb_Exists, Exists_exists in Hnan as (m & Hm & Hn).
    rewrite Forall_forall in HF. destruct (HF m Hm) as [H0 _].
    by destruct m. }
  pose proof (proj1 (existsb_is_nan_false maf) Hnan) as Hnn.
  rewrite geb_series_max, leb_series_min by done.
  unfold no_nan in Hnn. rewrite Forall_forall in Hnn.
  destruct (existsb (λ v, F.geb v F.one) maf) eqn:Hge.
  { split; [done|]. intros HF. exfalso.
    apply existsb_Exists, Exists_exists in Hge as (m & Hm & Hg).
    rewrite Forall_forall in HF. destruct (HF m Hm) as [_ H1].
    unfold F.geb in Hg. fold (F.leb F.one m) in Hg.
    rewrite (leb_negb_ltb F.one m eq_refl (Hnn m Hm)), H1 in Hg. done. }
  destruct (existsb (λ v, F.leb v F.zero) maf) eqn:Hle.
  { split; [done|]. intros HF. exfalso.
    apply existsb_Exists, Exists_exists in Hle as (m & Hm & Hl).
    rewrite Forall_forall in HF. destruct (HF m Hm) as [H0 _].
    rewrite (leb_negb_ltb m F.zero (Hnn m Hm) eq_refl), H0 in Hl. done. }
  split; [intros _|done].
  apply existsb_Forall in Hge, Hle. rewrite Forall_forall in Hge, Hle.
  apply Forall_forall. intros m Hm. split.
  - specialize (Hle m Hm). simpl in Hle.
    rewrite (leb_negb_ltb m F.zero (Hnn m Hm) eq_refl) in Hle.
    by apply negb_false_iff in Hle.
  - specialize (Hge m Hm). simpl in Hge.
    unfold F.geb in Hge. fold (F.leb F.one m) in Hge.
    rewrite (leb_negb_ltb F.one m eq_refl (Hnn m Hm)) in Hge.
    by apply negb_false_iff in Hge.
Qed.

(** [check_N] *)

Lemma foldl_Zmin_neg (l : list Z) (a : Z) :
  foldl Z.min a l < 0 ↔ a < 0 ∨ Exists (λ n, n < 0) l.
Proof.
  revert a. induction l as [|b l IH]; intros a; simpl.
  - rewrite Exists_nil. tauto.
  - rewrite IH, Exists_cons.
    destruct (Z.min_spec a b) as [[? ->]|[? ->]]; intuition lia.
Qed.

Lemma check_N_Ok (N : list Z) :
  check_N N = Ok tt ↔ Forall (λ n, 0 ≤ n) N.
Proof.
  unfold check_N. destruct N as [|a l]; simpl; [by split; [constructor|]|].
  destruct (Z.ltb_spec (foldl Z.min a l) 0) as [H|H].
  - split; [discriminate|]. intros HF. exfalso.
    apply foldl_Zmin_neg in H. apply Forall_cons in HF as [Ha HF].
    destruct H as [H|H]; [lia|].
    apply Exists_exists in H as (n & Hn & Hneg).
    rewrite Forall_forall in HF. specialize (HF n Hn). simpl in HF. lia.
  - split; [intros _|done].
    apply Forall_forall. intros n Hn.
    destruct (Z.le_gt_cases 0 n) as [|Hneg]; [done|]. exfalso.
    assert (foldl Z.min a l < 0); [|lia].
    apply foldl_Zmin_neg. apply elem_of_cons in Hn as [->|Hn]; [by left|].
    right. apply Exists_exists. by exists n.
Qed.

Lemma check_N_result (N : list Z) :
  check_N N = Ok tt ∨ check_N N = Raise (ValueError "Negative N.").
Proof.
  unfold check_N. destruct (series_min_int N) as [m|]; [|by left].
  destruct (m <? 0); auto.
Qed.

Lemma check_N_raises (N : list Z) :
  raises (check_N N) ↔ Exists (λ n, n < 0) N.
Proof.
  pose proof (check_N_Ok N) as HOk.
  destruct (check_N_result N) as [H|H]; rewrite H in *.
  - split; [intros [e ?]; discriminate|].
    intros HE. apply Exists_exists in HE as (n & Hn & Hneg).
    apply proj1 in HOk. specialize (HOk eq_refl).
    rewrite Forall_forall in HOk. specialize (HOk n Hn). simpl in HOk. lia.
  - split; [intros _|by eexists].
    assert (¬ Forall (λ n, 0 ≤ n) N) as HnF.
    { intros HF. apply HOk in HF. discriminate. }
    apply not_Forall_Exists in HnF; [|intros n; apply _].
    eapply Exists_impl; [done|]. simpl. lia.
Qed.

(** [check_dir] *)

Lemma check_dir_unfold (dir : list Z) :
  check_dir dir =
  if existsb (λ d, negb (d =? 1) && negb (d =? -1)) dir
  then Raise (ValueError "DIR entry not equal to +/- 1.")
  else Ok tt.
Proof.
  unfold check_dir.
  replace (existsb id _)
    with (existsb (λ d, negb (d =? 1) && negb (d =? -1)) dir); [done|].
  induction dir as [|d dir IH]; simpl; [done|]. by rewrite IH.
Qed.

Lemma check_dir_Ok (dir : list Z) :
  check_dir dir = Ok tt ↔ Forall valid_dir dir.
Proof.
  rewrite check_dir_unfold.
  destruct (existsb _ dir) eqn:H.
  - split; [discriminate|]. intros HF. exfalso.
    apply existsb_Exists, Exists_exists in H as (d & Hd & H).
    rewrite Forall_forall in HF. destruct (HF d Hd) as [-> | ->]; discriminate.
  - split; [intros _|done]. apply existsb_Forall in H.
    eapply Forall_impl; [done|]. intros d Hd. unfold valid_dir. simpl in Hd.
    destruct (Z.eqb_spec d 1), (Z.eqb_spec d (-1)); auto; discriminate.
Qed.

Lemma check_dir_raises (dir : list Z) :
  check_dir dir = Raise (ValueError "DIR entry not equal to +/- 1.")
  ↔ Exists (λ d, d ≠ 1 ∧ d ≠ -1) dir.
Proof.
  rewrite check_dir_unfold.
  destruct (existsb _ dir) eqn:H.
  - split; [intros _|done].
    apply existsb_Exists in H. eapply Exists_impl; [done|].
    intros d Hd. simpl in Hd.
    destruct (Z.eqb_spec d 1), (Z.eqb_spec d (-1)); auto; discriminate.
  - split; [discriminate|]. intros HE. exfalso.
    apply existsb_Forall in H.
    apply Exists_exists in HE as (d & Hd & H1 & H2).
    rewrite Forall_forall in H. specialize (H d Hd). simpl in H.
    destruct (Z.eqb_spec d 1), (Z.eqb_spec d (-1)); auto; discriminate.
Qed.

(** [check_rsid] *)

Lemma duplicated_NoDup (l : list string) :
  existsb id (duplicated l) = false ↔ NoDup l.
Proof.
  induction l as [|s l IH]; simpl.
  - split; [constructor|done].
  - unfold id at 1. rewrite orb_false_iff, NoDup_cons, IH.
    rewrite bool_decide_eq_false. tauto.
Qed.

Lemma check_rsid_Ok (rsids : list string) :
  check_rsid rsids = Ok tt ↔ ("." ∉ rsids) ∧ NoDup rsids.
Proof.
  unfold check_rsid. rewrite existsb_id_fmap.
  destruct (existsb _ rsids) eqn:Hdot.
  - split; [discriminate|]. intros [Hn _]. exfalso. apply Hn.
    apply existsb_Exists, Exists_exists in Hdot as (s & Hs & Hd).
    apply bool_decide_eq_true in Hd. by subst.
  - assert ("." ∉ rsids) as Hn.
    { intros Hin. apply existsb_Forall in Hdot.
      rewrite Forall_forall in Hdot. specialize (Hdot _ Hin).
      by apply bool_decide_eq_false in Hdot. }
    destruct (existsb id (duplicated rsids)) eqn:Hdup.
    + split; [discriminate|]. intros [_ Hnd].
      apply duplicated_NoDup in Hnd. congruence.
    + apply duplicated_NoDup in Hdup. tauto.
Qed.

Lemma check_rsid_result (rsids : list string) :
  check_rsid rsids = Ok tt ∨ raises_ValueError (check_rsid rsids).
Proof.
  unfold check_rsid.
  destruct (existsb id _); [right; by eexists|].
  destruct (existsb id _); [right; by eexists|by left].
Qed.

(** ** DataFrame operations *)

Lemma bind_Ok {A B} (m : result A) (f : A → result B) (b : B) :
  m ≫= f = Ok b ↔ ∃ a, m = Ok a ∧ f a = Ok b.
Proof.
  destruct m as [a|e]; simpl.
  - split; [by exists a|]. by intros (a' & [= ->] & ?).
  - split; [done|]. by intros (a' & ? & ?).
Qed.

(** Splits a hypothesis [m ≫= f = Ok b] into its two steps. *)
Tactic Notation "inv_bind" hyp(H) "as" ident(a) ident(Ha) :=
  apply bind_Ok in H as (a & Ha & H).

Section FrameOps.

Implicit Types x : frame.
Implicit Types n m old new : string.
Implicit Types c : column.

Lemma getitem_Ok_elem_of x m c : getitem x m = Ok c → (m, c) ∈ x.
Proof.
  induction x as [|[n' c'] x IH]; simpl; [done|].
  destruct (decide (n' = m)) as [->|].
  - intros [= ->]. left.
  - intros H. right. auto.
Qed.

Lemma getitem_columns x m : m ∈ columns x ↔ ∃ c, getitem x m = Ok c.
Proof.
  unfold columns. induction x as [|[n' c'] x IH]; simpl.
  - split; [by intros ?%elem_of_nil|by intros [? ?]].
  - rewrite elem_of_cons. destruct (decide (n' = m)) as [->|Hne].
    + split; [by exists c'|by left].
    + rewrite IH. split; [intros [?|?]; [congruence|done]|by right].
Qed.

Lemma getitem_not_columns x m :
  m ∉ columns x → getitem x m = Raise (KeyError m).
Proof.
  unfold columns. induction x as [|[n' c'] x IH]; simpl; [done|].
  rewrite not_elem_of_cons. intros [Hne Hnin].
  rewrite decide_False by done. auto.
Qed.

Lemma getitem_Ok_columns x m c : getitem x m = Ok c → m ∈ columns x.
Proof. intros H. apply getitem_columns. by exists c. Qed.

Lemma getitem_setitem_eq x n c : getitem (setitem x n c) n = Ok c.
Proof.
  unfold setitem. destruct (decide (n ∈ columns x)) as [Hin|Hnin].
  - unfold columns in Hin. induction x as [|[n' c'] x IH]; simpl.
    + by apply elem_of_nil in Hin.
    + destruct (decide (n' = n)) as [->|Hne]; simpl.
      * by rewrite decide_True.
      * rewrite decide_False by done.
        apply IH. rewrite fmap_cons in Hin.
        apply elem_of_cons in Hin as [?|?]; [simpl in *; congruence|done].
  - unfold columns in Hnin. induction x as [|[n' c'] x IH]; simpl.
    + by rewrite decide_True.
    + rewrite fmap_cons in Hnin. apply not_elem_of_cons in Hnin as [? ?].
      rewrite decide_False by done. auto.
Qed.

Lemma getitem_app_ne x y m :
  m ∉ columns y → getitem (x ++ y) m =
                  match getitem x m with Ok c => Ok c | Raise _ => Raise (KeyError m) end.
Proof.
  intros Hy. induction x as [|[n' c'] x IH]; simpl.
  - by apply getitem_not_columns.
  - by destruct (decide (n' = m)).
Qed.

Lemma getitem_Raise x m e : getitem x m = Raise e → e = KeyError m.
Proof.
  induction x as [|[n' c'] x IH]; simpl; [congruence|].
  by destruct (decide (n' = m)).
Qed.

Lemma getitem_setitem_ne x n m c :
  n ≠ m → getitem (setitem x n c) m = getitem x m.
Proof.
  intros Hne. unfold setitem. destruct (decide (n ∈ columns x)) as [Hin|Hnin].
  - clear Hin. induction x as [|[n' c'] x IH]; simpl; [done|].
    destruct (decide (n' = n)) as [->|Hne']; simpl.
    + by rewrite !decide_False by done.
    + destruct (decide (n' = m)); auto.
  - rewrite getitem_app_ne.
    + destruct (getitem x m) as [|e] eqn:H; [done|].
      by apply getitem_Raise in H as ->.
    + simpl. by intros ->%list_elem_of_singleton.
Qed.

Lemma columns_setitem x n c m :
  m ∈ columns (setitem x n c) ↔ m = n ∨ m ∈ columns x.
Proof.
  rewrite !getitem_columns. destruct (decide (n = m)) as [->|Hne].
  - rewrite getitem_setitem_eq. split; [by left|by exists c].
  - rewrite getitem_setitem_ne by done.
    split; [by right|]. by intros [->|?].
Qed.

Lemma getitem_rename_ne x old new m :
  m ≠ old → m ≠ new → getitem (rename old new x) m = getitem x m.
Proof.
  intros H1 H2. induction x as [|[n' c'] x IH]; simpl; [done|].
  destruct (decide (n' = old)) as [->|]; simpl.
  - by rewrite !decide_False by done.
  - by destruct (decide (n' = m)).
Qed.

Lemma getitem_rename_new x old new c :
  new ∉ columns x → getitem x old = Ok c →
  getitem (rename old new x) new = Ok c.
Proof.
  unfold columns. induction x as [|[n' c'] x IH]; simpl; [done|].
  rewrite not_elem_of_cons. intros [Hne Hnin].
  destruct (decide (n' = old)) as [->|]; simpl.
  - by rewrite decide_True.
  - rewrite decide_False by done. auto.
Qed.

Lemma columns_rename_old x old new :
  old ≠ new → old ∉ columns (rename old new x).
Proof.
  intros Hne. unfold columns, rename. rewrite <-list_fmap_compose.
  intros ([n' c'] & Heq & _)%list_elem_of_fmap. simpl in Heq.
  destruct (decide (n' = old)); simpl in *; congruence.
Qed.

Lemma columns_rename_ne x old new m :
  m ≠ old → m ≠ new → m ∈ columns (rename old new x) ↔ m ∈ columns x.
Proof.
  intros. by rewrite !getitem_columns, getitem_rename_ne.
Qed.

Lemma getitem_delete_ne x n m :
  m ≠ n → getitem (filter (λ nc, nc.1 ≠ n) x) m = getitem x m.
Proof.
  intros Hne. induction x as [|[n' c'] x IH]; [done|].
  rewrite filter_cons. cbn [fst getitem].
  destruct (decide (n' ≠ n)) as [Hn|Hn]; cbn [getitem].
  - by destruct (decide (n' = m)).
  - apply dec_stable in Hn as ->. by rewrite decide_False.
Qed.

Lemma columns_delete x n m :
  m ∈ columns (filter (λ nc, nc.1 ≠ n) x) ↔ m ≠ n ∧ m ∈ columns x.
Proof.
  unfold columns. rewrite !list_elem_of_fmap. split.
  - intros ([n' c'] & -> & [Hne Hin]%list_elem_of_filter). eauto.
  - intros [Hne ([n' c'] & -> & Hin)]. exists (n', c').
    split; [done|]. by apply list_elem_of_filter.
Qed.

Lemma delitem_Ok x n y :
  delitem x n = Ok y → y = filter (λ nc, nc.1 ≠ n) x.
Proof. unfold delitem. by destruct (decide _); intros [= <-]. Qed.

Lemma elem_of_setitem x n c : (n, c) ∈ setitem x n c.
Proof. apply getitem_Ok_elem_of, getitem_setitem_eq. Qed.

Lemma elem_of_rename_old x old new c :
  (old, c) ∈ x → (new, c) ∈ rename old new x.
Proof.
  intros Hin. unfold rename. apply list_elem_of_fmap.
  exists (old, c). simpl. by rewrite decide_True.
Qed.



End FrameOps.

(** ** Reading *)

Lemma has_dot_app (s1 s2 : string) :
  has_dot (s1 +:+ s2) = has_dot s1 || has_dot s2.
Proof.
  induction s1 as [|a s1 IH]; simpl; [done|]. by rewrite IH, orb_assoc.
Qed.

Lemma filter_none {A} (P : A → Prop) `{∀ a, Decision (P a)} (l : list A) :
  (∀ a, a ∈ l → ¬ P a) → filter P l = [].
Proof.
  induction l as [|a l IH]; intros Hl; [done|].
  rewrite filter_cons, decide_False by (apply Hl; left).
  apply IH. intros b Hb. apply Hl. by right.
Qed.

Section Reading.

Implicit Types f x : frame.
Implicit Types m : string.

Lemma getitem_mangle seen f m :
  has_dot m = false → m ∉ seen →
  getitem (mangle_dupe_cols seen f) m = getitem f m.
Proof.
  intros Hdot. revert seen.
  induction f as [|[n c] f IH]; intros seen Hseen; [done|].
  cbn [mangle_dupe_cols getitem].
  destruct (decide (n = m)) as [->|Hne].
  - replace (filter (λ m', m' = m) seen) with (@nil string).
    + simpl. by rewrite decide_True.
    + symmetry. apply filter_none. by intros m' Hin ->.
  - rewrite decide_False.
    + apply IH. by apply not_elem_of_cons.
    + destruct (length _); [done|]. intros <-.
      rewrite !has_dot_app in Hdot. simpl in Hdot.
      by rewrite orb_true_r in Hdot.
Qed.

Lemma getitem_filter_in (u : list string) x m :
  m ∈ u → getitem (filter (λ nc, nc.1 ∈ u) x) m = getitem x m.
Proof.
  intros Hin. induction x as [|[n c] x IH]; [done|].
  rewrite filter_cons. cbn [fst getitem].
  destruct (decide (n ∈ u)) as [Hn|Hn]; cbn [getitem].
  - by destruct (decide (n = m)).
  - rewrite decide_False; [done|]. by intros ->.
Qed.

Lemma columns_filter_in (u : list string) x m :
  m ∈ columns (filter (λ nc, nc.1 ∈ u) x) → m ∈ u.
Proof.
  unfold columns.
  by intros ([n c] & -> & [? ?]%list_elem_of_filter)%list_elem_of_fmap.
Qed.

Lemma mapM_coerce_getitem (d : gmap string dtype) x y m :
  mapM (λ nc, match d !! nc.1 with
              | Some dt => c ← coerce dt nc.2; Ok (nc.1, c)
              | None => Ok nc
              end) x = Ok y →
  getitem y m = getitem x m ≫= coerce_by d m.
Proof.
  revert y. induction x as [|[n c] x IH]; intros y H.
  - by injection H as <-.
  - cbn [mapM] in H. inv_bind H as nc Hnc. inv_bind H as y' Hy'.
    injection H as <-.
    specialize (IH _ Hy'). cbn [fst snd] in Hnc.
    assert (∃ c', nc = (n, c') ∧ coerce_by d n c = Ok c')
      as (c' & -> & Hc').
    { unfold coerce_by. destruct (d !! n) as [dt|].
      - inv_bind Hnc as c' Hc'. injection Hnc as <-. eauto.
      - injection Hnc as <-. eauto. }
    cbn [getitem]. destruct (decide (n = m)) as [->|Hne]; [|done].
    simpl. by rewrite Hc'.
Qed.

Lemma mapM_coerce_columns (d : gmap string dtype) x y :
  mapM (λ nc, match d !! nc.1 with
              | Some dt => c ← coerce dt nc.2; Ok (nc.1, c)
              | None => Ok nc
              end) x = Ok y →
  columns y = columns x.
Proof.
  revert y. induction x as [|[n c] x IH]; intros y H.
  - by injection H as <-.
  - cbn [mapM] in H. inv_bind H as nc Hnc. inv_bind H as y' Hy'.
    injection H as <-.
    unfold columns in *. rewrite !fmap_cons, (IH _ Hy'). f_equal.
    cbn [fst snd] in Hnc. destruct (d !! n).
    + inv_bind Hnc as c' Hc'. by injection Hnc as <-.
    + by injection Hnc as <-.
Qed.

(** A column asked for by name is the file's first column of that name,
    converted to its dtype; a name that is not in the header is absent. *)
Lemma read_csv_getitem f (U : list string) d x m :
  read_csv f (Some (filter (λ c, c ∈ columns f) U)) d = Ok x →
  m ∈ U → has_dot m = false →
  getitem x m = getitem f m ≫= coerce_by d m.
Proof.
  unfold read_csv. intros H HU Hdot.
  rewrite (mapM_coerce_getitem _ _ _ m H).
  destruct (decide (m ∈ columns f)) as [Hin|Hnin].
  - rewrite getitem_filter_in by (by apply list_elem_of_filter).
    by rewrite getitem_mangle by (done || apply not_elem_of_nil).
  - rewrite (getitem_not_columns f) by done.
    rewrite getitem_not_columns; [done|].
    intros Hc%columns_filter_in. by apply list_elem_of_filter in Hc as [? _].
Qed.

Lemma read_csv_columns f (u : list string) d x m :
  read_csv f (Some u) d = Ok x → m ∈ columns x → m ∈ u.
Proof.
  unfold read_csv. intros H. rewrite (mapM_coerce_columns _ _ _ H).
  apply columns_filter_in.
Qed.

Lemma coerce_DFloat c c' :
  coerce DFloat c = Ok c' → ∃ l, c' = CFloat l.
Proof. destruct c; intros [= <-]; eauto. Qed.

Lemma coerce_DInt c c' : coerce DInt c = Ok c' → ∃ l, c = CInt l ∧ c' = c.
Proof. destruct c; intros [= <-]; eauto. Qed.

Lemma coerce_DStr c c' : coerce DStr c = Ok c' → ∃ l, c = CStr l ∧ c' = c.
Proof. destruct c; intros [= <-]; eauto. Qed.

Lemma read_csv_get_float f (U : list string) d x m :
  read_csv f (Some (filter (λ c, c ∈ columns f) U)) d = Ok x →
  m ∈ U → has_dot m = false → d !! m = Some DFloat →
  get_float x m = file_float f m.
Proof.
  intros H HU Hdot Hd. unfold get_float, file_float.
  rewrite (read_csv_getitem _ _ _ _ _ H HU Hdot).
  unfold coerce_by. by rewrite Hd.
Qed.

Lemma read_csv_get_int f (U : list string) d x m :
  read_csv f (Some (filter (λ c, c ∈ columns f) U)) d = Ok x →
  m ∈ U → has_dot m = false → d !! m = Some DInt →
  get_int x m = file_int f m.
Proof.
  intros H HU Hdot Hd. unfold get_int, file_int.
  rewrite (read_csv_getitem _ _ _ _ _ H HU Hdot).
  unfold coerce_by. by rewrite Hd.
Qed.

Lemma read_csv_get_str f (U : list string) d x m :
  read_csv f (Some (filter (λ c, c ∈ columns f) U)) d = Ok x →
  m ∈ U → has_dot m = false → d !! m = Some DStr →
  get_str x m = file_str f m.
Proof.
  intros H HU Hdot Hd. unfold get_str, file_str.
  rewrite (read_csv_getitem _ _ _ _ _ H HU Hdot).
  unfold coerce_by. by rewrite Hd.
Qed.

(** A name of [U] is a column of the frame exactly when it is in the
    header. *)
Lemma read_csv_has_column f (U : list string) d x m :
  read_csv f (Some (filter (λ c, c ∈ columns f) U)) d = Ok x →
  m ∈ U → has_dot m = false →
  m ∈ columns x ↔ m ∈ columns f.
Proof.
  intros H HU Hdot. split.
  - intros Hin%(read_csv_columns _ _ _ _ _ H).
    by apply list_elem_of_filter in Hin as [? _].
  - intros Hin. apply getitem_columns.
    destruct (getitem x m) as [c|e] eqn:Hx; [by eexists|].
    exfalso. unfold read_csv in H.
    assert (m ∈ columns x) as Hmx;
      [|apply getitem_columns in Hmx as [? ?]; congruence].
    rewrite (mapM_coerce_columns _ _ _ H).
    apply getitem_columns.
    rewrite getitem_filter_in by (by apply list_elem_of_filter).
    rewrite getitem_mangle by (done || apply not_elem_of_nil).
    by apply getitem_columns.
Qed.

Lemma file_float_inv f m l :
  file_float f m = Ok l → getitem f m ≫= coerce DFloat = Ok (CFloat l).
Proof.
  unfold file_float. intros H. inv_bind H as c Hc.
  destruct c; try done. by injection H as ->.
Qed.

End Reading.

(** Closes a goal [m ∉ [a; b; ...]] or [a ≠ b] on column labels. *)
Ltac labels_ne :=
  repeat (apply not_elem_of_cons; split);
  try apply not_elem_of_nil;
  try (simpl; congruence);
  try (intros ?; simplify_eq; fail).

(** Closes a goal [m ∈ [a; b; ...]] on a list that holds [m]. *)
Ltac labels_in :=
  repeat first [apply elem_of_cons; left; reflexivity
               | apply elem_of_cons; right].

Lemma not_columns_getitem (x : frame) (m : string) :
  m ∉ columns x ↔ getitem x m = Raise (KeyError m).
Proof.
  split; [apply getitem_not_columns|].
  intros H [c Hc]%getitem_columns. congruence.
Qed.

(** ** Frames that differ in one column *)








(** ** [chisq] *)

Section ChisqProps.

Variable chdtri : float → float → float.

Lemma chisq_unfold fs fh :
  chisq chdtri fs fh =
  f ← open fs fh;
  x ← read_csv f (Some (filter (λ c, c ∈ columns f) chisq_usecols))
               chisq_dtype_dict;
  chisq_frame chdtri x.
Proof. reflexivity. Qed.

Lemma chisq_inv fs fh f t :
  fs fh = Some f → chisq chdtri fs fh = Ok t →
  ∃ x, read_csv f (Some (filter (λ c, c ∈ columns f) chisq_usecols))
                chisq_dtype_dict = Ok x
       ∧ chisq_frame chdtri x = Ok t.
Proof.
  intros Hf H. rewrite chisq_unfold in H. unfold open in H. rewrite Hf in H.
  simpl in H. inv_bind H as x Hx. eauto.
Qed.

(** The frame after the checks of N and SNP and the fold of MAF. *)
Lemma chisq_frame_inv x t :
  chisq_frame chdtri x = Ok t →
  ∃ n snp x',
    get_int x "N" = Ok n ∧ check_N n = Ok tt ∧
    get_str x "SNP" = Ok snp ∧ check_rsid snp = Ok tt ∧
    (∀ m, m ≠ "N" → m ≠ "MAF" → getitem x' m = getitem x m) ∧
    ("MAF" ∈ columns x →
     ∃ maf, get_float x "MAF" = Ok maf ∧ check_maf maf = Ok tt ∧
            getitem x' "MAF" =
            Ok (CFloat (zip_with np_fmin maf (F.sub F.one <$> maf)))) ∧
    (if decide ("P" ∈ columns x) then
       ∃ p, get_float x "P" = Ok p ∧ check_pvalue p = Ok tt ∧
            t = rename "P" "CHISQ"
                  (setitem x' "P" (CFloat (chdtri F.one <$> p)))
     else
       ∃ c, get_float x "CHISQ" = Ok c ∧ check_chisq c = Ok tt ∧ t = x').
Proof.
  unfold chisq_frame, chisq_fold_maf, chisq_statistic. intros H.
  inv_bind H as n Hn. inv_bind H as u1 HN. destruct u1.
  set (x1 := setitem x "N" (CFloat (F.of_Z <$> n))) in *.
  inv_bind H as snp Hsnp. inv_bind H as u2 Hrs. destruct u2.
  inv_bind H as x' Hx'.
  assert (Hget1 : ∀ m, m ≠ "N" → getitem x1 m = getitem x m).
  { intros m Hm. unfold x1. by rewrite getitem_setitem_ne. }
  assert (Hcol1 : ∀ m, m ≠ "N" → m ∈ columns x1 ↔ m ∈ columns x).
  { intros m Hm. by rewrite !getitem_columns, Hget1. }
  exists n, snp, x'. split_and!; try done.
  - unfold get_str in *. by rewrite <-Hget1.
  - intros m Hm1 Hm2. rewrite <-Hget1 by done.
    destruct (decide ("MAF" ∈ columns x1)).
    + inv_bind Hx' as maf Hmaf. inv_bind Hx' as u3 Hchk.
      injection Hx' as <-. by rewrite getitem_setitem_ne.
    + by injection Hx' as <-.
  - intros HMAF. rewrite decide_True in Hx' by (by apply Hcol1).
    inv_bind Hx' as maf Hmaf. inv_bind Hx' as u3 Hchk. destruct u3.
    injection Hx' as <-. exists maf. split_and!; try done.
    + unfold get_float in *. by rewrite <-Hget1.
    + apply getitem_setitem_eq.
  - assert (Hget' : ∀ m, m ≠ "N" → m ≠ "MAF" → getitem x' m = getitem x m).
    { intros m Hm1 Hm2. rewrite <-Hget1 by done.
      destruct (decide ("MAF" ∈ columns x1)).
      - inv_bind Hx' as maf Hmaf. inv_bind Hx' as u3 Hchk.
        injection Hx' as <-. by rewrite getitem_setitem_ne.
      - by injection Hx' as <-. }
    assert (Hcol' : ∀ m, m ≠ "N" → m ≠ "MAF" →
                         m ∈ columns x' ↔ m ∈ columns x).
    { intros m Hm1 Hm2. by rewrite !getitem_columns, Hget'. }
    destruct (decide ("P" ∈ columns x)) as [HP|HP].
    + rewrite decide_True in H by (by apply Hcol').
      inv_bind H as p Hp. inv_bind H as u3 Hchk. destruct u3.
      injection H as <-. exists p. split_and!; try done.
      unfold get_float in *. by rewrite <-Hget'.
    + rewrite decide_False in H by (by rewrite Hcol').
      destruct (decide ("CHISQ" ∈ columns x')); [|done].
      inv_bind H as c Hc. inv_bind H as u3 Hchk. destruct u3.
      injection H as <-. exists c. split_and!; try done.
      unfold get_float in *. by rewrite <-Hget'.
Qed.

Lemma chisq_dtype_P : chisq_dtype_dict !! "P" = Some DFloat.
Proof. reflexivity. Qed.
Lemma chisq_dtype_MAF : chisq_dtype_dict !! "MAF" = Some DFloat.
Proof. reflexivity. Qed.
Lemma chisq_dtype_N : chisq_dtype_dict !! "N" = Some DInt.
Proof. reflexivity. Qed.
Lemma chisq_dtype_SNP : chisq_dtype_dict !! "SNP" = Some DStr.
Proof. reflexivity. Qed.

Lemma file_float_columns f m l : file_float f m = Ok l → m ∈ columns f.
Proof.
  unfold file_float. intros H. inv_bind H as c Hc. inv_bind Hc as c' Hc'.
  by eapply getitem_Ok_columns.
Qed.

(** When the file has a P column, [chisq] succeeds only through the P
    branch. *)
Lemma chisq_P_branch fs fh f p t :
  fs fh = Some f → file_float f "P" = Ok p → chisq chdtri fs fh = Ok t →
  ∃ x x',
    read_csv f (Some (filter (λ c, c ∈ columns f) chisq_usecols))
             chisq_dtype_dict = Ok x ∧
    (∀ m, m ≠ "N" → m ≠ "MAF" → getitem x' m = getitem x m) ∧
    check_pvalue p = Ok tt ∧
    t = rename "P" "CHISQ" (setitem x' "P" (CFloat (chdtri F.one <$> p))).
Proof.
  intros Hf Hp H. destruct (chisq_inv _ _ _ _ Hf H) as (x & Hx & Ht).
  destruct (chisq_frame_inv _ _ Ht)
    as (n & snp & x' & _ & _ & _ & _ & Hget & _ & Hbr).
  assert (get_float x "P" = Ok p) as HxP.
  { rewrite (read_csv_get_float _ _ _ _ _ Hx); try done.
    unfold chisq_usecols. set_solver. }
  rewrite decide_True in Hbr.
  - destruct Hbr as (p' & Hp' & Hchk & ->).
    assert (p' = p) as -> by congruence. by exists x, x'.
  - unfold get_float in HxP. inv_bind HxP as c Hc.
    by eapply getitem_Ok_columns.
Qed.

(** The fold of MAF in [chisq]: every frequency is validated, and replaced
    by the smaller of itself and its complement. *)
Lemma chisq_maf_fold fs fh f maf t :
  fs fh = Some f → file_float f "MAF" = Ok maf → chisq chdtri fs fh = Ok t →
  Forall in_open_unit_interval maf
  ∧ getitem t "MAF"
    = Ok (CFloat (zip_with np_fmin maf (F.sub F.one <$> maf))).
Proof.
  intros Hf Hmaf H. destruct (chisq_inv _ _ _ _ Hf H) as (x & Hx & Ht).
  destruct (chisq_frame_inv _ _ Ht)
    as (n & snp & x' & _ & _ & _ & _ & _ & HM & Hbr).
  assert (get_float x "MAF" = Ok maf) as HxM.
  { rewrite (read_csv_get_float _ _ _ _ _ Hx); try done.
    unfold chisq_usecols. labels_in. }
  destruct HM as (maf' & Hmaf' & Hchk & Hget).
  { unfold get_float in HxM. inv_bind HxM as c Hc.
    by eapply getitem_Ok_columns. }
  assert (maf' = maf) as -> by congruence.
  split; [by apply check_maf_Ok|].
  destruct (decide ("P" ∈ columns x)).
  - destruct Hbr as (p & _ & _ & ->).
    by rewrite getitem_rename_ne, getitem_setitem_ne.
  - by destruct Hbr as (c & _ & _ & ->).
Qed.


End ChisqProps.

Lemma not_elem_of_cons_5 {A} (m a b c d e : A) (l : list A) :
  m ∉ a :: b :: c :: d :: e :: l →
  m ≠ a ∧ m ≠ b ∧ m ≠ c ∧ m ≠ d ∧ m ≠ e ∧ m ∉ l.
Proof. rewrite !not_elem_of_cons. tauto. Qed.

(** ** [betaprod] *)

Section BetaprodProps.

Variable chdtri : float → float → float.

Lemma betahat_lookup (chisq n : list float) (dir : list Z) k c nk d :
  chisq !! k = Some c → n !! k = Some nk → dir !! k = Some d →
  betahat chisq n dir !! k
  = Some (F.mul (F.sqrt (F.div c nk)) (F.of_Z d)).
Proof.
  intros Hc Hn Hd. unfold betahat.
  rewrite lookup_zip_with, !list_lookup_fmap, lookup_zip_with.
  by rewrite Hc, Hn, Hd.
Qed.

(** One pass of the loop of [betaprod], on a frame that has no column
    BETAHATi yet. *)
Lemma betaprod_body_spec (x : frame) (i : string) (x' : frame) :
  betaprod_body chdtri x i = Ok x' →
  ("BETAHAT" +:+ i) ∉ columns x →
  ∃ n dir chisq,
    get_int x ("N" +:+ i) = Ok n ∧ check_N n = Ok tt ∧
    get_int x ("DIR" +:+ i) = Ok dir ∧ check_dir dir = Ok tt ∧
    ((get_float x ("CHISQ" +:+ i) = Ok chisq ∧ check_chisq chisq = Ok tt ∧
      ∀ m, m ∉ ["N" +:+ i; "CHISQ" +:+ i; "DIR" +:+ i; "MAF" +:+ i;
                 "BETAHAT" +:+ i] → getitem x' m = getitem x m)
     ∨ ((("CHISQ" +:+ i) ∉ columns x) ∧
        ∃ p, get_float x ("P" +:+ i) = Ok p ∧ check_pvalue p = Ok tt ∧
             chisq = chdtri F.one <$> p ∧
             ∀ m, m ∉ ["N" +:+ i; "P" +:+ i; "DIR" +:+ i; "MAF" +:+ i;
                        "BETAHAT" +:+ i] → getitem x' m = getitem x m)) ∧
    getitem x' ("BETAHAT" +:+ i)
    = Ok (CFloat (betahat chisq (F.of_Z <$> n) dir)) ∧
    ("DIR" +:+ i) ∉ columns x'.
Proof.
  unfold betaprod_body. intros H Hfresh.
  inv_bind H as n Hn. inv_bind H as u1 HN. destruct u1.
  set (x1 := setitem x ("N" +:+ i) (CFloat (F.of_Z <$> n))) in *.
  inv_bind H as dir Hdir. inv_bind H as u2 Hd. destruct u2.
  inv_bind H as x2 Hx2. inv_bind H as x3 Hx3.
  apply delitem_Ok in Hx3. subst x3.
  set (x3 := filter (λ nc, nc.1 ≠ "DIR" +:+ i) x2) in *.
  assert (Hget1 : ∀ m, m ≠ "N" +:+ i → getitem x1 m = getitem x m).
  { intros m Hm. unfold x1. by rewrite getitem_setitem_ne. }
  assert (Hcol1 : ∀ m, m ≠ "N" +:+ i → m ∈ columns x1 ↔ m ∈ columns x).
  { intros m Hm. by rewrite !getitem_columns, Hget1. }
  assert (HgetN : get_float x1 ("N" +:+ i) = Ok (F.of_Z <$> n)).
  { unfold get_float, x1. by rewrite getitem_setitem_eq. }
  assert (Hget' : ∀ m, m ≠ "MAF" +:+ i → getitem x' m = getitem x3 m).
  { intros m Hm. destruct (decide (_ ∈ columns x3)).
    - inv_bind H as maf Hmaf. inv_bind H as u3 Hchk.
      injection H as <-. by rewrite getitem_setitem_ne.
    - by injection H as <-. }
  assert (Hget3 : ∀ m, m ≠ "MAF" +:+ i → m ≠ "DIR" +:+ i →
                       getitem x' m = getitem x2 m).
  { intros m Hm1 Hm2. rewrite Hget' by done. by apply getitem_delete_ne. }
  assert (Hdirx : get_int x ("DIR" +:+ i) = Ok dir).
  { unfold get_int in *. rewrite <-Hget1; [done|]. labels_ne. }
  assert (HDIR : ("DIR" +:+ i) ∉ columns x').
  { apply not_columns_getitem. rewrite Hget' by labels_ne.
    apply not_columns_getitem. unfold x3. rewrite columns_delete. tauto. }
  assert (Hfresh1 : ("BETAHAT" +:+ i) ∉ columns x1).
  { rewrite Hcol1; [done|]. labels_ne. }
  destruct (decide (("CHISQ" +:+ i) ∈ columns x1)) as [HC|HC].
  - inv_bind Hx2 as c Hc. inv_bind Hx2 as u3 Hchk. destruct u3.
    inv_bind Hx2 as n' Hn'. inv_bind Hx2 as dir' Hdir'.
    injection Hx2 as <-.
    assert (n' = F.of_Z <$> n) as -> by congruence.
    assert (dir' = dir) as -> by congruence.
    exists n, dir, c. split_and!; try done.
    + left. split_and!; try done.
      * unfold get_float in *. rewrite <-Hget1; [done|]. labels_ne.
      * intros m (Hm1 & Hm2 & Hm3 & Hm4 & Hm5 & _)%not_elem_of_cons_5.
        rewrite Hget3, getitem_rename_ne, getitem_setitem_ne by done.
        by apply Hget1.
    + rewrite Hget3 by labels_ne.
      apply getitem_rename_new; [|apply getitem_setitem_eq].
      rewrite columns_setitem. intros [?|?]; [|done]. simplify_eq.
  - destruct (decide (("P" +:+ i) ∈ columns x1)) as [HP|HP]; [|done].
    inv_bind Hx2 as p Hp. inv_bind Hx2 as u3 Hchk. destruct u3.
    inv_bind Hx2 as n' Hn'. inv_bind Hx2 as dir' Hdir'.
    injection Hx2 as <-.
    assert (n' = F.of_Z <$> n) as -> by congruence.
    assert (dir' = dir) as -> by congruence.
    exists n, dir, (chdtri F.one <$> p). split_and!; try done.
    + right. split.
      { rewrite <-Hcol1; [done|]. labels_ne. }
      exists p. split_and!; try done.
      * unfold get_float in *. rewrite <-Hget1; [done|]. labels_ne.
      * intros m (Hm1 & Hm2 & Hm3 & Hm4 & Hm5 & _)%not_elem_of_cons_5.
        rewrite Hget3, getitem_rename_ne, getitem_setitem_ne by done.
        by apply Hget1.
    + rewrite Hget3 by labels_ne.
      apply getitem_rename_new; [|apply getitem_setitem_eq].
      rewrite columns_setitem. intros [?|?]; [|done]. simplify_eq.
Qed.

(** What a pass does to a MAFi column: every row receives the least value
    of the column. *)
Lemma betaprod_body_maf (x : frame) (i : string) (x' : frame)
    (maf : list float) :
  betaprod_body chdtri x i = Ok x' →
  get_float x ("MAF" +:+ i) = Ok maf →
  check_maf maf = Ok tt
  ∧ ∃ k, getitem x' ("MAF" +:+ i)
         = Ok (CFloat (replicate k (series_min maf))).
Proof.
  unfold betaprod_body. intros H Hmaf.
  inv_bind H as n Hn. inv_bind H as u1 HN. destruct u1.
  inv_bind H as dir Hdir. inv_bind H as u2 Hd. destruct u2.
  inv_bind H as x2 Hx2. inv_bind H as x3 Hx3.
  apply delitem_Ok in Hx3. subst x3.
  assert (HM2 : getitem x2 ("MAF" +:+ i) = getitem x ("MAF" +:+ i)).
  { destruct (decide (("CHISQ" +:+ i) ∈ columns _)).
    - inv_bind Hx2 as c Hc. inv_bind Hx2 as u3 Hchk.
      inv_bind Hx2 as n' Hn'. inv_bind Hx2 as dir' Hdir'.
      injection Hx2 as <-.
      by rewrite getitem_rename_ne, !getitem_setitem_ne by labels_ne.
    - destruct (decide (("P" +:+ i) ∈ columns _)); [|done].
      inv_bind Hx2 as p Hp. inv_bind Hx2 as u3 Hchk.
      inv_bind Hx2 as n' Hn'. inv_bind Hx2 as dir' Hdir'.
      injection Hx2 as <-.
      by rewrite getitem_rename_ne, !getitem_setitem_ne by labels_ne. }
  assert (HM3 : get_float (filter (λ nc, nc.1 ≠ "DIR" +:+ i) x2)
                          ("MAF" +:+ i) = Ok maf).
  { unfold get_float in *. by rewrite getitem_delete_ne, HM2 by labels_ne. }
  rewrite decide_True in H.
  - inv_bind H as maf' Hmaf'. inv_bind H as u3 Hchk. destruct u3.
    injection H as <-. assert (maf' = maf) as -> by congruence.
    split; [done|]. eexists. apply getitem_setitem_eq.
  - unfold get_float in HM3. inv_bind HM3 as c Hc.
    by eapply getitem_Ok_columns.
Qed.

Lemma elem_of_12 (i : string) : i ∈ ["1"; "2"] → i = "1" ∨ i = "2".
Proof.
  intros [->|Hi]%elem_of_cons; [by left|].
  apply list_elem_of_singleton in Hi. by right.
Qed.

(** The frame property of one pass that both branches share. *)
Lemma betaprod_body_frame (x : frame) (i : string) (x' : frame) :
  betaprod_body chdtri x i = Ok x' →
  ("BETAHAT" +:+ i) ∉ columns x →
  ∀ m, m ∉ ["N" +:+ i; "CHISQ" +:+ i; "P" +:+ i; "DIR" +:+ i; "MAF" +:+ i;
             "BETAHAT" +:+ i] → getitem x' m = getitem x m.
Proof.
  intros H Hfresh m Hm.
  destruct (betaprod_body_spec _ _ _ H Hfresh)
    as (n & dir & c & _ & _ & _ & _ & [(_ & _ & Hfr)|(_ & p & _ & _ & _ & Hfr)]
        & _).
  - apply Hfr. rewrite !not_elem_of_cons in Hm. rewrite !not_elem_of_cons.
    tauto.
  - apply Hfr. rewrite !not_elem_of_cons in Hm. rewrite !not_elem_of_cons.
    tauto.
Qed.

(** The two passes of the loop, on a frame without BETAHAT columns. *)
Lemma betaprod_loop_spec (x t : frame) (i : string) :
  for_each ["1"; "2"] (betaprod_body chdtri) x = Ok t →
  ("BETAHAT1" ∉ columns x) → ("BETAHAT2" ∉ columns x) →
  i ∈ ["1"; "2"] →
  ∃ n dir chisq,
    get_int x ("N" +:+ i) = Ok n ∧ check_N n = Ok tt ∧
    get_int x ("DIR" +:+ i) = Ok dir ∧ check_dir dir = Ok tt ∧
    ((get_float x ("CHISQ" +:+ i) = Ok chisq ∧ check_chisq chisq = Ok tt ∧
      getitem t ("P" +:+ i) = getitem x ("P" +:+ i))
     ∨ ((("CHISQ" +:+ i) ∉ columns x) ∧
        ∃ p, get_float x ("P" +:+ i) = Ok p ∧ check_pvalue p = Ok tt ∧
             chisq = chdtri F.one <$> p)) ∧
    getitem t ("BETAHAT" +:+ i)
    = Ok (CFloat (betahat chisq (F.of_Z <$> n) dir)) ∧
    (("DIR" +:+ i) ∉ columns t).
Proof.
  intros H Hf1 Hf2 Hi. cbn [for_each] in H.
  inv_bind H as x1 H1. inv_bind H as t' H2. injection H as ->.
  pose proof (betaprod_body_frame _ _ _ H1 Hf1) as Hfr1.
  assert (Hf2' : "BETAHAT2" ∉ columns x1).
  { apply not_columns_getitem. rewrite Hfr1 by labels_ne.
    by apply not_columns_getitem. }
  pose proof (betaprod_body_frame _ _ _ H2 Hf2') as Hfr2.
  apply elem_of_12 in Hi as [-> | ->].
  - destruct (betaprod_body_spec _ _ _ H1 Hf1)
      as (n & dir & c & Hn & HN & Hd & HD & Hbr & Hb & Hdir).
    exists n, dir, c. split_and!; try done.
    + destruct Hbr as [(Hc & Hchk & Hfr)|(Hc & p & Hp & Hchk & -> & Hfr)].
      * left. split_and!; try done.
        rewrite Hfr2 by labels_ne. apply Hfr. labels_ne.
      * right. split; [done|]. by exists p.
    + by rewrite Hfr2 by labels_ne.
    + apply not_columns_getitem. rewrite Hfr2 by labels_ne.
      by apply not_columns_getitem.
  - destruct (betaprod_body_spec _ _ _ H2 Hf2')
      as (n & dir & c & Hn & HN & Hd & HD & Hbr & Hb & Hdir).
    exists n, dir, c. split_and!; try done.
    + unfold get_int in *. by rewrite <-Hfr1 by labels_ne.
    + unfold get_int in *. by rewrite <-Hfr1 by labels_ne.
    + destruct Hbr as [(Hc & Hchk & Hfr)|(Hc & p & Hp & Hchk & -> & Hfr)].
      * left. split_and!; try done.
        -- unfold get_float in *. by rewrite <-Hfr1 by labels_ne.
        -- rewrite Hfr by labels_ne. apply Hfr1. labels_ne.
      * right. split.
        -- apply not_columns_getitem. rewrite <-Hfr1 by labels_ne.
           by apply not_columns_getitem.
        -- exists p. split_and!; try done.
           unfold get_float in *. by rewrite <-Hfr1 by labels_ne.
Qed.

Lemma betaprod_inv fs fh f t :
  fs fh = Some f → betaprod chdtri fs fh = Ok t →
  ∃ x snp,
    read_csv f (Some (filter (λ c, c ∈ columns f) betaprod_usecols))
             betaprod_dtype_dict = Ok x ∧
    get_str x "SNP" = Ok snp ∧ check_rsid snp = Ok tt ∧
    for_each ["1"; "2"] (betaprod_body chdtri) x = Ok t.
Proof.
  intros Hf H. unfold betaprod, open in H. rewrite Hf in H. simpl in H.
  inv_bind H as x Hx. inv_bind H as snp Hsnp. inv_bind H as u Hu.
  destruct u. by exists x, snp.
Qed.

Lemma betaprod_usecols_eq :
  betaprod_usecols =
  ["DIR1"; "P1"; "CHISQ1"; "N1"; "MAF1"; "INFO1";
   "DIR2"; "P2"; "CHISQ2"; "N2"; "MAF2"; "INFO2"; "SNP"].
Proof. reflexivity. Qed.

(** What [betaprod] has checked and computed when it returns, in terms of
    the columns of the file. *)
Lemma betaprod_spec fs fh f t i :
  fs fh = Some f → betaprod chdtri fs fh = Ok t → i ∈ ["1"; "2"] →
  ∃ n dir chisq,
    file_int f ("N" +:+ i) = Ok n ∧ check_N n = Ok tt ∧
    file_int f ("DIR" +:+ i) = Ok dir ∧ check_dir dir = Ok tt ∧
    ((file_float f ("CHISQ" +:+ i) = Ok chisq ∧ check_chisq chisq = Ok tt ∧
      getitem t ("P" +:+ i) = getitem f ("P" +:+ i) ≫= coerce DFloat)
     ∨ ((("CHISQ" +:+ i) ∉ columns f) ∧
        ∃ p, file_float f ("P" +:+ i) = Ok p ∧ check_pvalue p = Ok tt ∧
             chisq = chdtri F.one <$> p)) ∧
    getitem t ("BETAHAT" +:+ i)
    = Ok (CFloat (betahat chisq (F.of_Z <$> n) dir)) ∧
    (("DIR" +:+ i) ∉ columns t).
Proof.
  intros Hf H Hi.
  destruct (betaprod_inv _ _ _ _ Hf H) as (x & snp & Hx & _ & _ & Hloop).
  assert (Hnew : ∀ m, m ∉ betaprod_usecols → m ∉ columns x).
  { intros m Hm Hin. apply Hm.
    apply (read_csv_columns _ _ _ _ _ Hx) in Hin.
    by apply list_elem_of_filter in Hin as [_ ?]. }
  destruct (betaprod_loop_spec x t i Hloop)
    as (n & dir & c & Hn & HN & Hd & HD & Hbr & Hb & Hdir); try done.
  { apply Hnew. rewrite betaprod_usecols_eq. labels_ne. }
  { apply Hnew. rewrite betaprod_usecols_eq. labels_ne. }
  assert (HU : ∀ m, m ∈ ["N" +:+ i; "DIR" +:+ i; "CHISQ" +:+ i; "P" +:+ i] →
                    m ∈ betaprod_usecols ∧ has_dot m = false).
  { intros m Hm. rewrite betaprod_usecols_eq.
    apply elem_of_12 in Hi as [-> | ->];
      repeat (apply elem_of_cons in Hm as [->|Hm]; [split; [labels_in|done]|]);
      by apply elem_of_nil in Hm. }
  assert (HdN : betaprod_dtype_dict !! ("N" +:+ i) = Some DInt)
    by (by apply elem_of_12 in Hi as [-> | ->]).
  assert (HdD : betaprod_dtype_dict !! ("DIR" +:+ i) = Some DInt)
    by (by apply elem_of_12 in Hi as [-> | ->]).
  assert (HdC : betaprod_dtype_dict !! ("CHISQ" +:+ i) = Some DFloat)
    by (by apply elem_of_12 in Hi as [-> | ->]).
  assert (HdP : betaprod_dtype_dict !! ("P" +:+ i) = Some DFloat)
    by (by apply elem_of_12 in Hi as [-> | ->]).
  destruct (HU ("N" +:+ i)) as [HUN HdotN]; [labels_in|].
  destruct (HU ("DIR" +:+ i)) as [HUD HdotD]; [labels_in|].
  destruct (HU ("CHISQ" +:+ i)) as [HUC HdotC]; [labels_in|].
  destruct (HU ("P" +:+ i)) as [HUP HdotP]; [labels_in|].
  exists n, dir, c. split_and!; try done.
  - by rewrite <-(read_csv_get_int _ _ _ _ _ Hx HUN HdotN HdN).
  - by rewrite <-(read_csv_get_int _ _ _ _ _ Hx HUD HdotD HdD).
  - destruct Hbr as [(Hc & Hchk & Hfr)|(Hc & p & Hp & Hchk & ->)].
    + left. split_and!; try done.
      * by rewrite <-(read_csv_get_float _ _ _ _ _ Hx HUC HdotC HdC).
      * rewrite Hfr, (read_csv_getitem _ _ _ _ _ Hx HUP HdotP).
        unfold coerce_by. by rewrite HdP.
    + right. split.
      * by rewrite <-(read_csv_has_column _ _ _ _ _ Hx HUC HdotC).
      * exists p. split_and!; try done.
        by rewrite <-(read_csv_get_float _ _ _ _ _ Hx HUP HdotP HdP).
Qed.


End BetaprodProps.

(** ** Identifiers *)

Lemma get_str_inv (x : frame) (m : string) (l : list string) :
  get_str x m = Ok l → getitem x m = Ok (CStr l).
Proof.
  unfold get_str. intros H. inv_bind H as c Hc.
  destruct c; try done. by injection H as ->.
Qed.

Lemma getitem_mask_rows (ii : list bool) (x : frame) (m : string) (c : column) :
  getitem x m = Ok c → getitem (mask_rows ii x) m = Ok (mask_col ii c).
Proof.
  induction x as [|[n' c'] x IH]; simpl; [done|].
  destruct (decide (n' = m)); [by intros [= ->]|done].
Qed.

Lemma mask_list_not_dot (l : list string) :
  mask_list ((λ s, negb (bool_decide (s = "."))) <$> l) l
  = filter (λ s, s ≠ ".") l.
Proof.
  induction l as [|s l IH]; [done|].
  rewrite fmap_cons, filter_cons. cbn [mask_list]. rewrite IH.
  destruct (decide (s = ".")) as [->|Hs].
  - by rewrite decide_False by (by intros ?).
  - by rewrite bool_decide_eq_false_2, decide_True.
Qed.

Lemma chisq_keeps_rsids (chdtri : float → float → float) fs fh f t :
  fs fh = Some f → chisq chdtri fs fh = Ok t →
  ∃ snp, file_str f "SNP" = Ok snp ∧ check_rsid snp = Ok tt
         ∧ getitem t "SNP" = Ok (CStr snp).
Proof.
  intros Hf H. destruct (chisq_inv _ _ _ _ _ Hf H) as (x & Hx & Ht).
  destruct (chisq_frame_inv _ _ _ Ht)
    as (n & snp & x' & _ & _ & Hsnp & Hchk & Hget & _ & Hbr).
  exists snp. split_and!; try done.
  - rewrite <-(read_csv_get_str _ _ _ _ "SNP" Hx); [done|labels_in|done..].
  - apply get_str_inv in Hsnp. rewrite <-Hget in Hsnp by done.
    destruct (decide ("P" ∈ columns x)).
    + destruct Hbr as (p & _ & _ & ->).
      by rewrite getitem_rename_ne, getitem_setitem_ne.
    + by destruct Hbr as (c & _ & _ & ->).
Qed.

Lemma betaprod_keeps_rsids (chdtri : float → float → float) fs fh f t :
  fs fh = Some f → betaprod chdtri fs fh = Ok t →
  ∃ snp, file_str f "SNP" = Ok snp ∧ check_rsid snp = Ok tt
         ∧ getitem t "SNP" = Ok (CStr snp).
Proof.
  intros Hf H.
  destruct (betaprod_inv _ _ _ _ _ Hf H) as (x & snp & Hx & Hsnp & Hchk & Hl).
  exists snp. split_and!; try done.
  - rewrite <-(read_csv_get_str _ _ _ _ "SNP" Hx); [done| |done..].
    rewrite betaprod_usecols_eq. labels_in.
  - assert (Hnew : ∀ m, m ∉ betaprod_usecols → m ∉ columns x).
    { intros m Hm Hin. apply Hm.
      apply (read_csv_columns _ _ _ _ _ Hx) in Hin.
      by apply list_elem_of_filter in Hin as [_ ?]. }
    cbn [for_each] in Hl. inv_bind Hl as x1 H1. inv_bind Hl as t' H2.
    injection Hl as ->.
    assert (Hf1 : "BETAHAT1" ∉ columns x).
    { apply Hnew. rewrite betaprod_usecols_eq. labels_ne. }
    pose proof (betaprod_body_frame _ _ _ _ H1 Hf1) as Hfr1.
    assert (Hf2 : "BETAHAT2" ∉ columns x1).
    { apply not_columns_getitem. rewrite Hfr1 by labels_ne.
      apply not_columns_getitem, Hnew.
      rewrite betaprod_usecols_eq. labels_ne. }
    pose proof (betaprod_body_frame _ _ _ _ H2 Hf2) as Hfr2.
    rewrite Hfr2, Hfr1 by labels_ne. by apply get_str_inv.
Qed.


(** ** Rows *)

Lemma coerce_col_length (d : dtype) (c c' : column) :
  coerce d c = Ok c' → col_length c' = col_length c.
Proof.
  destruct d, c; intros [= <-]; try done.
  unfold col_length. simpl. by rewrite !length_fmap.
Qed.

Lemma rectangular_getitem (rows : nat) (f : frame) (m : string) (c : column) :
  rectangular rows f → getitem f m = Ok c → col_length c = rows.
Proof.
  intros Hr Hc%getitem_Ok_elem_of. unfold rectangular in Hr.
  rewrite Forall_forall in Hr. by apply (Hr (m, c)).
Qed.

Lemma file_int_length (rows : nat) (f : file) (m : string) (l : list Z) :
  rectangular rows f → file_int f m = Ok l → length l = rows.
Proof.
  intros Hr H. unfold file_int in H. inv_bind H as c' Hc'.
  inv_bind Hc' as c Hc. destruct c'; try done. injection H as ->.
  rewrite <-(rectangular_getitem _ _ _ _ Hr Hc).
  rewrite <-(coerce_col_length _ _ _ Hc'). unfold col_length. simpl.
  by rewrite length_fmap.
Qed.

Lemma file_float_length (rows : nat) (f : file) (m : string) (l : list float) :
  rectangular rows f → file_float f m = Ok l → length l = rows.
Proof.
  intros Hr H. unfold file_float in H. inv_bind H as c' Hc'.
  inv_bind Hc' as c Hc. destruct c'; try done. injection H as ->.
  rewrite <-(rectangular_getitem _ _ _ _ Hr Hc).
  rewrite <-(coerce_col_length _ _ _ Hc'). unfold col_length. simpl.
  by rewrite length_fmap.
Qed.

(** Division by a zero sample size: the effect size is infinite or NaN. *)
Lemma betahat_zero_N_not_finite (c d : float) :
  F.is_finite (F.mul (F.sqrt (F.div c (F.of_Z 0))) d) = false.
Proof. by float_cases c; float_cases d. Qed.

(** ** The store of DataFrames *)

Section StoreFrame.

Variable σ0 : gmap loc frame.

Lemma keeps_ret {A} (a : A) (Q : A → Prop) : Q a → keeps σ0 (mret a) Q.
Proof. intros HQ σ Hσ. split; [done|]. by intros a' [= <-]. Qed.

Lemma keeps_lift {A} (r : result A) (Q : A → Prop) :
  (∀ a, r = Ok a → Q a) → keeps σ0 (lift r) Q.
Proof. intros HQ σ Hσ. by split. Qed.

Lemma keeps_lift_True {A} (r : result A) : keeps σ0 (lift r) (λ _, True).
Proof. by apply keeps_lift. Qed.

Lemma keeps_weaken {A} (m : st A) (Q R : A → Prop) :
  keeps σ0 m Q → (∀ a, Q a → R a) → keeps σ0 m R.
Proof.
  intros Hm HQR σ Hσ. destruct (Hm σ Hσ) as [H1 H2]. split; [done|].
  intros a Ha. auto.
Qed.

Lemma keeps_bind {A B} (m : st A) (f : A → st B) (Q : A → Prop)
    (R : B → Prop) :
  keeps σ0 m Q → (∀ a, Q a → keeps σ0 (f a) R) → keeps σ0 (m ≫= f) R.
Proof.
  intros Hm Hf σ Hσ. destruct (Hm σ Hσ) as [H1 H2].
  unfold mbind, st_bind. destruct (m σ) as [[a|e] σ1]; simpl in *.
  - by apply (Hf a (H2 a eq_refl)).
  - by split.
Qed.

Lemma keeps_read (ℓ : loc) : keeps σ0 (df_read ℓ) (λ _, True).
Proof. intros σ Hσ. unfold df_read. by destruct (σ !! ℓ). Qed.

Lemma keeps_new (x : frame) : keeps σ0 (df_new x) (λ ℓ, σ0 !! ℓ = None).
Proof.
  intros σ Hσ. unfold df_new. simpl.
  assert (σ0 !! fresh (dom σ) = None) as Hfresh.
  { eapply lookup_weaken_None; [|done].
    apply not_elem_of_dom, is_fresh. }
  split; [by apply insert_subseteq_r|]. by intros a [= <-].
Qed.

Lemma keeps_write (ℓ : loc) (x : frame) :
  σ0 !! ℓ = None → keeps σ0 (df_write ℓ x) (λ _, True).
Proof.
  intros Hℓ σ Hσ. unfold df_write. simpl. split; [|done].
  by apply insert_subseteq_r.
Qed.

Lemma keeps_iloc_col (ℓ : loc) (i : Z) :
  keeps σ0 (df_iloc_col ℓ i) (λ ℓ', σ0 !! ℓ' = None).
Proof.
  unfold df_iloc_col. eapply keeps_bind; [apply keeps_read|].
  intros x _. destruct (_ ≫= _) as [nc|].
  - apply keeps_new.
  - by apply keeps_lift.
Qed.

Lemma keeps_setitem_true (ℓ : loc) (name : string) :
  σ0 !! ℓ = None → keeps σ0 (df_setitem_true ℓ name) (λ _, True).
Proof.
  intros Hℓ. unfold df_setitem_true.
  eapply keeps_bind; [apply keeps_read|]. intros x _. by apply keeps_write.
Qed.

Lemma keeps_merge_left (left right : loc) (l r : string) :
  keeps σ0 (df_merge_left left right l r) (λ _, True).
Proof.
  unfold df_merge_left.
  eapply keeps_bind; [apply keeps_read|]. intros x _.
  eapply keeps_bind; [apply keeps_read|]. intros y _.
  eapply keeps_bind; [apply keeps_lift_True|]. intros z _.
  eapply keeps_weaken; [apply keeps_new|done].
Qed.

(** [loj] writes to the DataFrames it creates only. *)
Lemma keeps_loj (self : IDContainer.t) (externalDf : loc) :
  keeps σ0 (IDContainer.loj self externalDf) (λ _, True).
Proof.
  unfold IDContainer.loj.
  eapply keeps_bind; [apply keeps_read|]. intros ext _.
  eapply keeps_bind; [apply keeps_lift_True|]. intros r _.
  eapply keeps_bind; [apply keeps_read|]. intros ids _.
  eapply keeps_bind; [apply keeps_lift_True|]. intros l _.
  eapply keeps_bind; [apply keeps_iloc_col|]. intros merge_df Hfresh.
  eapply keeps_bind; [by apply keeps_setitem_true|]. intros [] _.
  eapply keeps_bind; [apply keeps_merge_left|]. intros z _.
  eapply keeps_bind; [apply keeps_read|]. intros zf _.
  eapply keeps_bind; [apply keeps_lift_True|]. intros keep _.
  by apply keeps_ret.
Qed.

End StoreFrame.

(** An object that does not exist is not created by [loj]. *)
Lemma loj_absent (self : IDContainer.t) (externalDf : loc)
    (σ : gmap loc frame) (ℓ : loc) :
  ℓ = externalDf ∨ ℓ = IDContainer.IDList self →
  σ !! ℓ = None →
  (IDContainer.loj self externalDf σ).2 = σ.
Proof.
  intros Hℓ Hnone. unfold IDContainer.loj, mbind, st_bind.
  unfold df_read at 1.
  destruct (σ !! externalDf) as [ext|] eqn:Hext; [|done].
  destruct Hℓ as [-> | ->]; [congruence|].
  unfold lift at 1. destruct (columns ext !! 0%nat); [|done].
  unfold df_read at 1. by rewrite Hnone.
Qed.

Lemma loj_lookup (self : IDContainer.t) (externalDf : loc)
    (σ : gmap loc frame) (ℓ : loc) :
  ℓ = externalDf ∨ ℓ = IDContainer.IDList self →
  (IDContainer.loj self externalDf σ).2 !! ℓ = σ !! ℓ.
Proof.
  intros Hℓ. destruct (σ !! ℓ) as [x|] eqn:Hx.
  - destruct (keeps_loj σ self externalDf σ) as [Hsub _]; [done|].
    by eapply lookup_weaken.
  - by rewrite (loj_absent _ _ _ ℓ).
Qed.

(** ** [loj] on string identifiers *)

Lemma nonzero_from_match (a : string) (keys : list string) (k : nat) :
  NoDup keys →
  ((a ∉ keys) ∧ nonzero_from k ((λ s, bool_decide (a = s)) <$> keys) = [])
  ∨ (a ∈ keys ∧ ∃ j, (j < length keys)%nat
       ∧ nonzero_from k ((λ s, bool_decide (a = s)) <$> keys) = [(k + j)%nat]).
Proof.
  intros Hnd. revert k. induction Hnd as [|s keys Hs Hnd IH]; intros k.
  - left. split; [apply not_elem_of_nil|done].
  - rewrite fmap_cons. cbn [nonzero_from].
    destruct (decide (a = s)) as [->|Hne].
    + rewrite bool_decide_eq_true_2 by done. right. split; [left|].
      exists 0%nat. split; [simpl; lia|].
      destruct (IH (S k)) as [[_ ->]|[Hin _]]; [|done].
      by rewrite Nat.add_0_r.
    + rewrite bool_decide_eq_false_2 by done.
      destruct (IH (S k)) as [[Hnin ->]|[Hin (j & Hj & ->)]].
      * left. split; [|done]. by apply not_elem_of_cons.
      * right. split; [by right|]. exists (S j). split; [simpl; lia|].
        f_equal. lia.
Qed.

Lemma kept_Some (n j : nat) : (j < n)%nat → kept n (Some j) = true.
Proof.
  intros Hj. unfold kept. simpl.
  rewrite list_lookup_fmap, lookup_replicate_2 by done. done.
Qed.

Lemma kept_None (n : nat) : kept n None = false.
Proof. done. Qed.

Lemma mjoin_imap_kept (n : nat) (keys ids : list string)
    (h : nat → string → list (nat * option nat)) :
  (∀ i a, kept n <$> (h i a).*2 = [bool_decide (a ∈ keys)]) →
  kept n <$> (mjoin (imap h ids)).*2
  = (λ s, bool_decide (s ∈ keys)) <$> ids.
Proof.
  revert h. induction ids as [|a ids IH]; intros h Hh; [done|].
  change (imap h (a :: ids)) with (h 0%nat a :: imap (h ∘ S) ids).
  cbn [mjoin list_join]. rewrite !fmap_app, Hh, fmap_cons.
  rewrite IH; [done|]. intros i b. apply Hh.
Qed.

Lemma left_join_rows_kept (ids keys : list string) :
  NoDup keys →
  kept (length keys) <$> (left_join_rows (VStr <$> ids) (VStr <$> keys)).*2
  = (λ s, bool_decide (s ∈ keys)) <$> ids.
Proof.
  intros Hnd. unfold left_join_rows. rewrite imap_fmap.
  apply mjoin_imap_kept. intros i a. unfold compose, nonzero.
  rewrite <-(list_fmap_compose VStr (key_match (VStr a))).
  change (key_match (VStr a) ∘ VStr) with (λ s, bool_decide (a = s)).
  destruct (nonzero_from_match a keys 0 Hnd)
    as [[Hnin ->]|[Hin (j & Hj & ->)]].
  - by rewrite bool_decide_eq_false_2.
  - rewrite bool_decide_eq_true_2 by done. simpl. by rewrite kept_Some.
Qed.

(** Splits the hypotheses [m ∈ [a; b; ...]] into their cases. *)
Ltac split_elem_of :=
  repeat match goal with
  | H : _ ∈ _ :: _ |- _ => apply elem_of_cons in H as [H|H]
  | H : _ ∈ [] |- _ => by apply elem_of_nil in H
  end.

(** The merge of [loj], when neither side is labelled keep. *)
Lemma merge_keep (l r : string) (ids keys : list string) :
  l ≠ "keep" → r ≠ "keep" → NoDup keys →
  ∃ z keep,
    pd_merge_left [(l, CStr ids)]
      [(r, CStr keys); ("keep", CBool (replicate (length keys) true))] l r
    = Ok z
    ∧ getitem z "keep" = Ok keep
    ∧ cell_eq_True <$> cells keep = (λ s, bool_decide (s ∈ keys)) <$> ids.
Proof.
  intros Hl Hr Hnd. unfold pd_merge_left. cbn [getitem].
  rewrite (decide_True (P := l = l)), (decide_True (P := r = r)) by done.
  cbn [mbind result_bind cells].
  set (rows := left_join_rows (VStr <$> ids) (VStr <$> keys)).
  eexists _, (take_col_na rows.*2 (CBool (replicate (length keys) true))).
  split_and!; [done| |].
  - rewrite !filter_cons, filter_nil. unfold columns. simpl.
    repeat case_decide; simpl in *; repeat case_decide;
      split_elem_of; simplify_eq; done.
  - unfold take_col_na, cells at 1. rewrite <-list_fmap_compose.
    by rewrite <-(left_join_rows_kept ids keys Hnd).
Qed.

Lemma run_bind {A B} (m : st A) (f : A → st B) (σ : gmap loc frame) :
  (m ≫= f) σ = match m σ with
               | (Ok a, σ') => f a σ'
               | (Raise e, σ') => (Raise e, σ')
               end.
Proof. reflexivity. Qed.

Lemma df_read_Some (ℓ : loc) (σ : gmap loc frame) (x : frame) :
  σ !! ℓ = Some x → df_read ℓ σ = (Ok x, σ).
Proof. intros H. unfold df_read. by rewrite H. Qed.

Lemma df_iloc_col_0 (ℓ : loc) (σ : gmap loc frame) nc (rest : frame) :
  σ !! ℓ = Some (nc :: rest) →
  df_iloc_col ℓ 0 σ = (Ok (fresh (dom σ)), <[fresh (dom σ) := [nc]]> σ).
Proof.
  intros H. unfold df_iloc_col. rewrite run_bind, (df_read_Some _ _ _ H).
  unfold py_index. rewrite decide_True by (simpl length; lia). done.
Qed.

Lemma df_setitem_true_Some (ℓ : loc) (σ : gmap loc frame) (x : frame)
    (name : string) :
  σ !! ℓ = Some x →
  df_setitem_true ℓ name σ
  = (Ok tt, <[ℓ := setitem x name (CBool (replicate (nrows x) true))]> σ).
Proof.
  intros H. unfold df_setitem_true. by rewrite run_bind, (df_read_Some _ _ _ H).
Qed.

(** With string identifiers and no column labelled keep, [loj] returns the
    positions of the elements of [IDList] that occur in the first column of
    the external DataFrame. *)
Lemma loj_positions (self : IDContainer.t) (externalDf : loc)
    (σ : gmap loc frame) (l r : string) (ids keys : list string)
    (rest : frame) :
  σ !! IDContainer.IDList self = Some [(l, CStr ids)] →
  σ !! externalDf = Some ((r, CStr keys) :: rest) →
  l ≠ "keep" → r ≠ "keep" → NoDup keys →
  (IDContainer.loj self externalDf σ).1
  = Ok (nonzero ((λ s, bool_decide (s ∈ keys)) <$> ids)).
Proof.
  intros Hids Hext Hl Hr Hnd.
  destruct (merge_keep l r ids keys Hl Hr Hnd)
    as (z & keep & Hz & Hkeep & Hii).
  unfold IDContainer.loj.
  rewrite run_bind, (df_read_Some _ _ _ Hext). cbv beta iota.
  rewrite run_bind. unfold lift at 1.
  change (columns ((r, CStr keys) :: rest) !! 0%nat) with (Some r).
  cbv beta iota.
  rewrite run_bind, (df_read_Some _ _ _ Hids). cbv beta iota.
  rewrite run_bind. unfold lift at 1.
  change (columns [(l, CStr ids)] !! 0%nat) with (Some l).
  cbv beta iota.
  rewrite run_bind, (df_iloc_col_0 _ _ _ _ Hext). cbv beta iota.
  set (ℓ1 := fresh (dom σ)).
  assert (Hℓ1 : σ !! ℓ1 = None) by apply not_elem_of_dom, is_fresh.
  rewrite run_bind.
  rewrite (df_setitem_true_Some _ _ [(r, CStr keys)])
    by apply lookup_insert_eq.
  cbv beta iota. rewrite insert_insert_eq.
  replace (setitem [(r, CStr keys)] "keep"
             (CBool (replicate (nrows [(r, CStr keys)]) true)))
    with [(r, CStr keys); ("keep", CBool (replicate (length keys) true))].
  2:{ unfold setitem, nrows, col_length. simpl.
      rewrite decide_False by (by intros ?%list_elem_of_singleton).
      by rewrite length_fmap. }
  rewrite run_bind. unfold df_merge_left.
  rewrite run_bind, (df_read_Some _ _ [(l, CStr ids)]).
  2:{ rewrite lookup_insert_ne; [done|]. intros Heq. rewrite <-Heq in Hids.
      congruence. }
  cbv beta iota.
  rewrite run_bind,
    (df_read_Some _ _ [(r, CStr keys);
                       ("keep", CBool (replicate (length keys) true))])
    by apply lookup_insert_eq.
  cbv beta iota.
  rewrite run_bind. unfold lift at 1. rewrite Hz. cbv beta iota.
  unfold df_new at 1. cbv beta iota zeta.
  rewrite run_bind, (df_read_Some _ _ z) by apply lookup_insert_eq.
  cbv beta iota.
  rewrite run_bind. unfold lift at 1. rewrite Hkeep. cbv beta iota.
  simpl. by rewrite Hii.
Qed.

Lemma elem_of_nonzero_from (ii : list bool) (k i : nat) :
  i ∈ nonzero_from k ii ↔ (k ≤ i)%nat ∧ ii !! (i - k)%nat = Some true.
Proof.
  revert k. induction ii as [|b ii IH]; intros k; cbn [nonzero_from].
  - rewrite elem_of_nil. split; [done|]. by intros [_ ?].
  - assert (∀ j, (S k ≤ j)%nat → (b :: ii) !! (j - k)%nat = ii !! (j - S k)%nat)
      as Hshift.
    { intros j Hj. by replace (j - k)%nat with (S (j - S k)) by lia. }
    destruct b.
    + rewrite elem_of_cons, IH. split.
      * intros [->|[Hle Hi]].
        -- split; [done|]. by rewrite Nat.sub_diag.
        -- split; [lia|]. by rewrite Hshift.
      * intros [Hle Hi]. destruct (decide (i = k)) as [->|Hne]; [by left|].
        right. split; [lia|]. rewrite <-Hshift; [done|lia].
    + rewrite IH. split.
      * intros [Hle Hi]. split; [lia|]. by rewrite Hshift.
      * intros [Hle Hi]. destruct (decide (i = k)) as [->|Hne].
        -- by rewrite Nat.sub_diag in Hi.
        -- split; [lia|]. rewrite <-Hshift; [done|lia].
Qed.

Lemma elem_of_nonzero (ii : list bool) (i : nat) :
  i ∈ nonzero ii ↔ ii !! i = Some true.
Proof.
  unfold nonzero. rewrite elem_of_nonzero_from, Nat.sub_0_r.
  split; [by intros [_ ?]|]. split; [lia|done].
Qed.

Lemma nonzero_from_sorted (ii : list bool) (k : nat) :
  StronglySorted lt (nonzero_from k ii).
Proof.
  revert k. induction ii as [|b ii IH]; intros k; cbn [nonzero_from].
  - constructor.
  - destruct b; [|apply IH]. constructor; [apply IH|].
    apply Forall_forall. intros i [Hi _]%elem_of_nonzero_from. lia.
Qed.

(** The positions returned are increasing, and are exactly the positions of
    the identifiers of [IDList] that occur in the external column. *)
Lemma loj_positions_spec (self : IDContainer.t) (externalDf : loc)
    (σ : gmap loc frame) (l r : string) (ids keys : list string)
    (rest : frame) :
  σ !! IDContainer.IDList self = Some [(l, CStr ids)] →
  σ !! externalDf = Some ((r, CStr keys) :: rest) →
  l ≠ "keep" → r ≠ "keep" → NoDup keys →
  ∃ idx, (IDContainer.loj self externalDf σ).1 = Ok idx
         ∧ StronglySorted lt idx
         ∧ ∀ i, i ∈ idx ↔ ∃ s, ids !! i = Some s ∧ s ∈ keys.
Proof.
  intros Hids Hext Hl Hr Hnd. eexists. split_and!.
  - by eapply loj_positions.
  - apply nonzero_from_sorted.
  - intros i. rewrite elem_of_nonzero, list_lookup_fmap.
    destruct (ids !! i) as [s|]; simpl.
    + split.
      * intros [= H%bool_decide_eq_true]. by exists s.
      * intros (s' & [= <-] & Hin). by rewrite bool_decide_eq_true_2.
    + split; [done|]. by intros (s' & ? & _).
Qed.

(** * The claims *)

(** C6: [check_pvalue] raises [ValueError] exactly when its input holds a
    NaN, a value greater than 1 or a value less than or equal to 0; a column
    passes exactly when every entry lies in (0, 1]. *)
Theorem check_pvalue_spec (P : list float) :
  (raises_ValueError (check_pvalue P) ↔
   Exists (λ p, F.is_nan p = true ∨ F.gtb p F.one = true
                ∨ F.leb p F.zero = true) P)
  ∧ (check_pvalue P = Ok tt ↔
     Forall (λ p, F.ltb F.zero p = true ∧ F.leb p F.one = true) P).
Proof.
  split.
  - apply check_pvalue_raises.
  - apply check_pvalue_Ok.
Qed.

(** C2: for a file with a P column that [chisq] accepts, every P value lies
    in (0, 1], and the returned table holds, under the label CHISQ, the column
    of [chdtri(1, p)] for the P values [p]; no column is labelled P any
    more. *)
Theorem chisq_P_to_CHISQ (chdtri : float → float → float)
    (fs : filesystem) (fh : string) (f : file) (p : list float) (t : frame) :
  fs fh = Some f →
  file_float f "P" = Ok p →
  chisq chdtri fs fh = Ok t →
  Forall in_unit_interval p
  ∧ ("P" ∉ columns t)
  ∧ ("CHISQ", CFloat (chdtri F.one <$> p)) ∈ t
  ∧ (∀ k v, p !! k = Some v →
            (chdtri F.one <$> p) !! k = Some (chdtri F.one v)).
Proof.
  intros Hf Hp H.
  destruct (chisq_P_branch _ _ _ _ _ _ Hf Hp H) as (x & x' & _ & _ & Hchk & ->).
  split_and!.
  - by apply check_pvalue_Ok.
  - by apply columns_rename_old.
  - apply elem_of_rename_old, elem_of_setitem.
  - intros k v Hk. by rewrite list_lookup_fmap, Hk.
Qed.

Lemma chisq_P_to_CHISQ_witness :
  Forall in_unit_interval [F.one; F.one]
  ∧ ("P" ∉ columns [("SNP", CStr ["rs1"; "rs2"]);
                     ("N", CFloat (F.of_Z <$> [100; 250]));
                     ("CHISQ", CFloat [F.zero; F.zero])])
  ∧ ("CHISQ", CFloat (Ex.chdtri F.one <$> [F.one; F.one]))
      ∈ [("SNP", CStr ["rs1"; "rs2"]);
         ("N", CFloat (F.of_Z <$> [100; 250]));
         ("CHISQ", CFloat [F.zero; F.zero])]
  ∧ (∀ k v, [F.one; F.one] !! k = Some v →
            (Ex.chdtri F.one <$> [F.one; F.one]) !! k
            = Some (Ex.chdtri F.one v)).
Proof.
  apply (chisq_P_to_CHISQ Ex.chdtri Ex.chisq_fs "trait.chisq" Ex.chisq_file).
  - reflexivity.
  - reflexivity.
  - vm_compute. reflexivity.
Defined.

(** C3: when [betaprod] returns, for each phenotype i in {1, 2} the returned
    table has a column BETAHATi equal elementwise to
    [sqrt(CHISQi / Ni) * DIRi], where CHISQi is the file's column, or
    [chdtri(1, Pi)] when the file has no CHISQi column; the table has no
    column DIRi. *)
Theorem betaprod_betahat (chdtri : float → float → float)
    (fs : filesystem) (fh : string) (f : file) (t : frame) (i : string) :
  fs fh = Some f →
  betaprod chdtri fs fh = Ok t →
  i ∈ ["1"; "2"] →
  ∃ n dir chisq b,
    file_int f ("N" +:+ i) = Ok n ∧
    file_int f ("DIR" +:+ i) = Ok dir ∧
    (file_float f ("CHISQ" +:+ i) = Ok chisq
     ∨ ((("CHISQ" +:+ i) ∉ columns f) ∧
        ∃ p, file_float f ("P" +:+ i) = Ok p ∧ chisq = chdtri F.one <$> p)) ∧
    getitem t ("BETAHAT" +:+ i) = Ok (CFloat b) ∧
    b = betahat chisq (F.of_Z <$> n) dir ∧
    (∀ k c nk d,
       chisq !! k = Some c → n !! k = Some nk → dir !! k = Some d →
       b !! k = Some (F.mul (F.sqrt (F.div c (F.of_Z nk))) (F.of_Z d))) ∧
    (("DIR" +:+ i) ∉ columns t).
Proof.
  intros Hf H Hi.
  destruct (betaprod_spec chdtri _ _ _ _ _ Hf H Hi)
    as (n & dir & c & Hn & _ & Hd & _ & Hbr & Hb & Hdir).
  exists n, dir, c, (betahat c (F.of_Z <$> n) dir). split_and!; try done.
  - destruct Hbr as [(Hc & _)|(Hc & p & Hp & _ & ->)]; [by left|].
    right. split; [done|]. by exists p.
  - intros k c' nk d Hc' Hnk Hd'. apply betahat_lookup; try done.
    by rewrite list_lookup_fmap, Hnk.
Qed.

Lemma betaprod_betahat_witness :
  ∃ n dir chisq b,
    file_int Ex.betaprod_file "N1" = Ok n ∧
    file_int Ex.betaprod_file "DIR1" = Ok dir ∧
    (file_float Ex.betaprod_file "CHISQ1" = Ok chisq
     ∨ (("CHISQ1" ∉ columns Ex.betaprod_file) ∧
        ∃ p, file_float Ex.betaprod_file "P1" = Ok p
             ∧ chisq = Ex.chdtri F.one <$> p)) ∧
    getitem Ex.betaprod_table "BETAHAT1" = Ok (CFloat b) ∧
    b = betahat chisq (F.of_Z <$> n) dir ∧
    (∀ k c nk d,
       chisq !! k = Some c → n !! k = Some nk → dir !! k = Some d →
       b !! k = Some (F.mul (F.sqrt (F.div c (F.of_Z nk))) (F.of_Z d))) ∧
    ("DIR1" ∉ columns Ex.betaprod_table).
Proof.
  apply (betaprod_betahat Ex.chdtri Ex.betaprod_fs "pair.betaprod"
           Ex.betaprod_file Ex.betaprod_table "1").
  - reflexivity.
  - vm_compute. reflexivity.
  - apply elem_of_cons. left. reflexivity.
Defined.

(** C7: [check_dir] raises [ValueError] exactly when some entry is neither
    +1 nor -1; [betaprod] returns only when DIR1 and DIR2 both pass, and in
    each pass of its loop the check of DIRi comes before the effect sizes:
    a bad DIRi raises whatever the CHISQi and Pi columns hold. *)
Theorem check_dir_spec (chdtri : float → float → float) :
  (∀ dir, raises_ValueError (check_dir dir)
          ↔ Exists (λ d, d ≠ 1 ∧ d ≠ -1) dir)
  ∧ (∀ fs fh f t i,
       fs fh = Some f → betaprod chdtri fs fh = Ok t → i ∈ ["1"; "2"] →
       ∃ dir, file_int f ("DIR" +:+ i) = Ok dir
              ∧ Forall (λ d, d = 1 ∨ d = -1) dir)
  ∧ (∀ x i n dir,
       get_int x ("N" +:+ i) = Ok n → check_N n = Ok tt →
       get_int x ("DIR" +:+ i) = Ok dir →
       Exists (λ d, d ≠ 1 ∧ d ≠ -1) dir →
       betaprod_body chdtri x i
       = Raise (ValueError "DIR entry not equal to +/- 1.")).
Proof.
  split_and!.
  - intros dir. rewrite <-check_dir_raises. split; [|by eexists].
    intros [msg H]. revert H. rewrite check_dir_unfold.
    by destruct (existsb _ dir).
  - intros fs fh f t i Hf H Hi.
    destruct (betaprod_spec chdtri _ _ _ _ _ Hf H Hi)
      as (n & dir & c & _ & _ & Hd & HD & _).
    exists dir. split; [done|]. by apply check_dir_Ok.
  - intros x i n dir Hn HN Hd Hbad. apply check_dir_raises in Hbad.
    unfold betaprod_body.
    rewrite Hn. cbn [mbind result_bind]. rewrite HN. cbn [mbind result_bind].
    replace (get_int (setitem x ("N" +:+ i) (CFloat (F.of_Z <$> n)))
                     ("DIR" +:+ i)) with (Ok dir : result (list Z)).
    + cbn [mbind result_bind]. by rewrite Hbad.
    + rewrite <-Hd. unfold get_int. by rewrite getitem_setitem_ne by labels_ne.
Qed.

Lemma check_dir_spec_witness :
  ∃ dir, file_int Ex.betaprod_file "DIR2" = Ok dir
         ∧ Forall (λ d, d = 1 ∨ d = -1) dir.
Proof.
  apply (proj1 (proj2 (check_dir_spec Ex.chdtri))
           Ex.betaprod_fs "pair.betaprod" Ex.betaprod_file
           Ex.betaprod_table "2").
  - reflexivity.
  - vm_compute. reflexivity.
  - apply elem_of_cons. right. apply elem_of_cons. left. reflexivity.
Defined.

(** C9: [check_N] raises only on a negative sample size, so 0 passes; when
    [betaprod] returns on a file with a sample size Ni = 0 in some row, the
    BETAHATi of that row is not finite (infinite or NaN). *)
Theorem check_N_zero_betahat (chdtri : float → float → float) :
  (∀ N, raises (check_N N) ↔ Exists (λ n, n < 0) N)
  ∧ (∀ N, check_N N = Ok tt ↔ Forall (λ n, 0 ≤ n) N)
  ∧ (∀ fs fh f t i rows n k,
       fs fh = Some f → rectangular rows f →
       betaprod chdtri fs fh = Ok t → i ∈ ["1"; "2"] →
       file_int f ("N" +:+ i) = Ok n → n !! k = Some 0 →
       ∃ b v, getitem t ("BETAHAT" +:+ i) = Ok (CFloat b)
              ∧ b !! k = Some v ∧ F.is_finite v = false).
Proof.
  split_and!.
  - apply check_N_raises.
  - apply check_N_Ok.
  - intros fs fh f t i rows n k Hf Hrect H Hi Hn Hk.
    destruct (betaprod_spec chdtri _ _ _ _ _ Hf H Hi)
      as (n' & dir & c & Hn' & _ & Hd & _ & Hbr & Hb & _).
    assert (n' = n) as -> by congruence.
    assert (Hlt : (k < rows)%nat).
    { rewrite <-(file_int_length _ _ _ _ Hrect Hn).
      by eapply lookup_lt_Some. }
    assert (length c = rows) as Hlc.
    { destruct Hbr as [(Hc & _)|(_ & p & Hp & _ & ->)].
      - by eapply file_float_length.
      - rewrite length_fmap. by eapply file_float_length. }
    destruct (lookup_lt_is_Some_2 c k) as [ck Hck]; [lia|].
    destruct (lookup_lt_is_Some_2 dir k) as [dk Hdk].
    { by rewrite (file_int_length _ _ _ _ Hrect Hd). }
    eexists _, _. split_and!; [done| |].
    + apply betahat_lookup; [done| |done].
      by rewrite list_lookup_fmap, Hk.
    + apply betahat_zero_N_not_finite.
Qed.

Lemma check_N_zero_betahat_witness :
  ∃ b v, getitem Ex.betaprod_table "BETAHAT1" = Ok (CFloat b)
         ∧ b !! 1%nat = Some v ∧ F.is_finite v = false.
Proof.
  apply (proj2 (proj2 (check_N_zero_betahat Ex.chdtri))
           Ex.betaprod_fs "pair.betaprod" Ex.betaprod_file
           Ex.betaprod_table "1" 2%nat [100; 0] 1%nat).
  - reflexivity.
  - unfold rectangular, Ex.betaprod_file. repeat constructor.
  - vm_compute. reflexivity.
  - apply elem_of_cons. left. reflexivity.
  - reflexivity.
  - reflexivity.
Defined.



(** C5, where the code departs from it: on a MAF column holding 1/8 and
    3/4 the elementwise minimum of m and 1-m is 1/8 and 1/4, which is what
    [chisq] returns; [betaprod] returns 1/8 in both rows, the least value of
    the column. *)
Theorem betaprod_maf_not_folded (chdtri : float → float → float) :
  zip_with np_fmin [Ex.eighth; Ex.three_quarters]
                   (F.sub F.one <$> [Ex.eighth; Ex.three_quarters])
  = [Ex.eighth; Ex.quarter]
  ∧ (∃ t, chisq chdtri Ex.maf_chisq_fs "maf.chisq" = Ok t
          ∧ getitem t "MAF" = Ok (CFloat [Ex.eighth; Ex.quarter]))
  ∧ (∃ t, betaprod chdtri Ex.maf_betaprod_fs "maf.betaprod" = Ok t
          ∧ getitem t "MAF1" = Ok (CFloat [Ex.eighth; Ex.eighth])).
Proof.
  split_and!.
  - vm_compute. reflexivity.
  - eexists. split; vm_compute; reflexivity.
  - eexists. split; vm_compute; reflexivity.
Qed.

(** C8: [loj] leaves the external DataFrame and [self.IDList] as they
    were, and so every DataFrame that existed before the call: it writes only
    to the DataFrames it creates. *)
Theorem loj_leaves_frames_unchanged (self : IDContainer.t) (externalDf : loc)
    (σ : gmap loc frame) :
  (IDContainer.loj self externalDf σ).2 !! externalDf = σ !! externalDf
  ∧ (IDContainer.loj self externalDf σ).2 !! IDContainer.IDList self
    = σ !! IDContainer.IDList self
  ∧ σ ⊆ (IDContainer.loj self externalDf σ).2.
Proof.
  split_and!.
  - apply loj_lookup. by left.
  - apply loj_lookup. by right.
  - by apply (keeps_loj σ self externalDf σ).
Qed.

(** C4, where the code departs from it: the container read from a [.bim]
    file with the identifiers rs1 and rs2 has them at positions 0 and 1 of
    [IDList]; joined with a DataFrame whose first column holds rs2 and rs1,
    [loj] returns both positions when that column is labelled ID, and none
    when it is labelled keep. *)
Theorem loj_keep_label :
  Ex.bim_init.1 = Ok Ex.bim
  ∧ Ex.bim_init.2 !! IDContainer.IDList Ex.bim
    = Some [("SNP", CStr ["rs1"; "rs2"])]
  ∧ Ex.bim_loj [("ID", CStr ["rs2"; "rs1"])] = Ok [0; 1]%nat
  ∧ Ex.bim_loj [("keep", CStr ["rs2"; "rs1"])] = Ok [].
Proof. split_and!; vm_compute; reflexivity. Qed.

(** * Further properties *)

(** ** More on the order of float64 *)

Lemma eqb_inf_np_maximum (a b : float) :
  F.is_nan a = false → F.is_nan b = false →
  F.eqb (np_maximum a b) F.inf = F.eqb a F.inf || F.eqb b F.inf.
Proof.
  unfold np_maximum, F.geb, F.eqb, SFleb, SFeqb.
  float_cases a; float_cases b; simpl; intros H1 H2;
    try discriminate; try reflexivity; cmp_cases.
Qed.

Lemma ltb_np_minimum (a b c : float) :
  F.is_nan a = false → F.is_nan b = false →
  F.ltb (np_minimum a b) c = F.ltb a c || F.ltb b c.
Proof.
  intros Ha Hb. unfold np_minimum. rewrite Ha, orb_false_r.
  destruct (F.leb a b) eqn:Hab.
  - destruct (F.ltb b c) eqn:Hbc; [|by rewrite orb_false_r].
    by rewrite (leb_ltb_trans a b c Hab Hbc).
  - rewrite (leb_negb_ltb a b Ha Hb) in Hab.
    apply negb_false_iff in Hab.
    destruct (F.ltb a c) eqn:Hac; [|done].
    by rewrite (leb_ltb_trans b a c (ltb_leb _ _ Hab) Hac).
Qed.

Lemma eqb_inf_series_max (l : list float) :
  no_nan l → F.eqb (series_max l) F.inf = existsb (λ v, F.eqb v F.inf) l.
Proof.
  intros Hl. unfold series_max. destruct l as [|a l]; [done|].
  rewrite forallb_is_nan_no_nan, fill_no_nan by done.
  apply Forall_cons in Hl as [Ha Hl]. cbn [existsb].
  revert a Ha. induction Hl as [|b l Hb _ IH]; intros a Ha; simpl.
  - by rewrite orb_false_r.
  - rewrite IH by by apply np_maximum_not_nan.
    by rewrite eqb_inf_np_maximum, orb_assoc.
Qed.

Lemma ltb_series_min (l : list float) (c : float) :
  no_nan l → F.ltb (series_min l) c = existsb (λ v, F.ltb v c) l.
Proof.
  intros Hl. unfold series_min. destruct l as [|a l]; [done|].
  rewrite forallb_is_nan_no_nan, fill_no_nan by done.
  apply Forall_cons in Hl as [Ha Hl]. cbn [existsb].
  revert a Ha. induction Hl as [|b l Hb _ IH]; intros a Ha; simpl.
  - by rewrite orb_false_r.
  - rewrite IH by by apply np_minimum_not_nan.
    by rewrite ltb_np_minimum, orb_assoc.
Qed.

Lemma finite_nonneg_not_bad (v : float) : finite_nonneg v → ¬ bad_chisq v.
Proof.
  unfold finite_nonneg, bad_chisq, F.leb, F.ltb, F.eqb, SFleb, SFltb, SFeqb.
  float_cases v; simpl; intros [H0 H1] [Hn|[Hi|Hl]]; discriminate.
Qed.

Lemma not_bad_finite_nonneg (v : float) :
  F.is_nan v = false → F.eqb v F.inf = false → F.ltb v F.zero = false →
  finite_nonneg v.
Proof.
  unfold finite_nonneg, F.leb, F.ltb, F.eqb, SFleb, SFltb, SFeqb.
  float_cases v; simpl; intros Hn Hi Hl; try discriminate; by split.
Qed.

Lemma check_chisq_cases (c : list float) :
  (check_chisq c = Ok tt ∧ Forall finite_nonneg c)
  ∨ (raises_ValueError (check_chisq c) ∧ Exists bad_chisq c).
Proof.
  unfold check_chisq.
  destruct (existsb id (F.is_nan <$> c)) eqn:Hnan.
  { right. split; [by eexists|].
    rewrite existsb_id_fmap in Hnan. apply existsb_Exists in Hnan.
    eapply Exists_impl; [done|]. intros v Hv. by left. }
  pose proof (proj1 (existsb_is_nan_false c) Hnan) as Hnn.
  rewrite eqb_inf_series_max by done.
  destruct (existsb (λ v, F.eqb v F.inf) c) eqn:Hinf.
  { right. split; [by eexists|]. apply existsb_Exists in Hinf.
    eapply Exists_impl; [done|]. intros v Hv. right. by left. }
  rewrite ltb_series_min by done.
  destruct (existsb (λ v, F.ltb v F.zero) c) eqn:Hneg.
  { right. split; [by eexists|]. apply existsb_Exists in Hneg.
    eapply Exists_impl; [done|]. intros v Hv. right. by right. }
  left. split; [done|].
  apply existsb_Forall in Hinf, Hneg. unfold no_nan in Hnn.
  rewrite Forall_forall in Hnn, Hinf, Hneg. apply Forall_forall.
  intros v Hv. apply not_bad_finite_nonneg; auto.
Qed.

Lemma check_chisq_Ok (c : list float) :
  check_chisq c = Ok tt ↔ Forall finite_nonneg c.
Proof.
  destruct (check_chisq_cases c) as [[H1 H2]|[[msg H1] H2]].
  - tauto.
  - split; [rewrite H1; discriminate|].
    intros HF. exfalso. apply Exists_exists in H2 as (v & Hv & Hbad).
    rewrite Forall_forall in HF. by eapply finite_nonneg_not_bad; eauto.
Qed.

(** X1: [check_chisq] accepts a column exactly when every entry is a
    number in [0, inf), and raises [ValueError] exactly when some entry is
    NaN, an infinity or negative; an empty column passes. *)
Theorem check_chisq_spec (c : list float) :
  (check_chisq c = Ok tt ↔
   Forall (λ v, F.leb F.zero v = true ∧ F.ltb v F.inf = true) c)
  ∧ (raises_ValueError (check_chisq c) ↔
     Exists (λ v, F.is_nan v = true ∨ F.eqb v F.inf = true
                  ∨ F.ltb v F.zero = true) c).
Proof.
  split; [apply check_chisq_Ok|].
  destruct (check_chisq_cases c) as [[H1 H2]|[H1 H2]].
  - split; [intros [msg H]; rewrite H1 in H; discriminate|].
    intros HE. exfalso. apply Exists_exists in HE as (v & Hv & Hbad).
    rewrite Forall_forall in H2. by eapply finite_nonneg_not_bad; eauto.
  - by split.
Qed.

(** X2: [check_maf] accepts a column exactly when every entry lies in the
    open interval (0, 1), and raises [ValueError] otherwise: on a NaN, a
    value at least 1 or a value at most 0. *)
Theorem check_maf_spec (maf : list float) :
  (check_maf maf = Ok tt ↔
   Forall (λ m, F.ltb F.zero m = true ∧ F.ltb m F.one = true) maf)
  ∧ (raises_ValueError (check_maf maf) ↔
     ¬ Forall (λ m, F.ltb F.zero m = true ∧ F.ltb m F.one = true) maf).
Proof.
  pose proof (check_maf_Ok maf) as HOk. split; [done|].
  rewrite <-HOk. unfold check_maf.
  destruct (existsb id _); [by split; [|eexists]|].
  destruct (F.geb _ _); [by split; [|eexists]|].
  destruct (F.leb _ _); [by split; [|eexists]|].
  split; [by intros [? ?]|done].
Qed.

(** X3: which error [check_rsid] raises: the one about dots whenever some
    identifier is ".", and the one about duplicates when no identifier is
    "." and two entries are equal. *)
Theorem check_rsid_errors (rsids : list string) :
  (check_rsid rsids
   = Raise (ValueError "Some SNP identifiers are set to . (a dot).")
   ↔ "." ∈ rsids)
  ∧ (check_rsid rsids = Raise (ValueError "Duplicated SNP identifiers.")
     ↔ ("." ∉ rsids) ∧ ¬ NoDup rsids).
Proof.
  unfold check_rsid. rewrite existsb_id_fmap.
  destruct (existsb _ rsids) eqn:Hdot.
  - apply existsb_Exists, Exists_exists in Hdot as (s & Hs & Hd).
    apply bool_decide_eq_true in Hd. subst s.
    split; [done|]. split; [done|]. by intros [? _].
  - assert ("." ∉ rsids) as Hn.
    { intros Hin. apply existsb_Forall in Hdot.
      rewrite Forall_forall in Hdot. specialize (Hdot _ Hin).
      by apply bool_decide_eq_false in Hdot. }
    destruct (existsb id (duplicated rsids)) eqn:Hdup.
    + split; [done|]. split; [intros _|done]. split; [done|].
      intros Hnd%duplicated_NoDup. congruence.
    + apply duplicated_NoDup in Hdup. split; [done|].
      split; [done|]. by intros [_ ?].
Qed.

(** X4: which error [check_pvalue] raises: missing values are reported
    first, then values above 1, then values at or below 0. *)
Theorem check_pvalue_errors (P : list float) :
  (check_pvalue P = Raise (ValueError "Missing P-values")
   ↔ Exists (λ p, F.is_nan p = true) P)
  ∧ (check_pvalue P = Raise (ValueError "P-values cannot be > 1.")
     ↔ Forall (λ p, F.is_nan p = false) P
       ∧ Exists (λ p, F.gtb p F.one = true) P)
  ∧ (check_pvalue P = Raise (ValueError "P values cannot be <= 0")
     ↔ Forall (λ p, F.is_nan p = false ∧ F.gtb p F.one = false) P
       ∧ Exists (λ p, F.leb p F.zero = true) P).
Proof.
  unfold check_pvalue.
  destruct (existsb id (F.is_nan <$> P)) eqn:Hnan.
  { rewrite existsb_id_fmap in Hnan. pose proof Hnan as HE.
    apply existsb_Exists in HE.
    assert (¬ Forall (λ p, F.is_nan p = false) P) as HnF.
    { intros HF%existsb_Forall. congruence. }
    split_and!; split; try done.
    - by intros [? _].
    - intros [HF _]. exfalso. apply HnF.
      eapply Forall_impl; [done|]. by intros p [? _]. }
  pose proof (proj1 (existsb_is_nan_false P) Hnan) as Hnn.
  assert (¬ Exists (λ p, F.is_nan p = true) P) as HnE.
  { rewrite existsb_id_fmap in Hnan. intros HE%existsb_Exists. congruence. }
  rewrite gtb_series_max by done.
  destruct (existsb (λ v, F.gtb v F.one) P) eqn:Hgt.
  { pose proof Hgt as HE. apply existsb_Exists in HE.
    split_and!; split; try done.
    intros [HF _]. exfalso. apply existsb_Exists, Exists_exists in Hgt
      as (p & Hp & Hg).
    rewrite Forall_forall in HF. destruct (HF p Hp) as [_ ?]. congruence. }
  assert (¬ Exists (λ p, F.gtb p F.one = true) P) as HnG.
  { intros HE%existsb_Exists. congruence. }
  rewrite leb_series_min by done.
  destruct (existsb (λ v, F.leb v F.zero) P) eqn:Hle.
  - pose proof Hle as HE. apply existsb_Exists in HE.
    apply existsb_Forall in Hgt.
    split_and!; split; try done; try (by intros [_ ?]).
    intros _. split; [|done].
    unfold no_nan in Hnn. rewrite Forall_forall in Hnn, Hgt.
    apply Forall_forall. intros p Hp. split; auto.
  - split_and!; split; try done; try (by intros [_ ?]).
    intros [_ HE%existsb_Exists]. congruence.
Qed.

(** ** More on [chisq] *)

Lemma get_int_inv (x : frame) (m : string) (l : list Z) :
  get_int x m = Ok l → getitem x m = Ok (CInt l).
Proof.
  unfold get_int. intros H. inv_bind H as c Hc.
  destruct c; try done. by injection H as ->.
Qed.

Lemma get_float_inv (x : frame) (m : string) (l : list float) :
  get_float x m = Ok l → getitem x m = Ok (CFloat l).
Proof.
  unfold get_float. intros H. inv_bind H as c Hc.
  destruct c; try done. by injection H as ->.
Qed.

Lemma file_int_columns (f : file) (m : string) (l : list Z) :
  file_int f m = Ok l → m ∈ columns f.
Proof.
  unfold file_int. intros H. inv_bind H as c Hc. inv_bind Hc as c' Hc'.
  by eapply getitem_Ok_columns.
Qed.

Lemma file_str_columns (f : file) (m : string) (l : list string) :
  file_str f m = Ok l → m ∈ columns f.
Proof.
  unfold file_str. intros H. inv_bind H as c Hc. inv_bind Hc as c' Hc'.
  by eapply getitem_Ok_columns.
Qed.

(** The steps of [chisq] after the read, one by one. *)
Lemma chisq_frame_steps (chdtri : float → float → float) (x t : frame) :
  chisq_frame chdtri x = Ok t →
  ∃ n snp x',
    get_int x "N" = Ok n ∧ check_N n = Ok tt ∧
    get_str x "SNP" = Ok snp ∧ check_rsid snp = Ok tt ∧
    chisq_fold_maf (setitem x "N" (CFloat (F.of_Z <$> n))) = Ok x' ∧
    chisq_statistic chdtri x' = Ok t.
Proof.
  unfold chisq_frame. intros H.
  inv_bind H as n Hn. inv_bind H as u1 HN. destruct u1.
  inv_bind H as snp Hsnp. inv_bind H as u2 Hrs. destruct u2.
  inv_bind H as x' Hx'. exists n, snp, x'. split_and!; try done.
  unfold get_str in *. by rewrite getitem_setitem_ne in Hsnp.
Qed.

Lemma chisq_fold_maf_getitem (x x' : frame) (m : string) :
  chisq_fold_maf x = Ok x' → m ≠ "MAF" → getitem x' m = getitem x m.
Proof.
  unfold chisq_fold_maf. intros H Hm. destruct (decide _).
  - inv_bind H as maf Hmaf. inv_bind H as u Hu. injection H as <-.
    by rewrite getitem_setitem_ne.
  - by injection H as <-.
Qed.

Lemma chisq_fold_maf_columns (x x' : frame) (m : string) :
  chisq_fold_maf x = Ok x' → m ∈ columns x' ↔ m ∈ columns x.
Proof.
  unfold chisq_fold_maf. intros H. destruct (decide _) as [HM|HM].
  - inv_bind H as maf Hmaf. inv_bind H as u Hu. injection H as <-.
    rewrite columns_setitem. split; [|by right]. by intros [->|?].
  - by injection H as <-.
Qed.

Lemma chisq_statistic_getitem (chdtri : float → float → float)
    (x t : frame) (m : string) :
  chisq_statistic chdtri x = Ok t → m ≠ "P" → m ≠ "CHISQ" →
  getitem t m = getitem x m.
Proof.
  unfold chisq_statistic. intros H Hm1 Hm2. destruct (decide _).
  - inv_bind H as p Hp. inv_bind H as u Hu. injection H as <-.
    by rewrite getitem_rename_ne, getitem_setitem_ne.
  - destruct (decide _); [|done].
    inv_bind H as c Hc. inv_bind H as u Hu. by injection H as <-.
Qed.

Lemma chisq_statistic_columns (chdtri : float → float → float)
    (x t : frame) (m : string) :
  chisq_statistic chdtri x = Ok t → m ∈ columns t →
  m ≠ "P" ∧ (m = "CHISQ" ∨ m ∈ columns x).
Proof.
  unfold chisq_statistic. intros H Hm. destruct (decide _) as [HP|HP].
  - inv_bind H as p Hp. inv_bind H as u Hu. injection H as <-.
    assert (m ≠ "P") as Hne.
    { intros ->. by eapply columns_rename_old; [|done]. }
    split; [done|]. destruct (decide (m = "CHISQ")) as [|Hc]; [by left|].
    right. apply columns_rename_ne in Hm; [|done..].
    apply columns_setitem in Hm as [?|?]; done.
  - destruct (decide _); [|done].
    inv_bind H as c Hc. inv_bind H as u Hu. injection H as <-.
    split; [by intros ->|by right].
Qed.

(** X5: [chisq] returns only for a file that has the columns N and SNP and
    one of P and CHISQ. *)
Theorem chisq_required_columns (chdtri : float → float → float)
    (fs : filesystem) (fh : string) (f : file) (t : frame) :
  fs fh = Some f →
  chisq chdtri fs fh = Ok t →
  "N" ∈ columns f ∧ "SNP" ∈ columns f
  ∧ ("P" ∈ columns f ∨ "CHISQ" ∈ columns f).
Proof.
  intros Hf H. destruct (chisq_inv _ _ _ _ _ Hf H) as (x & Hx & Ht).
  assert (Hcol : ∀ m, m ∈ chisq_usecols → has_dot m = false →
                      m ∈ columns x → m ∈ columns f).
  { intros m Hm Hdot. by apply (read_csv_has_column _ _ _ _ _ Hx). }
  destruct (chisq_frame_inv _ _ _ Ht)
    as (n & snp & x' & Hn & _ & Hsnp & _ & _ & _ & Hbr).
  split_and!.
  - apply Hcol; [unfold chisq_usecols; labels_in|done|].
    apply get_int_inv in Hn. by eapply getitem_Ok_columns.
  - apply Hcol; [unfold chisq_usecols; labels_in|done|].
    apply get_str_inv in Hsnp. by eapply getitem_Ok_columns.
  - destruct (decide ("P" ∈ columns x)) as [HP|HP].
    + left. apply Hcol; [unfold chisq_usecols; labels_in|done..].
    + right. destruct Hbr as (c & Hc & _).
      apply Hcol; [unfold chisq_usecols; labels_in|done|].
      apply get_float_inv in Hc. by eapply getitem_Ok_columns.
Qed.

Lemma chisq_required_columns_witness :
  "N" ∈ columns Ex.chisq_file ∧ "SNP" ∈ columns Ex.chisq_file
  ∧ ("P" ∈ columns Ex.chisq_file ∨ "CHISQ" ∈ columns Ex.chisq_file).
Proof.
  apply (chisq_required_columns Ex.chdtri Ex.chisq_fs "trait.chisq"
           Ex.chisq_file
           [("SNP", CStr ["rs1"; "rs2"]);
            ("N", CFloat (F.of_Z <$> [100; 250]));
            ("CHISQ", CFloat [F.zero; F.zero])]).
  - reflexivity.
  - vm_compute. reflexivity.
Defined.

(** X6: the sample sizes that [chisq] returns are the integers of the
    file, none negative, converted to float. *)
Theorem chisq_N_float (chdtri : float → float → float)
    (fs : filesystem) (fh : string) (f : file) (t : frame) :
  fs fh = Some f →
  chisq chdtri fs fh = Ok t →
  ∃ n, file_int f "N" = Ok n ∧ Forall (λ v, 0 ≤ v) n
       ∧ getitem t "N" = Ok (CFloat (F.of_Z <$> n)).
Proof.
  intros Hf H. destruct (chisq_inv _ _ _ _ _ Hf H) as (x & Hx & Ht).
  destruct (chisq_frame_steps _ _ _ Ht)
    as (n & snp & x' & Hn & HN & _ & _ & Hfold & Hstat).
  exists n. split_and!.
  - rewrite <-(read_csv_get_int _ _ _ _ "N" Hx); [done|..|done|done].
    unfold chisq_usecols. labels_in.
  - by apply check_N_Ok.
  - rewrite (chisq_statistic_getitem _ _ _ _ Hstat) by done.
    rewrite (chisq_fold_maf_getitem _ _ _ Hfold) by done.
    apply getitem_setitem_eq.
Qed.

Lemma chisq_N_float_witness :
  ∃ n, file_int Ex.chisq_file "N" = Ok n ∧ Forall (λ v, 0 ≤ v) n
       ∧ getitem [("SNP", CStr ["rs1"; "rs2"]);
                  ("N", CFloat (F.of_Z <$> [100; 250]));
                  ("CHISQ", CFloat [F.zero; F.zero])] "N"
         = Ok (CFloat (F.of_Z <$> n)).
Proof.
  apply (chisq_N_float Ex.chdtri Ex.chisq_fs "trait.chisq" Ex.chisq_file).
  - reflexivity.
  - vm_compute. reflexivity.
Defined.

(** X7: for a file without a P column, [chisq] returns only when every
    CHISQ value is a number in [0, inf), and returns the CHISQ column as it
    is. *)
Theorem chisq_CHISQ_only (chdtri : float → float → float)
    (fs : filesystem) (fh : string) (f : file) (t : frame) :
  fs fh = Some f →
  ("P" ∉ columns f) →
  chisq chdtri fs fh = Ok t →
  ∃ c, file_float f "CHISQ" = Ok c
       ∧ Forall (λ v, F.leb F.zero v = true ∧ F.ltb v F.inf = true) c
       ∧ getitem t "CHISQ" = Ok (CFloat c).
Proof.
  intros Hf HP H. destruct (chisq_inv _ _ _ _ _ Hf H) as (x & Hx & Ht).
  destruct (chisq_frame_inv _ _ _ Ht)
    as (n & snp & x' & _ & _ & _ & _ & Hget & _ & Hbr).
  rewrite decide_False in Hbr.
  - destruct Hbr as (c & Hc & Hchk & ->). exists c. split_and!.
    + rewrite <-(read_csv_get_float _ _ _ _ "CHISQ" Hx); [done|..|done|done].
      unfold chisq_usecols. labels_in.
    + by apply check_chisq_Ok.
    + rewrite Hget by done. by apply get_float_inv.
  - rewrite (read_csv_has_column _ _ _ _ "P" Hx); [done| |done].
    unfold chisq_usecols. labels_in.
Qed.

Lemma chisq_CHISQ_only_witness :
  ∃ c, file_float Ex.maf_chisq_file "CHISQ" = Ok c
       ∧ Forall (λ v, F.leb F.zero v = true ∧ F.ltb v F.inf = true) c
       ∧ getitem [("SNP", CStr ["rs1"; "rs2"]);
                  ("N", CFloat (F.of_Z <$> [100; 250]));
                  ("MAF", CFloat [Ex.eighth; Ex.quarter]);
                  ("CHISQ", CFloat [Ex.four; Ex.four])] "CHISQ"
         = Ok (CFloat c).
Proof.
  apply (chisq_CHISQ_only Ex.chdtri Ex.maf_chisq_fs "maf.chisq"
           Ex.maf_chisq_file).
  - reflexivity.
  - unfold Ex.maf_chisq_file, columns. simpl. labels_ne.
  - vm_compute. reflexivity.
Defined.

(** X8: the table [chisq] returns has no other labels than SNP, CHISQ, N,
    MAF and INFO: the other columns of the file are not read, and a P column
    is relabelled. *)
Theorem chisq_output_labels (chdtri : float → float → float)
    (fs : filesystem) (fh : string) (f : file) (t : frame) (m : string) :
  fs fh = Some f →
  chisq chdtri fs fh = Ok t →
  m ∈ columns t →
  m ∈ ["SNP"; "CHISQ"; "N"; "MAF"; "INFO"].
Proof.
  intros Hf H Hm. destruct (chisq_inv _ _ _ _ _ Hf H) as (x & Hx & Ht).
  destruct (chisq_frame_steps _ _ _ Ht)
    as (n & snp & x' & Hn & _ & _ & _ & Hfold & Hstat).
  destruct (chisq_statistic_columns _ _ _ _ Hstat Hm) as [HnP [->|Hin]].
  { labels_in. }
  apply (chisq_fold_maf_columns _ _ _ Hfold) in Hin.
  apply columns_setitem in Hin as [->|Hin]; [labels_in|].
  apply (read_csv_columns _ _ _ _ _ Hx) in Hin.
  apply list_elem_of_filter in Hin as [_ Hin]. unfold chisq_usecols in Hin.
  split_elem_of; subst; try done; labels_in.
Qed.

Lemma chisq_output_labels_witness :
  "N" ∈ ["SNP"; "CHISQ"; "N"; "MAF"; "INFO"].
Proof.
  apply (chisq_output_labels Ex.chdtri Ex.chisq_fs "trait.chisq"
           Ex.chisq_file
           [("SNP", CStr ["rs1"; "rs2"]);
            ("N", CFloat (F.of_Z <$> [100; 250]));
            ("CHISQ", CFloat [F.zero; F.zero])]).
  - reflexivity.
  - vm_compute. reflexivity.
  - unfold columns. simpl. labels_in.
Defined.

(** X9: when [chisq] returns for a file with a MAF column, every frequency
    lies in the open interval (0, 1), and the returned MAF column holds, row
    by row, the smaller of the frequency and its complement to 1. *)
Theorem chisq_maf_folded (chdtri : float → float → float)
    (fs : filesystem) (fh : string) (f : file) (maf : list float)
    (t : frame) :
  fs fh = Some f →
  file_float f "MAF" = Ok maf →
  chisq chdtri fs fh = Ok t →
  Forall (λ m, F.ltb F.zero m = true ∧ F.ltb m F.one = true) maf
  ∧ ∃ col, getitem t "MAF" = Ok (CFloat col)
           ∧ length col = length maf
           ∧ ∀ k m, maf !! k = Some m →
                    col !! k = Some (np_fmin m (F.sub F.one m)).
Proof.
  intros Hf Hmaf H.
  destruct (chisq_maf_fold chdtri _ _ _ _ _ Hf Hmaf H) as [Hall Hget].
  split; [done|]. eexists. split_and!; [done| |].
  - rewrite length_zip_with, length_fmap. lia.
  - intros k m Hk. by rewrite lookup_zip_with, list_lookup_fmap, Hk.
Qed.

Lemma chisq_maf_folded_witness :
  Forall (λ m, F.ltb F.zero m = true ∧ F.ltb m F.one = true)
         [Ex.eighth; Ex.three_quarters]
  ∧ ∃ col, getitem [("SNP", CStr ["rs1"; "rs2"]);
                    ("N", CFloat (F.of_Z <$> [100; 250]));
                    ("MAF", CFloat [Ex.eighth; Ex.quarter]);
                    ("CHISQ", CFloat [Ex.four; Ex.four])] "MAF"
             = Ok (CFloat col)
           ∧ length col = length [Ex.eighth; Ex.three_quarters]
           ∧ ∀ k m, [Ex.eighth; Ex.three_quarters] !! k = Some m →
                    col !! k = Some (np_fmin m (F.sub F.one m)).
Proof.
  apply (chisq_maf_folded Ex.chdtri Ex.maf_chisq_fs "maf.chisq"
           Ex.maf_chisq_file).
  - reflexivity.
  - reflexivity.
  - vm_compute. reflexivity.
Defined.

(** X10: [chisq] returns the INFO column of the file as it is; its values
    are never checked. *)
Theorem chisq_INFO_unchecked (chdtri : float → float → float)
    (fs : filesystem) (fh : string) (f : file) (info : list float)
    (t : frame) :
  fs fh = Some f →
  file_float f "INFO" = Ok info →
  chisq chdtri fs fh = Ok t →
  getitem t "INFO" = Ok (CFloat info).
Proof.
  intros Hf Hinfo H. destruct (chisq_inv _ _ _ _ _ Hf H) as (x & Hx & Ht).
  destruct (chisq_frame_steps _ _ _ Ht)
    as (n & snp & x' & _ & _ & _ & _ & Hfold & Hstat).
  rewrite (chisq_statistic_getitem _ _ _ _ Hstat) by done.
  rewrite (chisq_fold_maf_getitem _ _ _ Hfold) by done.
  rewrite getitem_setitem_ne by done.
  rewrite (read_csv_getitem _ _ _ _ "INFO" Hx); [|unfold chisq_usecols;
                                                   labels_in|done].
  by apply file_float_inv.
Qed.

Lemma chisq_INFO_unchecked_witness :
  getitem Ex.info_chisq_table "INFO" = Ok (CFloat [F.nan; F.of_Z (-1)]).
Proof.
  apply (chisq_INFO_unchecked Ex.chdtri Ex.info_chisq_fs "info.chisq"
           Ex.info_chisq_file).
  - reflexivity.
  - reflexivity.
  - vm_compute. reflexivity.
Defined.

(** ** Rows of the returned tables *)

Lemma rectangular_mangle (rows : nat) (seen : list string) (f : frame) :
  rectangular rows f → rectangular rows (mangle_dupe_cols seen f).
Proof.
  unfold rectangular. intros H. revert seen.
  induction H as [|[n c] f Hc _ IH]; intros seen; simpl; [constructor|].
  constructor; [done|apply IH].
Qed.

Lemma rectangular_filter (rows : nat) (P : string * column → Prop)
    `{∀ nc, Decision (P nc)} (x : frame) :
  rectangular rows x → rectangular rows (filter P x).
Proof.
  unfold rectangular. rewrite !Forall_forall. intros Hx nc Hin.
  apply list_elem_of_filter in Hin as [_ Hin]. auto.
Qed.

Lemma rectangular_mapM_coerce (rows : nat) (d : gmap string dtype)
    (x y : frame) :
  rectangular rows x →
  mapM (λ nc, match d !! nc.1 with
              | Some dt => c ← coerce dt nc.2; Ok (nc.1, c)
              | None => Ok nc
              end) x = Ok y →
  rectangular rows y.
Proof.
  unfold rectangular. intros Hx. revert y.
  induction Hx as [|[n c] x Hc _ IH]; intros y H.
  - injection H as <-. constructor.
  - cbn [mapM] in H. inv_bind H as nc Hnc. inv_bind H as y' Hy'.
    injection H as <-. constructor; [|by apply IH].
    cbn [fst snd] in Hnc. destruct (d !! n) as [dt|].
    + inv_bind Hnc as c' Hc'. injection Hnc as <-. simpl in *.
      by rewrite (coerce_col_length _ _ _ Hc').
    + by injection Hnc as <-.
Qed.

Lemma read_csv_rectangular (rows : nat) (f : file) usecols d (x : frame) :
  rectangular rows f → read_csv f usecols d = Ok x → rectangular rows x.
Proof.
  unfold read_csv. intros Hf H.
  eapply rectangular_mapM_coerce; [|done].
  destruct usecols; [apply rectangular_filter|]; by apply rectangular_mangle.
Qed.

Lemma rectangular_setitem (rows : nat) (x : frame) (n : string) (c : column) :
  rectangular rows x → col_length c = rows →
  rectangular rows (setitem x n c).
Proof.
  unfold rectangular, setitem. intros Hx Hc. destruct (decide _).
  - rewrite Forall_fmap. eapply Forall_impl; [done|].
    intros [n' c'] Hc'. simpl. by destruct (decide _).
  - apply Forall_app. split; [done|]. by constructor.
Qed.

Lemma rectangular_rename (rows : nat) (x : frame) (old new : string) :
  rectangular rows x → rectangular rows (rename old new x).
Proof.
  unfold rectangular, rename. intros Hx. rewrite Forall_fmap.
  eapply Forall_impl; [done|]. intros [n' c'] Hc'. simpl.
  by destruct (decide _).
Qed.

Lemma rectangular_get_length (rows : nat) (x : frame) (m : string)
    (c : column) :
  rectangular rows x → getitem x m = Ok c → length (cells c) = rows.
Proof. apply rectangular_getitem. Qed.

(** X11: [chisq] drops no row and adds none: on a file whose columns all
    have the same number of rows, every column of the returned table has
    that number of rows. *)
Theorem chisq_keeps_rows (chdtri : float → float → float)
    (fs : filesystem) (fh : string) (f : file) (t : frame) (rows : nat) :
  fs fh = Some f →
  rectangular rows f →
  chisq chdtri fs fh = Ok t →
  rectangular rows t.
Proof.
  intros Hf Hrect H. destruct (chisq_inv _ _ _ _ _ Hf H) as (x & Hx & Ht).
  pose proof (read_csv_rectangular _ _ _ _ _ Hrect Hx) as Hrx.
  destruct (chisq_frame_steps _ _ _ Ht)
    as (n & snp & x' & Hn & _ & _ & _ & Hfold & Hstat).
  assert (rectangular rows (setitem x "N" (CFloat (F.of_Z <$> n)))) as Hr1.
  { apply rectangular_setitem; [done|].
    apply get_int_inv in Hn.
    rewrite <-(rectangular_get_length _ _ _ _ Hrx Hn).
    unfold col_length. simpl. by rewrite !length_fmap. }
  assert (rectangular rows x') as Hr2.
  { revert Hfold. unfold chisq_fold_maf. destruct (decide _).
    - intros Hfold. inv_bind Hfold as maf Hmaf. inv_bind Hfold as u Hu.
      injection Hfold as <-. apply rectangular_setitem; [done|].
      apply get_float_inv in Hmaf.
      rewrite <-(rectangular_get_length _ _ _ _ Hr1 Hmaf).
      unfold col_length. simpl.
      rewrite !length_fmap, length_zip_with, length_fmap. lia.
    - by intros [= <-]. }
  revert Hstat. unfold chisq_statistic. destruct (decide _).
  - intros Hstat. inv_bind Hstat as p Hp. inv_bind Hstat as u Hu.
    injection Hstat as <-.
    apply rectangular_rename, rectangular_setitem; [done|].
    apply get_float_inv in Hp.
    rewrite <-(rectangular_get_length _ _ _ _ Hr2 Hp).
    unfold col_length. simpl. by rewrite !length_fmap.
  - destruct (decide _); [|done]. intros Hstat.
    inv_bind Hstat as c Hc. inv_bind Hstat as u Hu. by injection Hstat as <-.
Qed.

Lemma chisq_keeps_rows_witness :
  rectangular 2 [("SNP", CStr ["rs1"; "rs2"]);
                 ("N", CFloat (F.of_Z <$> [100; 250]));
                 ("CHISQ", CFloat [F.zero; F.zero])].
Proof.
  apply (chisq_keeps_rows Ex.chdtri Ex.chisq_fs "trait.chisq" Ex.chisq_file).
  - reflexivity.
  - unfold rectangular, Ex.chisq_file. repeat constructor.
  - vm_compute. reflexivity.
Defined.

(** ** More on [betaprod] *)

Lemma columns_rename (x : frame) (old new m : string) :
  m ∈ columns (rename old new x)
  ↔ (m = new ∧ old ∈ columns x) ∨ (m ≠ old ∧ m ∈ columns x).
Proof.
  unfold columns, rename. rewrite <-list_fmap_compose, !list_elem_of_fmap.
  split.
  - intros ([n c] & -> & Hin). simpl.
    destruct (decide (n = old)) as [->|Hne]; simpl.
    + left. split; [done|]. by exists (old, c).
    + right. split; [done|]. by exists (n, c).
  - intros [[-> ([n c] & -> & Hin)]|[Hne ([n c] & -> & Hin)]].
    + exists (n, c). simpl. by rewrite decide_True.
    + exists (n, c). simpl in *. by rewrite decide_False.
Qed.

Lemma nrows_rectangular (rows : nat) (x : frame) (m : string) :
  rectangular rows x → m ∈ columns x → nrows x = rows.
Proof.
  intros Hx Hm. destruct x as [|[n c] x]; [by apply elem_of_nil in Hm|].
  by apply Forall_cons in Hx as [? _].
Qed.

Lemma length_betahat (chisq n : list float) (dir : list Z) (rows : nat) :
  length chisq = rows → length n = rows → length dir = rows →
  length (betahat chisq n dir) = rows.
Proof.
  intros. unfold betahat.
  rewrite length_zip_with, !length_fmap, length_zip_with. lia.
Qed.

Section BetaprodSteps.

Variable chdtri : float → float → float.

(** The frames one pass of the loop of [betaprod] goes through: the label
    [r] is that of the statistic the pass reads, CHISQi when the frame has
    it, Pi otherwise. *)
Lemma betaprod_body_steps (x : frame) (i : string) (x' : frame) :
  betaprod_body chdtri x i = Ok x' →
  ∃ n dir r c stat x3,
    get_int x ("N" +:+ i) = Ok n ∧ check_N n = Ok tt ∧
    get_int x ("DIR" +:+ i) = Ok dir ∧ check_dir dir = Ok tt ∧
    ((r = "CHISQ" +:+ i ∧ ("CHISQ" +:+ i) ∈ columns x)
     ∨ (r = "P" +:+ i ∧ (("CHISQ" +:+ i) ∉ columns x)
        ∧ ("P" +:+ i) ∈ columns x)) ∧
    get_float x r = Ok c ∧ length stat = length c ∧
    x3 = filter (λ nc, nc.1 ≠ "DIR" +:+ i)
           (rename r ("BETAHAT" +:+ i)
              (setitem (setitem x ("N" +:+ i) (CFloat (F.of_Z <$> n))) r
                 (CFloat (betahat stat (F.of_Z <$> n) dir)))) ∧
    (((("MAF" +:+ i) ∉ columns x3) ∧ x' = x3)
     ∨ ∃ maf, get_float x3 ("MAF" +:+ i) = Ok maf ∧ check_maf maf = Ok tt ∧
              x' = setitem x3 ("MAF" +:+ i)
                     (CFloat (replicate (nrows x3) (series_min maf)))).
Proof.
  unfold betaprod_body. intros H.
  inv_bind H as n Hn. inv_bind H as u1 HN. destruct u1.
  set (x1 := setitem x ("N" +:+ i) (CFloat (F.of_Z <$> n))) in *.
  inv_bind H as dir Hdir. inv_bind H as u2 Hd. destruct u2.
  inv_bind H as x2 Hx2. inv_bind H as x3 Hx3.
  apply delitem_Ok in Hx3. subst x3.
  assert (Hget1 : ∀ m, m ≠ "N" +:+ i → getitem x1 m = getitem x m).
  { intros m Hm. unfold x1. by rewrite getitem_setitem_ne. }
  assert (Hcol1 : ∀ m, m ≠ "N" +:+ i → m ∈ columns x1 ↔ m ∈ columns x).
  { intros m Hm. by rewrite !getitem_columns, Hget1. }
  assert (HgetN : get_float x1 ("N" +:+ i) = Ok (F.of_Z <$> n)).
  { unfold get_float, x1. by rewrite getitem_setitem_eq. }
  assert (Hdirx : get_int x ("DIR" +:+ i) = Ok dir).
  { unfold get_int in *. rewrite <-Hget1; [done|]. labels_ne. }
  assert (∃ r c stat,
    ((r = "CHISQ" +:+ i ∧ ("CHISQ" +:+ i) ∈ columns x)
     ∨ (r = "P" +:+ i ∧ (("CHISQ" +:+ i) ∉ columns x)
        ∧ ("P" +:+ i) ∈ columns x)) ∧
    get_float x r = Ok c ∧ length stat = length c ∧
    x2 = rename r ("BETAHAT" +:+ i)
           (setitem x1 r (CFloat (betahat stat (F.of_Z <$> n) dir))))
    as (r & c & stat & Hr & Hc & Hlen & ->).
  { destruct (decide (("CHISQ" +:+ i) ∈ columns x1)) as [HC|HC].
    - inv_bind Hx2 as c Hc. inv_bind Hx2 as u3 Hchk. destruct u3.
      inv_bind Hx2 as n' Hn'. inv_bind Hx2 as dir' Hdir'.
      injection Hx2 as <-.
      assert (n' = F.of_Z <$> n) as -> by congruence.
      assert (dir' = dir) as -> by congruence.
      exists ("CHISQ" +:+ i), c, c. split_and!; try done.
      + left. split; [done|]. apply Hcol1; [labels_ne|done].
      + unfold get_float in *. rewrite <-Hget1; [done|]. labels_ne.
    - destruct (decide (("P" +:+ i) ∈ columns x1)) as [HP|HP]; [|done].
      inv_bind Hx2 as p Hp. inv_bind Hx2 as u3 Hchk. destruct u3.
      inv_bind Hx2 as n' Hn'. inv_bind Hx2 as dir' Hdir'.
      injection Hx2 as <-.
      assert (n' = F.of_Z <$> n) as -> by congruence.
      assert (dir' = dir) as -> by congruence.
      exists ("P" +:+ i), p, (chdtri F.one <$> p). split_and!; try done.
      + right. split_and!; [done| |].
        * rewrite <-Hcol1; [done|labels_ne].
        * apply Hcol1; [labels_ne|done].
      + unfold get_float in *. rewrite <-Hget1; [done|]. labels_ne.
      + by rewrite length_fmap. }
  exists n, dir, r, c, stat. eexists. split_and!; try done.
  destruct (decide (_ ∈ columns _)) as [HM|HM].
  - inv_bind H as maf Hmaf. inv_bind H as u3 Hchk. destruct u3.
    injection H as <-. right. by exists maf.
  - injection H as <-. by left.
Qed.

End BetaprodSteps.

Section BetaprodMore.

Variable chdtri : float → float → float.

Lemma get_int_length (rows : nat) (x : frame) (m : string) (l : list Z) :
  rectangular rows x → get_int x m = Ok l → length l = rows.
Proof.
  intros Hx H. apply get_int_inv in H.
  rewrite <-(rectangular_getitem _ _ _ _ Hx H).
  unfold col_length. simpl. by rewrite length_fmap.
Qed.

Lemma get_float_length (rows : nat) (x : frame) (m : string)
    (l : list float) :
  rectangular rows x → get_float x m = Ok l → length l = rows.
Proof.
  intros Hx H. apply get_float_inv in H.
  rewrite <-(rectangular_getitem _ _ _ _ Hx H).
  unfold col_length. simpl. by rewrite length_fmap.
Qed.

(** The labels after one pass: DIRi and the label of the statistic are
    gone, BETAHATi is there, the others are as before. *)
Lemma betaprod_body_columns (x : frame) (i : string) (x' : frame) :
  betaprod_body chdtri x i = Ok x' →
  ∃ r, ((r = "CHISQ" +:+ i ∧ ("CHISQ" +:+ i) ∈ columns x)
        ∨ (r = "P" +:+ i ∧ (("CHISQ" +:+ i) ∉ columns x)
           ∧ ("P" +:+ i) ∈ columns x)) ∧
       ∀ m, m ∈ columns x'
            ↔ m ≠ "DIR" +:+ i
              ∧ (m = "BETAHAT" +:+ i ∨ (m ≠ r ∧ m ∈ columns x)).
Proof.
  intros H.
  destruct (betaprod_body_steps _ _ _ _ H)
    as (n & dir & r & c & stat & x3 & Hn & _ & _ & _ & Hr & Hc & _ & Hx3
        & Hx').
  exists r. split; [done|]. intros m.
  assert (HN : ("N" +:+ i) ∈ columns x).
  { apply get_int_inv in Hn. by eapply getitem_Ok_columns. }
  assert (Hrx : r ∈ columns x).
  { apply get_float_inv in Hc. by eapply getitem_Ok_columns. }
  assert (H3 : m ∈ columns x3
               ↔ m ≠ "DIR" +:+ i
                 ∧ (m = "BETAHAT" +:+ i ∨ (m ≠ r ∧ m ∈ columns x))).
  { rewrite Hx3, columns_delete, columns_rename, !columns_setitem.
    split.
    - intros [Hd [[-> _]|[Hm [->|[->|Hin]]]]]; split; try done.
      + by left.
      + right. done.
      + right. done.
    - intros [Hd [->|[Hm Hin]]]; (split; [done|]).
      + left. split; [done|]. by left.
      + right. split; [done|]. right. by right. }
  destruct Hx' as [[_ ->]|(maf & Hmaf & _ & ->)]; [done|].
  rewrite columns_setitem, <-H3. split; [|by right].
  intros [->|?]; [|done].
  apply get_float_inv in Hmaf. by eapply getitem_Ok_columns.
Qed.

(** A pass leaves the columns it does not name as they are. *)
Lemma betaprod_body_other (x : frame) (i : string) (x' : frame) (m : string) :
  betaprod_body chdtri x i = Ok x' →
  m ∉ ["N" +:+ i; "CHISQ" +:+ i; "P" +:+ i; "DIR" +:+ i; "MAF" +:+ i;
       "BETAHAT" +:+ i] →
  getitem x' m = getitem x m.
Proof.
  intros H Hm. rewrite !not_elem_of_cons in Hm.
  destruct Hm as (HmN & HmC & HmP & HmD & HmM & HmB & _).
  destruct (betaprod_body_steps _ _ _ _ H)
    as (n & dir & r & c & stat & x3 & _ & _ & _ & _ & Hr & _ & _ & Hx3
        & Hx').
  assert (m ≠ r) as Hmr by (by destruct Hr as [[-> _]|[-> _]]).
  assert (getitem x3 m = getitem x m) as H3.
  { rewrite Hx3, getitem_delete_ne, getitem_rename_ne by done.
    by rewrite !getitem_setitem_ne. }
  destruct Hx' as [[_ ->]|(maf & _ & _ & ->)]; [done|].
  by rewrite getitem_setitem_ne.
Qed.

(** The sample sizes after a pass. *)
Lemma betaprod_body_N (x : frame) (i : string) (x' : frame) :
  betaprod_body chdtri x i = Ok x' →
  ∃ n, get_int x ("N" +:+ i) = Ok n ∧ check_N n = Ok tt ∧
       getitem x' ("N" +:+ i) = Ok (CFloat (F.of_Z <$> n)).
Proof.
  intros H.
  destruct (betaprod_body_steps _ _ _ _ H)
    as (n & dir & r & c & stat & x3 & Hn & HN & _ & _ & Hr & _ & _ & Hx3
        & Hx').
  exists n. split_and!; [done..|].
  assert ("N" +:+ i ≠ r) as Hmr by (destruct Hr as [[-> _]|[-> _]]; labels_ne).
  assert (getitem x3 ("N" +:+ i) = Ok (CFloat (F.of_Z <$> n))) as H3.
  { rewrite Hx3, getitem_delete_ne, getitem_rename_ne by labels_ne.
    by rewrite getitem_setitem_ne, getitem_setitem_eq. }
  destruct Hx' as [[_ ->]|(maf & _ & _ & ->)]; [done|].
  by rewrite getitem_setitem_ne by labels_ne.
Qed.

Lemma betaprod_body_rectangular (rows : nat) (x : frame) (i : string)
    (x' : frame) :
  rectangular rows x → betaprod_body chdtri x i = Ok x' →
  rectangular rows x'
  ∧ ∀ maf, get_float x ("MAF" +:+ i) = Ok maf →
           check_maf maf = Ok tt
           ∧ getitem x' ("MAF" +:+ i)
             = Ok (CFloat (replicate rows (series_min maf))).
Proof.
  intros Hx H.
  destruct (betaprod_body_steps _ _ _ _ H)
    as (n & dir & r & c & stat & x3 & Hn & _ & Hdir & _ & Hr & Hc & Hlen
        & Hx3 & Hx').
  pose proof (get_int_length _ _ _ _ Hx Hn) as Ln.
  pose proof (get_int_length _ _ _ _ Hx Hdir) as Ld.
  pose proof (get_float_length _ _ _ _ Hx Hc) as Lc.
  assert ("MAF" +:+ i ≠ r) as Hmr by (destruct Hr as [[-> _]|[-> _]]; labels_ne).
  assert (rectangular rows x3) as H3.
  { rewrite Hx3. apply rectangular_filter, rectangular_rename.
    apply rectangular_setitem; [apply rectangular_setitem; [done|]|].
    - unfold col_length. simpl. by rewrite !length_fmap.
    - unfold col_length. simpl. rewrite length_fmap.
      apply length_betahat; [lia| |done]. by rewrite length_fmap. }
  assert (getitem x3 ("MAF" +:+ i) = getitem x ("MAF" +:+ i)) as HM.
  { rewrite Hx3, getitem_delete_ne, getitem_rename_ne by labels_ne.
    by rewrite !getitem_setitem_ne by labels_ne. }
  destruct Hx' as [[HM3 ->]|(maf & Hmaf & Hchk & ->)].
  - split; [done|]. intros maf Hmaf. exfalso. apply HM3.
    apply get_float_inv in Hmaf. rewrite <-HM in Hmaf.
    by eapply getitem_Ok_columns.
  - assert (nrows x3 = rows) as ->.
    { apply get_float_inv in Hmaf.
      eapply nrows_rectangular; [done|]. by eapply getitem_Ok_columns. }
    split.
    + apply rectangular_setitem; [done|]. unfold col_length. simpl.
      by rewrite length_fmap, length_replicate.
    + intros maf' Hmaf'. unfold get_float in Hmaf, Hmaf'.
      rewrite HM in Hmaf. assert (maf' = maf) as -> by congruence.
      split; [done|]. apply getitem_setitem_eq.
Qed.

Lemma betaprod_loop_inv (x t : frame) :
  for_each ["1"; "2"] (betaprod_body chdtri) x = Ok t →
  ∃ x1, betaprod_body chdtri x "1" = Ok x1
        ∧ betaprod_body chdtri x1 "2" = Ok t.
Proof.
  intros H. cbn [for_each] in H.
  inv_bind H as x1 H1. inv_bind H as t' H2. injection H as ->. eauto.
Qed.

End BetaprodMore.

Lemma betaprod_usecols_no_dot (m : string) :
  m ∈ betaprod_usecols → has_dot m = false.
Proof.
  rewrite betaprod_usecols_eq. intros Hm.
  repeat (apply elem_of_cons in Hm as [->|Hm]; [done|]).
  by apply elem_of_nil in Hm.
Qed.

Lemma betaprod_read_columns (f : file) (x : frame) (m : string) :
  read_csv f (Some (filter (λ c, c ∈ columns f) betaprod_usecols))
           betaprod_dtype_dict = Ok x →
  m ∈ columns x ↔ m ∈ betaprod_usecols ∧ m ∈ columns f.
Proof.
  intros Hx. split.
  - intros Hin. apply (read_csv_columns _ _ _ _ _ Hx) in Hin.
    by apply list_elem_of_filter in Hin as [? ?].
  - intros [HU Hf].
    by apply (read_csv_has_column _ _ _ _ _ Hx HU (betaprod_usecols_no_dot _ HU)).
Qed.

(** X12: [betaprod] returns only for a file that has the columns SNP, N1,
    DIR1, N2 and DIR2 and, for each phenotype, a column CHISQi or Pi. *)
Theorem betaprod_required_columns (chdtri : float → float → float)
    (fs : filesystem) (fh : string) (f : file) (t : frame) :
  fs fh = Some f →
  betaprod chdtri fs fh = Ok t →
  "SNP" ∈ columns f
  ∧ ∀ i, i ∈ ["1"; "2"] →
         ("N" +:+ i) ∈ columns f ∧ ("DIR" +:+ i) ∈ columns f
         ∧ (("CHISQ" +:+ i) ∈ columns f ∨ ("P" +:+ i) ∈ columns f).
Proof.
  intros Hf H. split.
  - destruct (betaprod_keeps_rsids _ _ _ _ _ Hf H) as (snp & Hs & _).
    by eapply file_str_columns.
  - intros i Hi.
    destruct (betaprod_spec chdtri _ _ _ _ i Hf H Hi)
      as (n & dir & c & Hn & _ & Hd & _ & Hbr & _).
    split_and!.
    + by eapply file_int_columns.
    + by eapply file_int_columns.
    + destruct Hbr as [(Hc & _)|(_ & p & Hp & _)].
      * left. by eapply file_float_columns.
      * right. by eapply file_float_columns.
Qed.

Lemma betaprod_required_columns_witness :
  "SNP" ∈ columns Ex.betaprod_file
  ∧ ∀ i, i ∈ ["1"; "2"] →
         ("N" +:+ i) ∈ columns Ex.betaprod_file
         ∧ ("DIR" +:+ i) ∈ columns Ex.betaprod_file
         ∧ (("CHISQ" +:+ i) ∈ columns Ex.betaprod_file
            ∨ ("P" +:+ i) ∈ columns Ex.betaprod_file).
Proof.
  apply (betaprod_required_columns Ex.chdtri Ex.betaprod_fs "pair.betaprod"
           Ex.betaprod_file Ex.betaprod_table).
  - reflexivity.
  - vm_compute. reflexivity.
Defined.

(** X13: the sample sizes that [betaprod] returns for each phenotype are
    the integers of the file's Ni column, none of them negative, as
    floats. *)
Theorem betaprod_N_float (chdtri : float → float → float)
    (fs : filesystem) (fh : string) (f : file) (t : frame) (i : string) :
  fs fh = Some f →
  betaprod chdtri fs fh = Ok t →
  i ∈ ["1"; "2"] →
  ∃ n, file_int f ("N" +:+ i) = Ok n
       ∧ Forall (λ k, 0 ≤ k) n
       ∧ getitem t ("N" +:+ i) = Ok (CFloat (F.of_Z <$> n)).
Proof.
  intros Hf H Hi.
  destruct (betaprod_inv _ _ _ _ _ Hf H) as (x & snp & Hx & _ & _ & Hloop).
  destruct (betaprod_loop_inv _ _ _ Hloop) as (x1 & H1 & H2).
  assert (HN : ∀ j, j ∈ ["1"; "2"] →
                    get_int x ("N" +:+ j) = file_int f ("N" +:+ j)).
  { intros j Hj. apply (read_csv_get_int _ _ _ _ _ Hx).
    - rewrite betaprod_usecols_eq.
      apply elem_of_12 in Hj as [-> | ->]; labels_in.
    - by apply elem_of_12 in Hj as [-> | ->].
    - by apply elem_of_12 in Hj as [-> | ->]. }
  apply elem_of_12 in Hi as [-> | ->].
  - destruct (betaprod_body_N _ _ _ _ H1) as (n & Hn & Hchk & Hget).
    exists n. split_and!.
    + rewrite <-HN; [done|labels_in].
    + by apply check_N_Ok.
    + rewrite (betaprod_body_other _ _ _ _ _ H2); [done|labels_ne].
  - destruct (betaprod_body_N _ _ _ _ H2) as (n & Hn & Hchk & Hget).
    exists n. split_and!.
    + rewrite <-HN by labels_in. unfold get_int in *.
      rewrite <-(betaprod_body_other _ _ _ _ _ H1); [done|labels_ne].
    + by apply check_N_Ok.
    + done.
Qed.

Lemma betaprod_N_float_witness :
  ∃ n, file_int Ex.betaprod_file "N1" = Ok n
       ∧ Forall (λ k, 0 ≤ k) n
       ∧ getitem Ex.betaprod_table "N1" = Ok (CFloat (F.of_Z <$> n)).
Proof.
  apply (betaprod_N_float Ex.chdtri Ex.betaprod_fs "pair.betaprod"
           Ex.betaprod_file Ex.betaprod_table "1").
  - reflexivity.
  - vm_compute. reflexivity.
  - labels_in.
Defined.

(** X14: the labels of the table [betaprod] returns: BETAHAT1 and
    BETAHAT2, and of the file's columns SNP, N1, N2, MAF1, MAF2, INFO1 and
    INFO2; a column Pi stays only when the file also has CHISQi.  No DIRi
    and no CHISQi column is returned. *)
Theorem betaprod_output_labels (chdtri : float → float → float)
    (fs : filesystem) (fh : string) (f : file) (t : frame) (m : string) :
  fs fh = Some f →
  betaprod chdtri fs fh = Ok t →
  m ∈ columns t
  ↔ m = "BETAHAT1" ∨ m = "BETAHAT2"
    ∨ (m ∈ columns f
       ∧ (m ∈ ["SNP"; "N1"; "N2"; "MAF1"; "MAF2"; "INFO1"; "INFO2"]
          ∨ (m = "P1" ∧ "CHISQ1" ∈ columns f)
          ∨ (m = "P2" ∧ "CHISQ2" ∈ columns f))).
Proof.
  intros Hf H.
  destruct (betaprod_inv _ _ _ _ _ Hf H) as (x & snp & Hx & _ & _ & Hloop).
  destruct (betaprod_loop_inv _ _ _ Hloop) as (x1 & H1 & H2).
  destruct (betaprod_body_columns _ _ _ _ H1) as (r1 & Hr1 & Hc1).
  destruct (betaprod_body_columns _ _ _ _ H2) as (r2 & Hr2 & Hc2).
  pose proof (betaprod_read_columns _ _ "CHISQ1" Hx) as HxC1.
  pose proof (betaprod_read_columns _ _ "CHISQ2" Hx) as HxC2.
  pose proof (Hc1 "CHISQ2") as H1C2.
  assert (HU1 : "CHISQ1" ∈ betaprod_usecols)
    by (rewrite betaprod_usecols_eq; labels_in).
  assert (HU2 : "CHISQ2" ∈ betaprod_usecols)
    by (rewrite betaprod_usecols_eq; labels_in).
  assert (HR1 : (r1 = "CHISQ1" ∧ "CHISQ1" ∈ columns f)
                ∨ (r1 = "P1" ∧ "CHISQ1" ∉ columns f)).
  { destruct Hr1 as [[-> ?]|(-> & ? & _)]; [left|right]; (split; [done|]);
      tauto. }
  assert (HR2 : (r2 = "CHISQ2" ∧ "CHISQ2" ∈ columns f)
                ∨ (r2 = "P2" ∧ "CHISQ2" ∉ columns f)).
  { assert ("CHISQ2" ∈ columns x1 ↔ "CHISQ2" ∈ columns f) as Heq.
    { rewrite H1C2. split.
      - intros [_ [?|[_ ?]]]; [done|]. tauto.
      - intros ?. split; [done|]. right. split; [|tauto].
        by destruct HR1 as [[-> _]|[-> _]]. }
    destruct Hr2 as [[-> ?]|(-> & ? & _)]; [left|right]; (split; [done|]);
      tauto. }
  rewrite Hc2, Hc1, (betaprod_read_columns _ _ m Hx), betaprod_usecols_eq.
  clear -HR1 HR2. rewrite !elem_of_cons, !elem_of_nil.
  destruct HR1 as [[-> ?]|[-> ?]], HR2 as [[-> ?]|[-> ?]];
    (split; [intros (? & [->|(? & ? & [->|(? & HU & ?)])])|]);
    intuition (subst; try discriminate; try tauto).
Qed.

Lemma betaprod_output_labels_witness :
  "P1" ∈ columns Ex.betaprod_table
  ↔ "P1" = "BETAHAT1" ∨ "P1" = "BETAHAT2"
    ∨ ("P1" ∈ columns Ex.betaprod_file
       ∧ ("P1" ∈ ["SNP"; "N1"; "N2"; "MAF1"; "MAF2"; "INFO1"; "INFO2"]
          ∨ ("P1" = "P1" ∧ "CHISQ1" ∈ columns Ex.betaprod_file)
          ∨ ("P1" = "P2" ∧ "CHISQ2" ∈ columns Ex.betaprod_file))).
Proof.
  apply (betaprod_output_labels Ex.chdtri Ex.betaprod_fs "pair.betaprod"
           Ex.betaprod_file Ex.betaprod_table "P1").
  - reflexivity.
  - vm_compute. reflexivity.
Defined.

(** X15: [betaprod] drops no row and adds none: on a file whose columns
    all have the same number of rows, every column of the returned table has
    that number of rows. *)
Theorem betaprod_keeps_rows (chdtri : float → float → float)
    (fs : filesystem) (fh : string) (f : file) (t : frame) (rows : nat) :
  fs fh = Some f →
  rectangular rows f →
  betaprod chdtri fs fh = Ok t →
  rectangular rows t.
Proof.
  intros Hf Hrect H.
  destruct (betaprod_inv _ _ _ _ _ Hf H) as (x & snp & Hx & _ & _ & Hloop).
  destruct (betaprod_loop_inv _ _ _ Hloop) as (x1 & H1 & H2).
  pose proof (read_csv_rectangular _ _ _ _ _ Hrect Hx) as Hrx.
  destruct (betaprod_body_rectangular _ _ _ _ _ Hrx H1) as [Hr1 _].
  by destruct (betaprod_body_rectangular _ _ _ _ _ Hr1 H2) as [Hr2 _].
Qed.

Lemma betaprod_keeps_rows_witness : rectangular 2 Ex.betaprod_table.
Proof.
  apply (betaprod_keeps_rows Ex.chdtri Ex.betaprod_fs "pair.betaprod"
           Ex.betaprod_file).
  - reflexivity.
  - unfold rectangular, Ex.betaprod_file. repeat constructor.
  - vm_compute. reflexivity.
Defined.

(** X16: when [betaprod] returns for a file with a MAFi column, every
    frequency of that column lies in the open interval (0, 1), and the
    returned MAFi column holds the least frequency of the column in every
    row. *)
Theorem betaprod_maf_least (chdtri : float → float → float)
    (fs : filesystem) (fh : string) (f : file) (t : frame) (rows : nat)
    (i : string) (maf : list float) :
  fs fh = Some f →
  rectangular rows f →
  i ∈ ["1"; "2"] →
  file_float f ("MAF" +:+ i) = Ok maf →
  betaprod chdtri fs fh = Ok t →
  Forall in_open_unit_interval maf
  ∧ getitem t ("MAF" +:+ i) = Ok (CFloat (replicate rows (series_min maf))).
Proof.
  intros Hf Hrect Hi Hmaf H.
  destruct (betaprod_inv _ _ _ _ _ Hf H) as (x & snp & Hx & _ & _ & Hloop).
  destruct (betaprod_loop_inv _ _ _ Hloop) as (x1 & H1 & H2).
  pose proof (read_csv_rectangular _ _ _ _ _ Hrect Hx) as Hrx.
  destruct (betaprod_body_rectangular _ _ _ _ _ Hrx H1) as [Hr1 HM1].
  destruct (betaprod_body_rectangular _ _ _ _ _ Hr1 H2) as [Hr2 HM2].
  assert (HM : get_float x ("MAF" +:+ i) = Ok maf).
  { rewrite <-Hmaf. apply (read_csv_get_float _ _ _ _ _ Hx).
    - rewrite betaprod_usecols_eq.
      apply elem_of_12 in Hi as [-> | ->]; labels_in.
    - by apply elem_of_12 in Hi as [-> | ->].
    - by apply elem_of_12 in Hi as [-> | ->]. }
  apply elem_of_12 in Hi as [-> | ->].
  - destruct (HM1 _ HM) as [Hchk Hget]. split; [by apply check_maf_Ok|].
    rewrite (betaprod_body_other _ _ _ _ _ H2); [done|labels_ne].
  - assert (get_float x1 "MAF2" = Ok maf) as HM'.
    { unfold get_float in *.
      rewrite (betaprod_body_other _ _ _ _ _ H1); [done|labels_ne]. }
    destruct (HM2 _ HM') as [Hchk Hget]. split; [by apply check_maf_Ok|done].
Qed.

Lemma betaprod_maf_least_witness :
  Forall in_open_unit_interval [Ex.eighth; Ex.three_quarters]
  ∧ getitem Ex.maf_betaprod_table "MAF1"
    = Ok (CFloat (replicate 2 (series_min [Ex.eighth; Ex.three_quarters]))).
Proof.
  apply (betaprod_maf_least Ex.chdtri Ex.maf_betaprod_fs "maf.betaprod"
           Ex.maf_betaprod_file Ex.maf_betaprod_table 2 "1").
  - reflexivity.
  - unfold rectangular, Ex.maf_betaprod_file. repeat constructor.
  - labels_in.
  - reflexivity.
  - vm_compute. reflexivity.
Defined.

(** ** More on [ldscore] *)

Lemma mangle_dupe_cols_NoDup (seen : list string) (f : file) :
  (∀ n, n ∈ columns f → n ∉ seen) → NoDup (columns f) →
  mangle_dupe_cols seen f = f.
Proof.
  revert seen. induction f as [|[n c] f IH]; intros seen Hseen Hnd; [done|].
  unfold columns in *. rewrite fmap_cons in Hnd, Hseen.
  apply NoDup_cons in Hnd as [Hn Hnd]. cbn [mangle_dupe_cols].
  rewrite filter_none.
  - simpl. f_equal. apply IH; [|done].
    intros m Hm. apply not_elem_of_cons. split.
    + intros ->. done.
    + apply Hseen. by right.
  - intros m Hm ->. by apply (Hseen n); [left|].
Qed.

Lemma mapM_no_dtype (x y : frame) :
  mapM (λ nc, match (∅ : gmap string dtype) !! nc.1 with
              | Some dt => c ← coerce dt nc.2; Ok (nc.1, c)
              | None => Ok nc
              end) x = Ok y →
  y = x.
Proof.
  revert y. induction x as [|nc x IH]; intros y H.
  - by injection H as <-.
  - cbn [mapM] in H. inv_bind H as nc' Hnc. inv_bind H as y' Hy'.
    injection H as <-. rewrite lookup_empty in Hnc. injection Hnc as <-.
    by rewrite (IH _ Hy').
Qed.

Lemma df_drop_inv (labels : list string) (x y : frame) :
  df_drop labels x = Ok y →
  (∀ l, l ∈ labels → l ∈ columns x) ∧ y = filter (λ nc, nc.1 ∉ labels) x.
Proof.
  unfold df_drop. destruct (filter _ labels) as [|l0 ?] eqn:Hfil; [|done].
  intros [= <-]. split; [|done]. intros l Hl.
  destruct (decide (l ∈ columns x)) as [|Hn]; [done|].
  assert (l ∈ filter (λ l, l ∉ columns x) labels) as Hin
    by (by apply list_elem_of_filter).
  rewrite Hfil in Hin. by apply elem_of_nil in Hin.
Qed.

Lemma getitem_filter_notin (labels : list string) (x : frame) (m : string) :
  m ∉ labels → getitem (filter (λ nc, nc.1 ∉ labels) x) m = getitem x m.
Proof.
  intros Hm. induction x as [|[n c] x IH]; [done|].
  rewrite filter_cons. cbn [fst getitem].
  destruct (decide (n ∉ labels)) as [Hn|Hn]; cbn [getitem].
  - by destruct (decide (n = m)).
  - rewrite decide_False; [done|]. by intros ->.
Qed.

Lemma columns_filter_notin (labels : list string) (x : frame) :
  columns (filter (λ nc, nc.1 ∉ labels) x)
  = filter (λ m, m ∉ labels) (columns x).
Proof.
  unfold columns. induction x as [|[n c] x IH]; [done|].
  rewrite fmap_cons, !filter_cons. cbn [fst].
  destruct (decide (n ∉ labels)); [rewrite fmap_cons|]; by rewrite IH.
Qed.

Lemma columns_app (x y : frame) : columns (x ++ y) = columns x ++ columns y.
Proof. apply fmap_app. Qed.

Lemma columns_mask_rows (ii : list bool) (x : frame) :
  columns (mask_rows ii x) = columns x.
Proof. unfold columns, mask_rows. by rewrite <-list_fmap_compose. Qed.

Lemma length_mask_list {A} (mask : list bool) (l : list A) :
  length l = length mask → length (mask_list mask l) = count_true mask.
Proof.
  unfold count_true. revert l.
  induction mask as [|b mask IH]; intros [|a l] Hlen; try done.
  cbn [mask_list]. rewrite filter_cons. injection Hlen as Hlen.
  destruct b.
  - rewrite decide_True by done. simpl. by rewrite IH.
  - rewrite decide_False by done. by apply IH.
Qed.

Lemma col_length_mask_col (mask : list bool) (c : column) :
  col_length c = length mask →
  col_length (mask_col mask c) = count_true mask.
Proof.
  unfold col_length. destruct c; simpl; rewrite ?length_fmap; intros H;
    by apply length_mask_list.
Qed.

Lemma count_true_not_dot (snp : list string) :
  count_true (not_dot_mask snp) = length (filter (λ s, s ≠ ".") snp).
Proof.
  unfold count_true, not_dot_mask. induction snp as [|s snp IH]; [done|].
  rewrite fmap_cons, !filter_cons.
  destruct (decide (s = ".")) as [->|Hs].
  - rewrite bool_decide_eq_true_2 by done. cbn [negb].
    rewrite (decide_False (P := false = true)) by done.
    by rewrite (decide_False (P := "." ≠ ".")) by (by intros ?).
  - rewrite bool_decide_eq_false_2 by done. cbn [negb].
    rewrite (decide_True (P := true = true)) by done.
    rewrite (decide_True (P := s ≠ ".")) by done.
    simpl. by rewrite IH.
Qed.

Section LDScoreMore.

Variable pd_concat : list frame → result frame.
Variable float_of_string : string → option float.

Lemma astype_float_inv (c c' : column) :
  astype_float float_of_string c = Ok c' →
  ∃ l, c' = CFloat l ∧ length l = col_length c.
Proof.
  unfold astype_float. destruct (mapM _ _) as [l|] eqn:Hl; [|done].
  intros [= <-]. exists l. split; [done|].
  apply length_mapM in Hl. by rewrite <-Hl.
Qed.

Lemma mapM_astype_float (l rest : frame) :
  mapM (λ nc, c ← astype_float float_of_string nc.2; Ok (nc.1, c)) l
  = Ok rest →
  Forall2 (λ nc nc', nc'.1 = nc.1
                     ∧ ∃ v, nc'.2 = CFloat v ∧ length v = col_length nc.2)
          l rest.
Proof.
  revert rest. induction l as [|[n c] l IH]; intros rest H.
  - injection H as <-. constructor.
  - cbn [mapM] in H. inv_bind H as nc' Hnc. inv_bind H as y' Hy'.
    injection H as <-. inv_bind Hnc as c' Hc'. injection Hnc as <-.
    constructor; [|by apply IH]. split; [done|]. by apply astype_float_inv.
Qed.

Lemma mapM_astype_float_columns (l rest : frame) :
  mapM (λ nc, c ← astype_float float_of_string nc.2; Ok (nc.1, c)) l
  = Ok rest →
  columns rest = columns l.
Proof.
  intros H%mapM_astype_float. unfold columns.
  induction H as [|? ? ? ? [Heq _] _ IH]; [done|].
  by rewrite !fmap_cons, Heq, IH.
Qed.

Lemma parsefunc_inv (fs : filesystem) (y : string) (x : frame) :
  parsefunc fs y = Ok x →
  ∃ f, fs y = Some f
       ∧ (∀ l, l ∈ ["CHR"; "BP"; "CM"; "MAF"] → l ∈ columns f)
       ∧ x = filter (λ nc, nc.1 ∉ ["CHR"; "BP"; "CM"; "MAF"])
               (mangle_dupe_cols [] f).
Proof.
  unfold parsefunc, open. intros H. destruct (fs y) as [f|]; [|done].
  cbn [mbind result_bind] in H. inv_bind H as x0 Hx0.
  unfold read_csv in Hx0. apply mapM_no_dtype in Hx0 as ->.
  apply df_drop_inv in H as [Hl ->]. exists f. split_and!; [done| |done].
  intros l Hin. specialize (Hl l Hin).
  apply getitem_columns in Hl as [c Hc]. apply getitem_columns. exists c.
  rewrite <-Hc. symmetry. apply getitem_mangle; [|apply not_elem_of_nil].
  repeat (apply elem_of_cons in Hin as [->|Hin]; [done|]).
  by apply elem_of_nil in Hin.
Qed.

(** The steps of [ldscore] after the table [x] is read. *)
Lemma ldscore_inv (fs : filesystem) (fh : string) (num : option Z)
    (t : frame) :
  ldscore pd_concat float_of_string fs fh num = Ok t →
  ∃ x snp rest,
    match num with
    | Some num =>
        chr_ld ← mapM (λ i, parsefunc fs (fh +:+ pretty i +:+ ".l2.ldscore"))
                      (seqZ 1 num);
        pd_concat chr_ld
    | None => parsefunc fs (fh +:+ ".l2.ldscore")
    end = Ok x ∧
    getitem x "SNP" = Ok (CStr snp) ∧
    NoDup (filter (λ s, s ≠ ".") snp) ∧
    mapM (λ nc, c ← astype_float float_of_string nc.2; Ok (nc.1, c))
         (drop 1 (mask_rows (not_dot_mask snp) x)) = Ok rest ∧
    t = take 1 (mask_rows (not_dot_mask snp) x) ++ rest.
Proof.
  unfold ldscore. intros H. inv_bind H as x Hx. inv_bind H as snp Hsnp.
  fold (not_dot_mask snp) in H.
  inv_bind H as snp' Hsnp'. inv_bind H as u Hchk. destruct u.
  inv_bind H as rest Hrest. injection H as <-.
  exists x, snp, rest. split_and!; try done.
  - by apply get_str_inv.
  - apply get_str_inv in Hsnp. unfold get_str in Hsnp'.
    rewrite (getitem_mask_rows _ _ _ _ Hsnp) in Hsnp'. simpl in Hsnp'.
    injection Hsnp' as <-. unfold not_dot_mask in Hchk.
    rewrite mask_list_not_dot in Hchk.
    by apply check_rsid_Ok in Hchk as [_ ?].
Qed.

End LDScoreMore.

(** X17: [ldscore] on a single file returns only when the header of the
    file has the labels CHR, BP, CM and MAF; the labels of the returned table
    are those of the header without these four, in the order of the file. *)
Theorem ldscore_output_labels (pd_concat : list frame → result frame)
    (float_of_string : string → option float)
    (fs : filesystem) (fh : string) (f : file) (t : frame) :
  fs (fh +:+ ".l2.ldscore") = Some f →
  NoDup (columns f) →
  ldscore pd_concat float_of_string fs fh None = Ok t →
  (∀ m, m ∈ ["CHR"; "BP"; "CM"; "MAF"] → m ∈ columns f)
  ∧ columns t = filter (λ m, m ∉ ["CHR"; "BP"; "CM"; "MAF"]) (columns f).
Proof.
  intros Hf Hnd H.
  destruct (ldscore_inv _ _ _ _ _ _ H) as (x & snp & rest & Hx & _ & _ & Hrest
                                           & ->).
  destruct (parsefunc_inv _ _ _ Hx) as (f' & Hf' & Hl & ->).
  assert (f' = f) as -> by congruence. split; [done|].
  rewrite mangle_dupe_cols_NoDup in * by (done || (intros; apply not_elem_of_nil)).
  pose proof (mapM_astype_float_columns _ _ _ Hrest) as Hc.
  rewrite columns_app, Hc, <-columns_app, take_drop.
  by rewrite columns_mask_rows, columns_filter_notin.
Qed.

Lemma ldscore_output_labels_witness :
  (∀ m, m ∈ ["CHR"; "BP"; "CM"; "MAF"] → m ∈ columns Ex.ld_file)
  ∧ columns [("SNP", CStr ["rs1"; "rs2"]); ("L2", CFloat [F.one; Ex.four])]
    = filter (λ m, m ∉ ["CHR"; "BP"; "CM"; "MAF"]) (columns Ex.ld_file).
Proof.
  apply (ldscore_output_labels Ex.pd_concat Ex.float_of_string Ex.ld_fs "ref").
  - reflexivity.
  - unfold Ex.ld_file, columns. simpl. repeat (apply NoDup_cons; split);
      [labels_ne..|apply NoDup_nil_2].
  - vm_compute. reflexivity.
Defined.

Lemma rectangular_mask_rows (rows : nat) (mask : list bool) (x : frame) :
  rectangular rows x → length mask = rows →
  rectangular (count_true mask) (mask_rows mask x).
Proof.
  unfold rectangular, mask_rows. intros Hx Hlen. rewrite Forall_fmap.
  eapply Forall_impl; [done|]. intros [n c] Hc. simpl in *.
  apply col_length_mask_col. congruence.
Qed.

Lemma mapM_first_raise {A B} (f : A → result B) (l1 : list A) (a : A)
    (l2 : list A) (e : exn) :
  Forall (λ b, ∃ y, f b = Ok y) l1 → f a = Raise e →
  mapM f (l1 ++ a :: l2) = Raise e.
Proof.
  intros Hl1 Ha. induction Hl1 as [|b l1 [y Hy] _ IH]; cbn [mapM app].
  - by rewrite Ha.
  - rewrite Hy. cbn [mbind result_bind]. by rewrite IH.
Qed.

Lemma mapM_result_Forall {A B} (f : A → result B) (l : list A)
    (k : list B) :
  mapM f l = Ok k → Forall (λ a, ∃ y, f a = Ok y) l.
Proof.
  revert k. induction l as [|a l IH]; intros k H; [constructor|].
  cbn [mapM] in H. inv_bind H as y Hy. inv_bind H as k' Hk'.
  constructor; [by exists y|by eapply IH].
Qed.

Lemma seqZ_split (n i : Z) :
  1 ≤ i ≤ n → seqZ 1 n = seqZ 1 (i - 1) ++ i :: seqZ (i + 1) (n - i).
Proof.
  intros Hi. replace n with ((i - 1) + (n - (i - 1))) at 1 by lia.
  rewrite seqZ_app by lia. f_equal.
  rewrite seqZ_cons by lia. f_equal; [lia|]. f_equal; lia.
Qed.

(** X18: in the table [ldscore] returns, every column after the first is a
    column of floats. *)
Theorem ldscore_float_columns (pd_concat : list frame → result frame)
    (float_of_string : string → option float)
    (fs : filesystem) (fh : string) (num : option Z) (t : frame)
    (k : nat) (m : string) (c : column) :
  ldscore pd_concat float_of_string fs fh num = Ok t →
  t !! S k = Some (m, c) →
  ∃ l, c = CFloat l.
Proof.
  intros H Hk.
  destruct (ldscore_inv _ _ _ _ _ _ H) as (x & snp & rest & _ & Hsnp & _
                                           & Hrest & ->).
  destruct x as [|[n0 c0] x]; [done|]. cbn [mask_rows fmap list_fmap] in *.
  simpl in Hk, Hrest. apply mapM_astype_float in Hrest.
  destruct (Forall2_lookup_r _ _ _ _ _ Hrest Hk) as (nc & _ & _ & v & Hv & _).
  by exists v.
Qed.

Lemma ldscore_float_columns_witness :
  ∃ l, CFloat [F.one; Ex.four] = CFloat l.
Proof.
  apply (ldscore_float_columns Ex.pd_concat Ex.float_of_string Ex.ld_fs "ref"
           None
           [("SNP", CStr ["rs1"; "rs2"]); ("L2", CFloat [F.one; Ex.four])]
           0 "L2").
  - vm_compute. reflexivity.
  - reflexivity.
Defined.

(** X19: when the identifiers are the first column of the table [ldscore]
    returns for a single file, they are the identifiers of the file without
    the dots, in the order of the file, and no two of them are equal. *)
Theorem ldscore_rsids (pd_concat : list frame → result frame)
    (float_of_string : string → option float)
    (fs : filesystem) (fh : string) (f : file) (t : frame) :
  fs (fh +:+ ".l2.ldscore") = Some f →
  ldscore pd_concat float_of_string fs fh None = Ok t →
  columns t !! 0%nat = Some "SNP" →
  ∃ snp, getitem f "SNP" = Ok (CStr snp)
         ∧ NoDup (filter (λ s, s ≠ ".") snp)
         ∧ getitem t "SNP" = Ok (CStr (filter (λ s, s ≠ ".") snp)).
Proof.
  intros Hf H Hfirst.
  destruct (ldscore_inv _ _ _ _ _ _ H) as (x & snp & rest & Hx & Hsnp & Hnd
                                           & Hrest & ->).
  destruct (parsefunc_inv _ _ _ Hx) as (f' & Hf' & Hl & Hxeq).
  assert (f' = f) as -> by congruence.
  exists snp. split_and!; [|done|].
  - rewrite <-Hsnp, Hxeq, getitem_filter_notin by labels_ne.
    symmetry. apply getitem_mangle; [done|apply not_elem_of_nil].
  - clear Hxeq. destruct x as [|[n0 c0] x]; [done|].
    simpl in Hfirst. injection Hfirst as ->.
    cbn [getitem] in Hsnp. rewrite decide_True in Hsnp by done.
    injection Hsnp as ->.
    cbn [mask_rows fmap list_fmap take app getitem fst snd mask_col].
    rewrite decide_True by done.
    unfold not_dot_mask. by rewrite mask_list_not_dot.
Qed.

Lemma ldscore_rsids_witness :
  ∃ snp, getitem Ex.ld_file "SNP" = Ok (CStr snp)
         ∧ NoDup (filter (λ s, s ≠ ".") snp)
         ∧ getitem [("SNP", CStr ["rs1"; "rs2"]);
                    ("L2", CFloat [F.one; Ex.four])] "SNP"
           = Ok (CStr (filter (λ s, s ≠ ".") snp)).
Proof.
  apply (ldscore_rsids Ex.pd_concat Ex.float_of_string Ex.ld_fs "ref").
  - reflexivity.
  - vm_compute. reflexivity.
  - reflexivity.
Defined.

(** X20: [ldscore] removes the rows whose identifier is a dot from every
    column: on a single file whose columns all have the same number of rows,
    every column of the returned table has as many rows as the file has
    identifiers other than a dot. *)
Theorem ldscore_rows (pd_concat : list frame → result frame)
    (float_of_string : string → option float)
    (fs : filesystem) (fh : string) (f : file) (t : frame) (rows : nat) :
  fs (fh +:+ ".l2.ldscore") = Some f →
  rectangular rows f →
  ldscore pd_concat float_of_string fs fh None = Ok t →
  ∃ snp, getitem f "SNP" = Ok (CStr snp)
         ∧ rectangular (length (filter (λ s, s ≠ ".") snp)) t.
Proof.
  intros Hf Hrect H.
  destruct (ldscore_inv _ _ _ _ _ _ H) as (x & snp & rest & Hx & Hsnp & Hnd
                                           & Hrest & ->).
  destruct (parsefunc_inv _ _ _ Hx) as (f' & Hf' & Hl & Hxeq).
  assert (f' = f) as -> by congruence.
  exists snp. split.
  - rewrite <-Hsnp, Hxeq, getitem_filter_notin by labels_ne.
    symmetry. apply getitem_mangle; [done|apply not_elem_of_nil].
  - assert (rectangular rows x) as Hrx.
    { rewrite Hxeq. by apply rectangular_filter, rectangular_mangle. }
    assert (length (not_dot_mask snp) = rows) as Hlen.
    { rewrite <-(rectangular_getitem _ _ _ _ Hrx Hsnp).
      unfold not_dot_mask, col_length. simpl. by rewrite !length_fmap. }
    pose proof (rectangular_mask_rows _ _ _ Hrx Hlen) as Hm.
    rewrite count_true_not_dot in Hm. unfold rectangular in *.
    apply Forall_app. split; [by apply Forall_take|].
    apply mapM_astype_float in Hrest.
    apply (Forall_drop _ 1) in Hm.
    clear -Hrest Hm.
    induction Hrest as [|nc nc' l k (_ & v & Hv & Hlv) _ IH]; [constructor|].
    apply Forall_cons in Hm as [Hnc Hm].
    constructor; [|by apply IH].
    rewrite Hv. unfold col_length at 1. simpl. rewrite length_fmap. congruence.
Qed.

Lemma ldscore_rows_witness :
  ∃ snp, getitem Ex.ld_file "SNP" = Ok (CStr snp)
         ∧ rectangular (length (filter (λ s, s ≠ ".") snp))
             [("SNP", CStr ["rs1"; "rs2"]); ("L2", CFloat [F.one; Ex.four])].
Proof.
  apply (ldscore_rows Ex.pd_concat Ex.float_of_string Ex.ld_fs "ref"
           Ex.ld_file _ 3).
  - reflexivity.
  - unfold rectangular, Ex.ld_file. repeat constructor.
  - vm_compute. reflexivity.
Defined.

(** X21: [ldscore] on a reference split by chromosome reads the files in
    the order 1, 2, ..., num and raises what the first file that does not
    parse raises. *)
Theorem ldscore_first_bad_chunk (pd_concat : list frame → result frame)
    (float_of_string : string → option float)
    (fs : filesystem) (fh : string) (num i : Z) (e : exn) :
  1 ≤ i ≤ num →
  (∀ j, 1 ≤ j < i →
        ∃ x, parsefunc fs (fh +:+ pretty j +:+ ".l2.ldscore") = Ok x) →
  parsefunc fs (fh +:+ pretty i +:+ ".l2.ldscore") = Raise e →
  ldscore pd_concat float_of_string fs fh (Some num) = Raise e.
Proof.
  intros Hi Hbefore Hbad. unfold ldscore.
  rewrite (seqZ_split num i Hi).
  rewrite (mapM_first_raise _ _ _ _ e); [done| |done].
  apply Forall_forall. intros j Hj. apply elem_of_seqZ in Hj.
  apply Hbefore. lia.
Qed.

Lemma ldscore_first_bad_chunk_witness :
  ldscore Ex.pd_concat Ex.float_of_string Ex.ld_chunk_fs "ref" (Some 2)
  = Raise (IOError "ref2.l2.ldscore").
Proof.
  apply (ldscore_first_bad_chunk Ex.pd_concat Ex.float_of_string
           Ex.ld_chunk_fs "ref" 2 2).
  - lia.
  - intros j Hj. assert (j = 1) as -> by lia. eexists. vm_compute.
    reflexivity.
  - vm_compute. reflexivity.
Defined.

(** X22: [ldscore] on a reference split by chromosome returns only when
    each of the files 1, ..., num exists and has the labels CHR, BP, CM and
    MAF in its header. *)
Theorem ldscore_chunks (pd_concat : list frame → result frame)
    (float_of_string : string → option float)
    (fs : filesystem) (fh : string) (num i : Z) (t : frame) :
  ldscore pd_concat float_of_string fs fh (Some num) = Ok t →
  1 ≤ i ≤ num →
  ∃ f, fs (fh +:+ pretty i +:+ ".l2.ldscore") = Some f
       ∧ ∀ l, l ∈ ["CHR"; "BP"; "CM"; "MAF"] → l ∈ columns f.
Proof.
  intros H Hi.
  destruct (ldscore_inv _ _ _ _ _ _ H) as (x & _ & _ & Hx & _).
  inv_bind Hx as chr_ld Hchr. apply mapM_result_Forall in Hchr.
  rewrite Forall_forall in Hchr.
  destruct (Hchr i) as [y Hy]; [apply elem_of_seqZ; lia|].
  destruct (parsefunc_inv _ _ _ Hy) as (f & Hf & Hl & _). by exists f.
Qed.

Lemma ldscore_chunks_witness :
  ∃ f, Ex.ld_chunk_fs ("ref" +:+ pretty 1 +:+ ".l2.ldscore") = Some f
       ∧ ∀ l, l ∈ ["CHR"; "BP"; "CM"; "MAF"] → l ∈ columns f.
Proof.
  apply (ldscore_chunks Ex.pd_concat Ex.float_of_string Ex.ld_chunk_fs "ref"
           1 1
           [("SNP", CStr ["rs1"; "rs2"]); ("L2", CFloat [F.one; Ex.four])]).
  - vm_compute. reflexivity.
  - lia.
Defined.

(** ** [M] *)

Section MProps.

Variable float_of_string : string → option float.
Variable ndarray : Type.
Variable np_sum_axis0 : list (list float) → result ndarray.

Lemma M_parsefunc_inv (fs : first_lines) (y : string) (x : list float) :
  M_parsefunc float_of_string fs y = Ok x →
  ∃ words, fs y = Some words
           ∧ Forall2 (λ w v, float_of_string w = Some v) words x.
Proof.
  unfold M_parsefunc. destruct (fs y) as [words|]; [|done].
  destruct (mapM _ _) as [x'|] eqn:Hx; [|done]. intros [= <-].
  exists words. split; [done|]. by apply mapM_Some_1.
Qed.

End MProps.

(** X23: [M] returns only when every file it names exists and every word
    of the first line of each reads as a float; for a single file the result
    is the list of these floats, one for each word, in order. *)
Theorem M_files_read (float_of_string : string → option float)
    (ndarray : Type) (np_sum_axis0 : list (list float) → result ndarray)
    (fs : first_lines) (fh : string) (num : option Z)
    (r : list float + ndarray) :
  M float_of_string ndarray np_sum_axis0 fs fh num = Ok r →
  match num with
  | None =>
      ∃ words x, fs (fh +:+ ".l2.M") = Some words
                 ∧ r = inl x
                 ∧ Forall2 (λ w v, float_of_string w = Some v) words x
  | Some num =>
      ∀ i, 1 ≤ i ≤ num →
           ∃ words, fs (fh +:+ pretty i +:+ ".l2.M") = Some words
                    ∧ Forall (λ w, is_Some (float_of_string w)) words
  end.
Proof.
  unfold M. intros H. destruct num as [num|].
  - intros i Hi. inv_bind H as rows Hrows.
    apply mapM_result_Forall in Hrows. rewrite Forall_forall in Hrows.
    destruct (Hrows i) as [y Hy]; [apply elem_of_seqZ; lia|].
    destruct (M_parsefunc_inv _ _ _ _ Hy) as (words & Hw & Hall).
    exists words. split; [done|].
    clear -Hall. induction Hall as [|w v ws vs Hwv _ IH]; constructor; [|done].
    by exists v.
  - inv_bind H as x Hx. injection H as <-.
    destruct (M_parsefunc_inv _ _ _ _ Hx) as (words & Hw & Hall).
    by exists words, x.
Qed.

Lemma M_files_read_witness :
  ∃ words x, Ex.m_lines ("ref1" +:+ ".l2.M") = Some words
             ∧ (inl [F.one; Ex.four] : list float + list float) = inl x
             ∧ Forall2 (λ w v, Ex.float_of_digits w = Some v) words x.
Proof.
  apply (M_files_read Ex.float_of_digits (list float) Ex.np_sum_axis0
           Ex.m_lines "ref1" None).
  vm_compute. reflexivity.
Defined.

(** X24: [M] on counts split by chromosome reads the files in the order
    1, 2, ..., num and raises what the first file that does not parse
    raises; the rows are not summed. *)
Theorem M_first_bad_chunk (float_of_string : string → option float)
    (ndarray : Type) (np_sum_axis0 : list (list float) → result ndarray)
    (fs : first_lines) (fh : string) (num i : Z) (e : exn) :
  1 ≤ i ≤ num →
  (∀ j, 1 ≤ j < i →
        ∃ x, M_parsefunc float_of_string fs (fh +:+ pretty j +:+ ".l2.M")
             = Ok x) →
  M_parsefunc float_of_string fs (fh +:+ pretty i +:+ ".l2.M") = Raise e →
  M float_of_string ndarray np_sum_axis0 fs fh (Some num) = Raise e.
Proof.
  intros Hi Hbefore Hbad. unfold M.
  rewrite (seqZ_split num i Hi).
  rewrite (mapM_first_raise _ _ _ _ e); [done| |done].
  apply Forall_forall. intros j Hj. apply elem_of_seqZ in Hj.
  apply Hbefore. lia.
Qed.

Lemma M_first_bad_chunk_witness :
  M Ex.float_of_digits (list float) Ex.np_sum_axis0 Ex.m_lines "ref" (Some 2)
  = Raise (IOError "ref2.l2.M").
Proof.
  apply (M_first_bad_chunk Ex.float_of_digits (list float) Ex.np_sum_axis0
           Ex.m_lines "ref" 2 2).
  - lia.
  - intros j Hj. assert (j = 1) as -> by lia. eexists. vm_compute.
    reflexivity.
  - vm_compute. reflexivity.
Defined.

(** ** More on the identifier lists *)

Lemma st_bind_Ok {A B} (m : st A) (f : A → st B) (σ σ' : gmap loc frame)
    (b : B) :
  (m ≫= f) σ = (Ok b, σ') →
  ∃ a σ1, m σ = (Ok a, σ1) ∧ f a σ1 = (Ok b, σ').
Proof.
  rewrite run_bind. destruct (m σ) as [[a|e] σ1]; [|done]. eauto.
Qed.

Lemma lift_Ok {A} (r : result A) (σ σ' : gmap loc frame) (a : A) :
  lift r σ = (Ok a, σ') → r = Ok a ∧ σ' = σ.
Proof. unfold lift. by intros [= -> ->]. Qed.

Lemma set_columns_Ok (x y : frame) (names : list string) :
  IDContainer.set_columns x names = Ok y →
  columns y = names ∧ length y = length x.
Proof.
  unfold IDContainer.set_columns. destruct (decide _) as [Hlen|]; [|done].
  intros [= <-]. split.
  - unfold columns. revert x Hlen.
    induction names as [|nm names IH]; intros [|nc x] Hlen; try done.
    simpl. f_equal. apply IH. by injection Hlen.
  - rewrite length_zip_with. lia.
Qed.

Lemma truthy_str_Some (e : string) :
  e ≠ "" → truthy_str (Some e) = Some e.
Proof. by destruct e. Qed.

Lemma truthy_list_Some {A} (l : list A) :
  l ≠ [] → truthy_list (Some l) = Some l.
Proof. by destruct l. Qed.

(** What [__read__] has done when it returns: the file is read into a new
    DataFrame, and its column [keepcol] is copied into another new one. *)
Lemma read_inv (c : IDContainer.factory) (fs : filesystem) (fname : string)
    (σ σ' : gmap loc frame) (d i : loc) :
  IDContainer.__read__ c fs fname σ = (Ok (d, i), σ') →
  ∃ f x0 x k nc,
    fs fname = Some f ∧
    IDContainer.read_csv_pos f (IDContainer.header c) (IDContainer.usecols c)
    = Ok x0 ∧
    match truthy_list (IDContainer.colnames c) with
    | Some names => IDContainer.set_columns x0 names
    | None => Ok x0
    end = Ok x ∧
    d = fresh (dom σ) ∧ i = fresh (dom (<[d := x]> σ)) ∧
    σ' = <[i := [nc]]> (<[d := x]> σ) ∧
    py_index (length x) (IDContainer.keepcol c) = Some k ∧
    x !! k = Some nc ∧
    match truthy_str (IDContainer.fname_end c) with
    | Some e => ends_with fname e = true
    | None => True
    end.
Proof.
  unfold IDContainer.__read__. intros H.
  apply st_bind_Ok in H as ([] & σ1 & Hend & H).
  assert (σ1 = σ ∧ match truthy_str (IDContainer.fname_end c) with
                   | Some e => ends_with fname e = true
                   | None => True
                   end) as [-> Hsfx].
  { destruct (truthy_str _) as [e|]; [|by injection Hend as <-].
    destruct (ends_with fname e); [by injection Hend as <-|done]. }
  apply st_bind_Ok in H as (f & σ1 & Hf & H).
  apply lift_Ok in Hf as [Hf ->].
  apply st_bind_Ok in H as (x0 & σ1 & Hx0 & H).
  apply lift_Ok in Hx0 as [Hx0 ->].
  apply st_bind_Ok in H as (x & σ1 & Hx & H).
  apply lift_Ok in Hx as [Hx ->].
  apply st_bind_Ok in H as (d' & σ1 & Hd & H).
  unfold df_new in Hd. injection Hd as <- <-.
  apply st_bind_Ok in H as (i' & σ2 & Hi & H).
  injection H as <- <- <-.
  unfold df_iloc_col in Hi. rewrite run_bind in Hi.
  rewrite (df_read_Some _ _ x) in Hi by apply lookup_insert_eq.
  destruct (py_index (length x) _) as [k|] eqn:Hk; [|done].
  simpl in Hi. destruct (x !! k) as [nc|] eqn:Hnc; [|done].
  unfold df_new in Hi. injection Hi as <- <-.
  unfold open in Hf. destruct (fs fname) as [f'|] eqn:Hfs; [|done].
  injection Hf as ->.
  by exists f, x0, x, k, nc.
Qed.

(** What [__init__] has done when it returns. *)
Lemma init_inv (c : IDContainer.factory) (fs : filesystem) (fname : string)
    (σ σ' : gmap loc frame) (self : IDContainer.t) :
  IDContainer.__init__ c fs fname σ = (Ok self, σ') →
  ∃ x k nc names d i,
    IDContainer.colnames c = Some names ∧
    (names ≠ [] → columns x = names) ∧
    ("SNP" ∈ names → ∃ snp, get_str x "SNP" = Ok snp ∧ check_rsid snp = Ok tt) ∧
    d = fresh (dom σ) ∧ i = fresh (dom (<[d := x]> σ)) ∧
    σ' = <[i := [nc]]> (<[d := x]> σ) ∧
    self = IDContainer.Make c d i (col_length nc.2) ∧
    py_index (length x) (IDContainer.keepcol c) = Some k ∧
    x !! k = Some nc.
Proof.
  unfold IDContainer.__init__. intros H.
  apply st_bind_Ok in H as ([d i] & σ1 & Hread & H).
  destruct (read_inv _ _ _ _ _ _ _ Hread)
    as (f & x0 & x & k & nc & _ & _ & Hx & Hd & Hi & -> & Hk & Hnc & _).
  apply st_bind_Ok in H as ([] & σ2 & Hchk & H).
  destruct (IDContainer.colnames c) as [names|] eqn:Hnames; [|done].
  assert (σ2 = <[i:=[nc]]> (<[d:=x]> σ)
          ∧ ("SNP" ∈ names →
             ∃ snp, get_str x "SNP" = Ok snp ∧ check_rsid snp = Ok tt))
    as [-> Hsnp].
  { destruct (decide _) as [Hin|Hin]; [|by injection Hchk as <-].
    apply st_bind_Ok in Hchk as (y & σ3 & Hy & Hchk).
    assert (d ≠ i) as Hne.
    { assert (i ∉ dom (<[d:=x]> σ)) as Hfr by (rewrite Hi; apply is_fresh).
      intros <-. apply Hfr, elem_of_dom. rewrite lookup_insert_eq. eauto. }
    rewrite (df_read_Some _ _ x) in Hy
      by (rewrite lookup_insert_ne by done; apply lookup_insert_eq).
    injection Hy as <- <-. apply lift_Ok in Hchk as [Hchk ->].
    split; [done|]. intros _. inv_bind Hchk as snp Hsnp. destruct Hchk.
    by exists snp. }
  apply st_bind_Ok in H as (ids & σ3 & Hids & H).
  rewrite (df_read_Some _ _ [nc]) in Hids by apply lookup_insert_eq.
  injection Hids as <- <-. injection H as <- <-.
  exists x, k, nc, names, d, i. split_and!; try done.
  - intros Hne. rewrite truthy_list_Some in Hx by done.
    by apply set_columns_Ok in Hx as [? _].
  - by destruct nc.
Qed.

(** X25: what a container holds when [__init__] returns: [df] and [IDList]
    are two new DataFrames, the DataFrames that existed before are as they
    were, the labels of [df] are the column names of the factory, [IDList]
    has one column, the column of [df] at position [keepcol], and [n] is its
    number of rows. *)
Theorem init_container (c : IDContainer.factory) (fs : filesystem)
    (fname : string) (σ σ' : gmap loc frame) (self : IDContainer.t) :
  IDContainer.__init__ c fs fname σ = (Ok self, σ') →
  IDContainer.cls self = c
  ∧ σ ⊆ σ'
  ∧ σ !! IDContainer.df self = None
  ∧ σ !! IDContainer.IDList self = None
  ∧ IDContainer.df self ≠ IDContainer.IDList self
  ∧ ∃ x k nc,
      σ' !! IDContainer.df self = Some x
      ∧ σ' !! IDContainer.IDList self = Some [nc]
      ∧ (∀ names, IDContainer.colnames c = Some names → names ≠ [] →
                  columns x = names)
      ∧ py_index (length x) (IDContainer.keepcol c) = Some k
      ∧ x !! k = Some nc
      ∧ IDContainer.n self = col_length nc.2.
Proof.
  intros H.
  destruct (init_inv _ _ _ _ _ _ H)
    as (x & k & nc & names & d & i & Hnames & Hcols & _ & Hd & Hi & -> & ->
        & Hk & Hnc).
  simpl.
  assert (σ !! d = None) as Hdn.
  { rewrite Hd. apply not_elem_of_dom, is_fresh. }
  assert (<[d:=x]> σ !! i = None) as Hin.
  { rewrite Hi. apply not_elem_of_dom, is_fresh. }
  assert (d ≠ i) as Hne.
  { intros <-. by rewrite lookup_insert_eq in Hin. }
  rewrite lookup_insert_ne in Hin by done.
  split_and!; try done.
  - etrans; [by apply (insert_subseteq σ d x)|].
    apply insert_subseteq. by rewrite lookup_insert_ne.
  - exists x, k, nc. split_and!; try done.
    + rewrite lookup_insert_ne by done. apply lookup_insert_eq.
    + apply lookup_insert_eq.
    + intros names' Hn' Hne'. assert (names' = names) as -> by congruence.
      by apply Hcols.
Qed.

Lemma init_container_witness :
  IDContainer.cls Ex.bim = PlinkBIMFile
  ∧ (∅ : gmap loc frame) ⊆ Ex.bim_init.2
  ∧ (∅ : gmap loc frame) !! IDContainer.df Ex.bim = None
  ∧ (∅ : gmap loc frame) !! IDContainer.IDList Ex.bim = None
  ∧ IDContainer.df Ex.bim ≠ IDContainer.IDList Ex.bim
  ∧ ∃ x k nc,
      Ex.bim_init.2 !! IDContainer.df Ex.bim = Some x
      ∧ Ex.bim_init.2 !! IDContainer.IDList Ex.bim = Some [nc]
      ∧ (∀ names, IDContainer.colnames PlinkBIMFile = Some names →
                  names ≠ [] → columns x = names)
      ∧ py_index (length x) (IDContainer.keepcol PlinkBIMFile) = Some k
      ∧ x !! k = Some nc
      ∧ IDContainer.n Ex.bim = col_length nc.2.
Proof.
  apply (init_container PlinkBIMFile Ex.bim_fs "ref.bim" ∅ Ex.bim_init.2
           Ex.bim).
  vm_compute. reflexivity.
Defined.

(** X26: a container read from a [.bim] or a [.snp] file keeps the SNP
    column as its list of identifiers: none of them is a dot, no two are
    equal, and [n] is their number. *)
Theorem init_snp_list (c : IDContainer.factory) (fs : filesystem)
    (fname : string) (σ σ' : gmap loc frame) (self : IDContainer.t) :
  c = PlinkBIMFile ∨ c = VcfSNPFile →
  IDContainer.__init__ c fs fname σ = (Ok self, σ') →
  ∃ snp, σ' !! IDContainer.IDList self = Some [("SNP", CStr snp)]
         ∧ ("." ∉ snp) ∧ NoDup snp
         ∧ IDContainer.n self = length snp.
Proof.
  intros Hc H.
  destruct (init_inv _ _ _ _ _ _ H)
    as (x & k & nc & names & d & i & Hnames & Hcols & Hsnp & Hd & Hi & -> & ->
        & Hk & Hnc).
  simpl. rewrite lookup_insert_eq.
  destruct Hc as [-> | ->]; injection Hnames as <-.
  - destruct Hsnp as (snp & Hsnp & Hchk); [labels_in|].
    apply check_rsid_Ok in Hchk as [Hdot Hnd].
    specialize (Hcols ltac:(done)). unfold columns in Hcols.
    destruct x as [|[n1 c1] [|[n2 c2] [|[n3 c3] [|[n4 c4] [|? ?]]]]];
      try done. simplify_eq/=.
    unfold py_index in Hk. simpl in Hk. injection Hk as <-.
    simpl in Hnc. injection Hnc as <-.
    apply get_str_inv in Hsnp. simpl in Hsnp. injection Hsnp as ->.
    exists snp. split_and!; try done.
    unfold col_length. simpl. by rewrite length_fmap.
  - destruct Hsnp as (snp & Hsnp & Hchk); [labels_in|].
    apply check_rsid_Ok in Hchk as [Hdot Hnd].
    specialize (Hcols ltac:(done)). unfold columns in Hcols.
    destruct x as [|[n1 c1] [|[n2 c2] [|[n3 c3] [|[n4 c4] [|? ?]]]]];
      try done. simplify_eq/=.
    unfold py_index in Hk. simpl in Hk. injection Hk as <-.
    simpl in Hnc. injection Hnc as <-.
    apply get_str_inv in Hsnp. simpl in Hsnp. injection Hsnp as ->.
    exists snp. split_and!; try done.
    unfold col_length. simpl. by rewrite length_fmap.
Qed.

Lemma init_snp_list_witness :
  ∃ snp, Ex.bim_init.2 !! IDContainer.IDList Ex.bim
         = Some [("SNP", CStr snp)]
         ∧ ("." ∉ snp) ∧ NoDup snp
         ∧ IDContainer.n Ex.bim = length snp.
Proof.
  apply (init_snp_list PlinkBIMFile Ex.bim_fs "ref.bim" ∅ Ex.bim_init.2
           Ex.bim).
  - left. reflexivity.
  - vm_compute. reflexivity.
Defined.

(** X27: the suffix of the file name is checked before the file is
    opened: with a wrong suffix [__init__] raises the [ValueError] that names
    the suffix, whether the file exists or not, and creates no DataFrame. *)
Theorem init_wrong_suffix (c : IDContainer.factory) (fs : filesystem)
    (fname e : string) (σ : gmap loc frame) :
  IDContainer.fname_end c = Some e →
  e ≠ "" →
  ends_with fname e = false →
  IDContainer.__init__ c fs fname σ
  = (Raise (ValueError (e +:+ " filename must end in " +:+ e)), σ).
Proof.
  intros He Hne Hsfx. unfold IDContainer.__init__, IDContainer.__read__.
  rewrite !run_bind, He, truthy_str_Some, Hsfx by done. done.
Qed.

Lemma init_wrong_suffix_witness :
  IDContainer.__init__ PlinkBIMFile Ex.bim_fs "ref.fam" ∅
  = (Raise (ValueError ".bim filename must end in .bim"), ∅).
Proof.
  apply (init_wrong_suffix PlinkBIMFile Ex.bim_fs "ref.fam" ".bim" ∅).
  - reflexivity.
  - discriminate.
  - vm_compute. reflexivity.
Defined.

(** X28: a factory made without column names gives a class that cannot be
    instantiated: [__init__] raises for every file name.  [AnnotFile] is made
    that way. *)
Theorem init_without_colnames (c : IDContainer.factory) (fs : filesystem)
    (fname : string) (σ : gmap loc frame) :
  IDContainer.colnames c = None →
  raises (IDContainer.__init__ c fs fname σ).1.
Proof.
  intros Hc. unfold IDContainer.__init__. rewrite run_bind.
  destruct (IDContainer.__read__ c fs fname σ) as [[[d i]|e] σ1].
  - rewrite run_bind, Hc. simpl. by eexists.
  - by exists e.
Qed.

Lemma init_without_colnames_witness :
  raises (IDContainer.__init__ AnnotFile Ex.bim_fs "ref.annot" ∅).1.
Proof.
  apply (init_without_colnames AnnotFile Ex.bim_fs "ref.annot" ∅).
  reflexivity.
Defined.

Lemma nonzero_from_all_false (k : nat) (ii : list bool) :
  Forall (λ b, b = false) ii → nonzero_from k ii = [].
Proof.
  intros H. revert k. induction H as [|b ii -> _ IH]; intros k; [done|].
  simpl. apply IH.
Qed.

Lemma mjoin_imap_unmatched {A} (l : list A)
    (h : nat → A → list (nat * option nat)) :
  (∀ i a, (h i a).*2 = [None]) →
  (mjoin (imap h l)).*2 = replicate (length l) None.
Proof.
  revert h. induction l as [|a l IH]; intros h Hh; [done|].
  change (imap h (a :: l)) with (h 0%nat a :: imap (h ∘ S) l).
  cbn [mjoin list_join]. rewrite fmap_app, Hh. simpl.
  rewrite IH; [done|]. intros i b. apply Hh.
Qed.

(** A string identifier has no partner among the values [True]. *)
Lemma left_join_rows_unmatched (ids : list string) (n : nat) :
  (left_join_rows (VStr <$> ids) (VBool <$> replicate n true)).*2
  = replicate (length ids) None.
Proof.
  unfold left_join_rows. rewrite imap_fmap, mjoin_imap_unmatched.
  - done.
  - intros i a. unfold compose, nonzero.
    rewrite nonzero_from_all_false; [done|].
    rewrite !Forall_fmap. apply Forall_forall. by intros b _.
Qed.

Lemma merge_keep_label (l : string) (ids : list string) (n : nat) :
  l ≠ "keep" →
  ∃ z keep,
    pd_merge_left [(l, CStr ids)] [("keep", CBool (replicate n true))]
      l "keep" = Ok z
    ∧ getitem z "keep" = Ok keep
    ∧ cell_eq_True <$> cells keep = replicate (length ids) false.
Proof.
  intros Hl. unfold pd_merge_left. cbn [getitem].
  rewrite (decide_True (P := l = l)) by done.
  rewrite (decide_True (P := "keep" = "keep")) by done.
  cbn [mbind result_bind cells].
  set (rows := left_join_rows (VStr <$> ids) (VBool <$> replicate n true)).
  eexists _, (take_col_na rows.*2 (CBool (replicate n true))).
  split_and!; [done| |].
  - rewrite (decide_False (P := l = "keep")) by done.
    unfold columns. simpl.
    repeat case_decide; simpl in *; repeat case_decide;
      split_elem_of; simplify_eq; done.
  - unfold take_col_na, cells at 1. rewrite <-list_fmap_compose.
    unfold rows. rewrite left_join_rows_unmatched.
    by rewrite fmap_replicate.
Qed.

(** X29: when the first column of the external DataFrame is labelled keep,
    [loj] returns no position at all, whatever that column holds: the column
    of [True] that [loj] adds under the label keep replaces the identifiers
    before the join. *)
Theorem loj_first_label_keep (self : IDContainer.t) (externalDf : loc)
    (σ : gmap loc frame) (l : string) (ids : list string) (c : column)
    (rest : frame) :
  σ !! IDContainer.IDList self = Some [(l, CStr ids)] →
  σ !! externalDf = Some (("keep", c) :: rest) →
  l ≠ "keep" →
  (IDContainer.loj self externalDf σ).1 = Ok [].
Proof.
  intros Hids Hext Hl.
  destruct (merge_keep_label l ids (col_length c) Hl)
    as (z & keep & Hz & Hkeep & Hii).
  unfold IDContainer.loj.
  rewrite run_bind, (df_read_Some _ _ _ Hext). cbv beta iota.
  rewrite run_bind. unfold lift at 1.
  change (columns (("keep", c) :: rest) !! 0%nat) with (Some "keep").
  cbv beta iota.
  rewrite run_bind, (df_read_Some _ _ _ Hids). cbv beta iota.
  rewrite run_bind. unfold lift at 1.
  change (columns [(l, CStr ids)] !! 0%nat) with (Some l).
  cbv beta iota.
  rewrite run_bind, (df_iloc_col_0 _ _ _ _ Hext). cbv beta iota.
  set (ℓ1 := fresh (dom σ)).
  assert (Hℓ1 : σ !! ℓ1 = None) by apply not_elem_of_dom, is_fresh.
  rewrite run_bind.
  rewrite (df_setitem_true_Some _ _ [("keep", c)])
    by apply lookup_insert_eq.
  cbv beta iota. rewrite insert_insert_eq.
  replace (setitem [("keep", c)] "keep"
             (CBool (replicate (nrows [("keep", c)]) true)))
    with [("keep", CBool (replicate (col_length c) true))].
  2:{ unfold setitem, nrows. simpl. reflexivity. }
  rewrite run_bind. unfold df_merge_left.
  rewrite run_bind, (df_read_Some _ _ [(l, CStr ids)]).
  2:{ rewrite lookup_insert_ne; [done|]. intros Heq. rewrite <-Heq in Hids.
      congruence. }
  cbv beta iota.
  rewrite run_bind,
    (df_read_Some _ _ [("keep", CBool (replicate (col_length c) true))])
    by apply lookup_insert_eq.
  cbv beta iota.
  rewrite run_bind. unfold lift at 1. rewrite Hz. cbv beta iota.
  unfold df_new at 1. cbv beta iota zeta.
  rewrite run_bind, (df_read_Some _ _ z) by apply lookup_insert_eq.
  cbv beta iota.
  rewrite run_bind. unfold lift at 1. rewrite Hkeep. cbv beta iota.
  simpl. rewrite Hii. unfold nonzero.
  rewrite nonzero_from_all_false; [done|].
  apply Forall_forall. by intros b [-> _]%elem_of_replicate.
Qed.

Lemma loj_first_label_keep_witness :
  (IDContainer.loj Ex.bim 3%positive
     (<[3%positive := [("keep", CStr ["rs2"; "rs1"])]]> Ex.bim_init.2)).1
  = Ok [].
Proof.
  apply (loj_first_label_keep Ex.bim 3%positive _ "SNP" ["rs1"; "rs2"]
           (CStr ["rs2"; "rs1"]) []).
  - vm_compute. reflexivity.
  - vm_compute. reflexivity.
  - discriminate.
Defined.

(** ** [filter_df] *)

Lemma mask_list_fmap {A B} (g : A → B) (mask : list bool) (l : list A) :
  mask_list mask (g <$> l) = g <$> mask_list mask l.
Proof.
  revert l. induction mask as [|b mask IH]; intros [|a l]; try done.
  simpl. destruct b; simpl; by rewrite IH.
Qed.

Lemma cells_mask_col (mask : list bool) (c : column) :
  cells (mask_col mask c) = mask_list mask (cells c).
Proof. destruct c; simpl; by rewrite ?mask_list_fmap. Qed.

Lemma mask_list_pred {A} (p : A → bool) (l : list A) :
  mask_list (p <$> l) l = filter (λ v, p v = true) l.
Proof.
  induction l as [|a l IH]; [done|].
  rewrite fmap_cons, filter_cons. cbn [mask_list]. rewrite IH.
  destruct (p a) eqn:Hp.
  - by rewrite decide_True.
  - by rewrite decide_False.
Qed.

Lemma filter_label_getitem (x : frame) (m : string) (nc : string * column)
    (rest : frame) :
  filter (λ nc, nc.1 = m) x = nc :: rest → getitem x m = Ok nc.2.
Proof.
  induction x as [|[n c] x IH]; [done|].
  rewrite filter_cons. cbn [fst getitem].
  destruct (decide (n = m)) as [->|Hne]; [by intros [= <- _]|done].
Qed.

Lemma getitem_label_Series (df : frame) (m : string) (c : column) :
  getitem_label df m = Ok (Series c) →
  filter (λ nc, nc.1 = m) df = [(m, c)].
Proof.
  unfold getitem_label.
  destruct (filter _ df) as [|[n c'] [|? ?]] eqn:Hfil; try done.
  intros [= <-].
  assert ((n, c') ∈ filter (λ nc, nc.1 = m) df) as Hin
    by (rewrite Hfil; left).
  by apply list_elem_of_filter in Hin as [<- _].
Qed.

Lemma filter_label_mask_rows (mask : list bool) (x : frame) (m : string) :
  filter (λ nc, nc.1 = m) (mask_rows mask x)
  = mask_rows mask (filter (λ nc, nc.1 = m) x).
Proof.
  unfold mask_rows. induction x as [|[n c] x IH]; [done|].
  rewrite fmap_cons, !filter_cons. cbn [fst].
  destruct (decide (n = m)); [rewrite fmap_cons|]; by rewrite IH.
Qed.

(** X30: [filter_df] with a predicate that tests each value by itself, on
    a table in which one column is labelled [colname]: the result has the
    labels of the table, its column [colname] holds the values of the column
    that satisfy the predicate, in order, and every column has as many rows
    as there are such values. *)
Theorem filter_df_elementwise
    (getitem_frame_key : frame → frame → result frame)
    (df : frame) (colname : string) (p : cell → bool) (c : column)
    (rows : nat) :
  rectangular rows df →
  getitem_label df colname = Ok (Series c) →
  ∃ df2,
    filter_df getitem_frame_key df colname (elementwise p) = Ok df2
    ∧ columns df2 = columns df
    ∧ (∃ c2, getitem_label df2 colname = Ok (Series c2)
             ∧ cells c2 = filter (λ v, p v = true) (cells c))
    ∧ rectangular (length (filter (λ v, p v = true) (cells c))) df2.
Proof.
  intros Hrect Hsel. unfold filter_df.
  pose proof (getitem_label_Series _ _ _ Hsel) as Hfil.
  pose proof (filter_label_getitem _ _ _ _ Hfil) as Hc. simpl in Hc.
  pose proof (getitem_Ok_columns _ _ _ Hc) as Hin.
  rewrite decide_True by done. rewrite Hsel.
  cbn [mbind result_bind elementwise getitem_key].
  assert (length (p <$> cells c) = rows) as Hlen.
  { rewrite length_fmap. apply (rectangular_getitem _ _ _ _ Hrect Hc). }
  rewrite decide_True
    by (by rewrite Hlen, (nrows_rectangular _ _ _ Hrect Hin)).
  eexists. split_and!; [done| | |].
  - apply columns_mask_rows.
  - exists (mask_col (p <$> cells c) c). split.
    + unfold getitem_label. by rewrite filter_label_mask_rows, Hfil.
    + rewrite cells_mask_col. apply mask_list_pred.
  - rewrite <-(mask_list_pred p (cells c)).
    rewrite length_mask_list by (by rewrite length_fmap).
    by apply (rectangular_mask_rows rows).
Qed.

Lemma filter_df_elementwise_witness :
  ∃ df2,
    filter_df Ex.getitem_frame_key Ex.ld_file "SNP"
      (elementwise (λ v, negb (key_match v (VStr ".")))) = Ok df2
    ∧ columns df2 = columns Ex.ld_file
    ∧ (∃ c2, getitem_label df2 "SNP" = Ok (Series c2)
             ∧ cells c2 = filter (λ v, negb (key_match v (VStr ".")) = true)
                                 (cells (CStr ["rs1"; "."; "rs2"])))
    ∧ rectangular
        (length (filter (λ v, negb (key_match v (VStr ".")) = true)
                        (cells (CStr ["rs1"; "."; "rs2"]))))
        df2.
Proof.
  apply (filter_df_elementwise Ex.getitem_frame_key Ex.ld_file "SNP" _ _ 3).
  - unfold rectangular, Ex.ld_file. repeat constructor.
  - reflexivity.
Defined.

(** * The error policy of the parsers *)

Section PolicyLemmas.

Variable chdtri : float → float → float.

(** The checks [chisq] has made of N and, without a P column, of CHISQ. *)
Lemma chisq_checked (fs : filesystem) (fh : string) (f : file) (t : frame) :
  fs fh = Some f → chisq chdtri fs fh = Ok t →
  (∃ n, file_int f "N" = Ok n ∧ check_N n = Ok tt)
  ∧ ("P" ∉ columns f →
     ∃ c, file_float f "CHISQ" = Ok c ∧ check_chisq c = Ok tt).
Proof.
  intros Hf H. destruct (chisq_inv _ _ _ _ _ Hf H) as (x & Hx & Ht).
  destruct (chisq_frame_inv _ _ _ Ht)
    as (n & snp & x' & Hn & HN & _ & _ & _ & _ & Hbr).
  split.
  - exists n. split; [|done].
    rewrite <-(read_csv_get_int _ _ _ _ "N" Hx); [done|..|done|done].
    unfold chisq_usecols. labels_in.
  - intros HP. rewrite decide_False in Hbr.
    + destruct Hbr as (c & Hc & Hchk & _). exists c. split; [|done].
      rewrite <-(read_csv_get_float _ _ _ _ "CHISQ" Hx); [done|..|done|done].
      unfold chisq_usecols. labels_in.
    + rewrite (read_csv_has_column _ _ _ _ "P" Hx); [done| |done].
      unfold chisq_usecols. labels_in.
Qed.

Lemma chisq_rectangular (fs : filesystem) (fh : string) (f : file)
    (t : frame) (rows : nat) :
  fs fh = Some f → chisq chdtri fs fh = Ok t →
  rectangular rows f → rectangular rows t.
Proof.
  intros Hf H Hrect. destruct (chisq_inv _ _ _ _ _ Hf H) as (x & Hx & Ht).
  pose proof (read_csv_rectangular _ _ _ _ _ Hrect Hx) as Hrx.
  destruct (chisq_frame_steps _ _ _ Ht)
    as (n & snp & x' & Hn & _ & _ & _ & Hfold & Hstat).
  assert (rectangular rows (setitem x "N" (CFloat (F.of_Z <$> n)))) as Hr1.
  { apply rectangular_setitem; [done|].
    unfold col_length. simpl. rewrite length_fmap, length_fmap.
    by eapply get_int_length. }
  assert (rectangular rows x') as Hr2.
  { revert Hfold. unfold chisq_fold_maf. destruct (decide _).
    - intros Hfold. inv_bind Hfold as maf Hmaf. inv_bind Hfold as u Hu.
      injection Hfold as <-. apply rectangular_setitem; [done|].
      pose proof (get_float_length _ _ _ _ Hr1 Hmaf).
      unfold col_length. simpl.
      rewrite length_fmap, length_zip_with, length_fmap. lia.
    - by intros [= <-]. }
  revert Hstat. unfold chisq_statistic. destruct (decide _).
  - intros Hstat. inv_bind Hstat as p Hp. inv_bind Hstat as u Hu.
    injection Hstat as <-.
    apply rectangular_rename, rectangular_setitem; [done|].
    unfold col_length. simpl. rewrite !length_fmap.
    by eapply get_float_length.
  - destruct (decide _); [|done]. intros Hstat.
    inv_bind Hstat as c Hc. inv_bind Hstat as u Hu. by injection Hstat as <-.
Qed.

(** The check [betaprod] has made of a MAFi column. *)
Lemma betaprod_maf_checked (fs : filesystem) (fh : string) (f : file)
    (t : frame) (i : string) (maf : list float) :
  fs fh = Some f → betaprod chdtri fs fh = Ok t → i ∈ ["1"; "2"] →
  file_float f ("MAF" +:+ i) = Ok maf →
  check_maf maf = Ok tt.
Proof.
  intros Hf H Hi Hmaf.
  destruct (betaprod_inv _ _ _ _ _ Hf H) as (x & snp & Hx & _ & _ & Hloop).
  destruct (betaprod_loop_inv _ _ _ Hloop) as (x1 & H1 & H2).
  assert (HM : get_float x ("MAF" +:+ i) = Ok maf).
  { rewrite <-Hmaf. apply (read_csv_get_float _ _ _ _ _ Hx).
    - rewrite betaprod_usecols_eq.
      apply elem_of_12 in Hi as [-> | ->]; labels_in.
    - by apply elem_of_12 in Hi as [-> | ->].
    - by apply elem_of_12 in Hi as [-> | ->]. }
  apply elem_of_12 in Hi as [-> | ->].
  - by destruct (betaprod_body_maf _ _ _ _ _ H1 HM) as [? _].
  - assert (get_float x1 "MAF2" = Ok maf) as HM'.
    { unfold get_float in *.
      rewrite (betaprod_body_other _ _ _ _ _ H1); [done|labels_ne]. }
    by destruct (betaprod_body_maf _ _ _ _ _ H2 HM') as [? _].
Qed.

Lemma betaprod_rectangular (fs : filesystem) (fh : string) (f : file)
    (t : frame) (rows : nat) :
  fs fh = Some f → betaprod chdtri fs fh = Ok t →
  rectangular rows f → rectangular rows t.
Proof.
  intros Hf H Hrect.
  destruct (betaprod_inv _ _ _ _ _ Hf H) as (x & snp & Hx & _ & _ & Hloop).
  destruct (betaprod_loop_inv _ _ _ Hloop) as (x1 & H1 & H2).
  pose proof (read_csv_rectangular _ _ _ _ _ Hrect Hx) as Hrx.
  destruct (betaprod_body_rectangular _ _ _ _ _ Hrx H1) as [Hr1 _].
  by destruct (betaprod_body_rectangular _ _ _ _ _ Hr1 H2) as [Hr2 _].
Qed.

Variable pd_concat : list frame → result frame.
Variable float_of_string : string → option float.

(** [ldscore], step by step, on a single file or on the files of the
    chromosomes: the rows whose identifier is a dot are removed before
    [check_rsid] sees the identifiers. *)
Lemma ldscore_steps (fs : filesystem) (fh : string) (num : option Z)
    (t : frame) :
  ldscore pd_concat float_of_string fs fh num = Ok t ↔
  ∃ x snp rest,
    ldscore_read pd_concat fs fh num = Ok x ∧
    get_str x "SNP" = Ok snp ∧
    NoDup (filter (λ s, s ≠ ".") snp) ∧
    mapM (λ nc, c ← astype_float float_of_string nc.2; Ok (nc.1, c))
         (drop 1 (mask_rows (not_dot_mask snp) x)) = Ok rest ∧
    t = take 1 (mask_rows (not_dot_mask snp) x) ++ rest.
Proof.
  unfold ldscore. fold (ldscore_read pd_concat fs fh num).
  fold (not_dot_mask). split.
  - intros H. inv_bind H as x Hx. inv_bind H as snp Hsnp.
    fold (not_dot_mask snp) in H.
    inv_bind H as snp' Hsnp'. inv_bind H as u Hchk. destruct u.
    inv_bind H as rest Hrest. injection H as <-.
    exists x, snp, rest. split_and!; try done.
    apply get_str_inv in Hsnp.
    unfold get_str in Hsnp'.
    rewrite (getitem_mask_rows _ _ _ _ Hsnp) in Hsnp'. simpl in Hsnp'.
    injection Hsnp' as <-. unfold not_dot_mask in Hchk.
    rewrite mask_list_not_dot in Hchk.
    by apply check_rsid_Ok in Hchk as [_ ?].
  - intros (x & snp & rest & Hx & Hsnp & Hnd & Hrest & ->).
    rewrite Hx. cbn [mbind result_bind]. rewrite Hsnp. cbn [mbind result_bind].
    fold (not_dot_mask snp).
    apply get_str_inv in Hsnp. unfold get_str at 1.
    rewrite (getitem_mask_rows _ _ _ _ Hsnp). cbn [mbind result_bind mask_col].
    unfold not_dot_mask at 1. rewrite mask_list_not_dot.
    replace (check_rsid (filter (λ s, s ≠ ".") snp)) with (Ok tt : result ()).
    + cbn [mbind result_bind]. by rewrite Hrest.
    + symmetry. apply check_rsid_Ok. split; [|done].
      by intros [? _]%list_elem_of_filter.
Qed.

End PolicyLemmas.

(** C1, as the code has it.  [check_rsid] raises exactly on an identifier
    "." and on a duplicated identifier.  [chisq] returns only when the file's
    SNP column passes [check_rsid], no N is negative, every MAF lies in
    (0, 1), every P lies in (0, 1] and, without a P column, every CHISQ is a
    number in [0, inf); [betaprod] returns only when SNP passes [check_rsid]
    and, for each phenotype, no Ni is negative, every DIRi is +1 or -1, every
    CHISQi is a number in [0, inf), without a CHISQi column every Pi lies in
    (0, 1], and every MAFi lies in (0, 1).  When they return, the SNP column
    is that of the file and every column has the number of rows of the file.
    [ldscore], on a single file or on the files of the chromosomes, first
    removes the rows whose identifier is ".", then checks the remaining
    identifiers, and returns the remaining rows: it succeeds exactly when the
    table is read, the identifiers other than "." are distinct and the
    columns after the first convert to float. *)
Theorem parsers_error_policy (chdtri : float → float → float)
    (pd_concat : list frame → result frame)
    (float_of_string : string → option float) :
  (∀ rsids,
     (check_rsid rsids = Ok tt ↔ ("." ∉ rsids) ∧ NoDup rsids)
     ∧ (check_rsid rsids = Ok tt ∨ raises_ValueError (check_rsid rsids)))
  ∧ (∀ fs fh f t,
       fs fh = Some f → chisq chdtri fs fh = Ok t →
       (∃ snp, file_str f "SNP" = Ok snp ∧ ("." ∉ snp) ∧ NoDup snp
               ∧ getitem t "SNP" = Ok (CStr snp))
       ∧ (∃ n, file_int f "N" = Ok n ∧ Forall (λ k, 0 ≤ k) n)
       ∧ (∀ maf, file_float f "MAF" = Ok maf →
                 Forall in_open_unit_interval maf)
       ∧ (∀ p, file_float f "P" = Ok p → Forall in_unit_interval p)
       ∧ (("P" ∉ columns f) →
          ∃ c, file_float f "CHISQ" = Ok c ∧ Forall finite_nonneg c)
       ∧ (∀ rows, rectangular rows f → rectangular rows t))
  ∧ (∀ fs fh f t,
       fs fh = Some f → betaprod chdtri fs fh = Ok t →
       (∃ snp, file_str f "SNP" = Ok snp ∧ ("." ∉ snp) ∧ NoDup snp
               ∧ getitem t "SNP" = Ok (CStr snp))
       ∧ (∀ i, i ∈ ["1"; "2"] →
            (∃ n, file_int f ("N" +:+ i) = Ok n ∧ Forall (λ k, 0 ≤ k) n)
            ∧ (∃ dir, file_int f ("DIR" +:+ i) = Ok dir
                      ∧ Forall valid_dir dir)
            ∧ (∀ c, file_float f ("CHISQ" +:+ i) = Ok c →
                    Forall finite_nonneg c)
            ∧ ((("CHISQ" +:+ i) ∉ columns f) →
               ∃ p, file_float f ("P" +:+ i) = Ok p
                    ∧ Forall in_unit_interval p)
            ∧ (∀ maf, file_float f ("MAF" +:+ i) = Ok maf →
                      Forall in_open_unit_interval maf))
       ∧ (∀ rows, rectangular rows f → rectangular rows t))
  ∧ (∀ fs fh num t,
       ldscore pd_concat float_of_string fs fh num = Ok t ↔
       ∃ x snp rest,
         ldscore_read pd_concat fs fh num = Ok x ∧
         get_str x "SNP" = Ok snp ∧
         NoDup (filter (λ s, s ≠ ".") snp) ∧
         mapM (λ nc, c ← astype_float float_of_string nc.2; Ok (nc.1, c))
              (drop 1 (mask_rows (not_dot_mask snp) x)) = Ok rest ∧
         t = take 1 (mask_rows (not_dot_mask snp) x) ++ rest).
Proof.
  split_and!.
  - intros rsids. split; [apply check_rsid_Ok|apply check_rsid_result].
  - intros fs fh f t Hf H.
    destruct (chisq_keeps_rsids _ _ _ _ _ Hf H) as (snp & Hs & Hchk & Ht).
    apply check_rsid_Ok in Hchk as [? ?].
    destruct (chisq_checked _ _ _ _ _ Hf H) as [(n & Hn & HN) HC].
    split_and!.
    + by exists snp.
    + exists n. split; [done|]. by apply check_N_Ok.
    + intros maf Hmaf.
      by destruct (chisq_maf_fold _ _ _ _ _ _ Hf Hmaf H) as [? _].
    + intros p Hp.
      destruct (chisq_P_branch _ _ _ _ _ _ Hf Hp H) as (? & ? & _ & _ & ? & _).
      by apply check_pvalue_Ok.
    + intros HP. destruct (HC HP) as (c & Hc & Hchk). exists c.
      split; [done|]. by apply check_chisq_Ok.
    + intros rows. by apply (chisq_rectangular chdtri fs fh).
  - intros fs fh f t Hf H.
    destruct (betaprod_keeps_rsids _ _ _ _ _ Hf H) as (snp & Hs & Hchk & Ht).
    apply check_rsid_Ok in Hchk as [? ?].
    split_and!.
    + by exists snp.
    + intros i Hi.
      destruct (betaprod_spec chdtri _ _ _ _ i Hf H Hi)
        as (n & dir & c & Hn & HN & Hd & HD & Hbr & _).
      split_and!.
      * exists n. split; [done|]. by apply check_N_Ok.
      * exists dir. split; [done|]. by apply check_dir_Ok.
      * intros c' Hc'. destruct Hbr as [(Hc & Hchk & _)|(Hno & _)].
        -- assert (c' = c) as -> by congruence. by apply check_chisq_Ok.
        -- by apply file_float_columns in Hc'.
      * intros Hno. destruct Hbr as [(Hc & _)|(_ & p & Hp & Hchk & _)].
        -- by apply file_float_columns in Hc.
        -- exists p. split; [done|]. by apply check_pvalue_Ok.
      * intros maf Hmaf. apply check_maf_Ok.
        by apply (betaprod_maf_checked chdtri fs fh f t i).
    + intros rows. by apply (betaprod_rectangular chdtri fs fh).
  - apply ldscore_steps.
Qed.

Lemma parsers_error_policy_witness :
  (∃ snp, file_str Ex.chisq_file "SNP" = Ok snp ∧ ("." ∉ snp) ∧ NoDup snp
          ∧ getitem [("SNP", CStr ["rs1"; "rs2"]);
                     ("N", CFloat (F.of_Z <$> [100; 250]));
                     ("CHISQ", CFloat [F.zero; F.zero])] "SNP"
            = Ok (CStr snp))
  ∧ (∃ n, file_int Ex.chisq_file "N" = Ok n ∧ Forall (λ k, 0 ≤ k) n)
  ∧ (∀ maf, file_float Ex.chisq_file "MAF" = Ok maf →
            Forall in_open_unit_interval maf)
  ∧ (∀ p, file_float Ex.chisq_file "P" = Ok p → Forall in_unit_interval p)
  ∧ (("P" ∉ columns Ex.chisq_file) →
     ∃ c, file_float Ex.chisq_file "CHISQ" = Ok c ∧ Forall finite_nonneg c)
  ∧ (∀ rows, rectangular rows Ex.chisq_file →
             rectangular rows [("SNP", CStr ["rs1"; "rs2"]);
                               ("N", CFloat (F.of_Z <$> [100; 250]));
                               ("CHISQ", CFloat [F.zero; F.zero])]).
Proof.
  apply (proj1 (proj2 (parsers_error_policy Ex.chdtri Ex.pd_concat
                         Ex.float_of_string))
           Ex.chisq_fs "trait.chisq" Ex.chisq_file).
  - reflexivity.
  - vm_compute. reflexivity.
Defined.

(** C1, the input on which the claim fails: a file with the identifiers
    rs1, "." and rs2 is accepted by [ldscore], which returns the rows of rs1
    and rs2. *)
Lemma ldscore_accepts_dot_row :
  ldscore Ex.pd_concat Ex.float_of_string Ex.ld_fs "ref" None
  = Ok [("SNP", CStr ["rs1"; "rs2"]); ("L2", CFloat [F.one; Ex.four])]
  ∧ ¬ raises (ldscore Ex.pd_concat Ex.float_of_string Ex.ld_fs "ref" None).
Proof.
  assert (ldscore Ex.pd_concat Ex.float_of_string Ex.ld_fs "ref" None
          = Ok [("SNP", CStr ["rs1"; "rs2"]); ("L2", CFloat [F.one; Ex.four])])
    as H by (vm_compute; reflexivity).
  split; [done|]. rewrite H. by intros [e ?].
Qed.
